(** * A verification development for libregto's hand model, scenario engine
    and progress store.

    Sources embedded:
    - js/modules/handStrength.js : RANKS, generateAllHands, parseHand,
      normalizeHand, PREFLOP_EQUITY, getEquity, getHandFromGrid,
      getGridPosition, getRangeHands, rangeToGrid, handsToGrid,
      gridToHands, getRangeSimilarity, getRangeDifference;
    - js/components/ActionHistory.js : getRangeStats;
    - the postflop scenario module : analyzeBoardTexture,
      generateBoardWithTexture and its four board generators;
    - js/storage.js : updateDrillProgress, updateScenarioProgress and their
      achievement checks, isDrillUnlocked, isDrillCompleted,
      getDrillThreshold, getCurrentDrill, getDrillStats,
      isScenarioUnlocked, getScenarioThreshold, getScenarioStats;
    - the ScenarioEngine module : reset, start, stop, nextQuestion,
      submitAnswer, endScenario, getStats, getFinalStats, shuffleArray,
      randomPick, randomPickN.

    JS strings are modelled as Rocq strings of ASCII characters; a JS value
    that may be [null], a result, or a thrown [TypeError] is an [outcome]. *)

From stdpp Require Import base list gmap strings pretty.
From Stdlib Require Import ZArith QArith Qround String Ascii Bool Lia.

Open Scope string_scope.

(** The three ways a JS expression can end that matter here. *)
Inductive outcome (A : Type) : Type :=
| Value (v : A)
| NullV
| TypeError.
Arguments Value {A} v.
Arguments NullV {A}.
Arguments TypeError {A}.

#[global] Instance outcome_eq_dec {A} `{EqDecision A} : EqDecision (outcome A).
Proof. solve_decision. Defined.

(* ------------------------------------------------------------------ *)
(** ** Hand model (js/modules/handStrength.js) *)

Module HandModel.

(** [String.prototype.toUpperCase] / [toLowerCase] on one ASCII unit. *)
Definition toUpper (c : ascii) : ascii :=
  let n := nat_of_ascii c in
  if (97 <=? n)%nat && (n <=? 122)%nat then ascii_of_nat (n - 32) else c.

Definition toLower (c : ascii) : ascii :=
  let n := nat_of_ascii c in
  if (65 <=? n)%nat && (n <=? 90)%nat then ascii_of_nat (n + 32) else c.

(** export const RANKS = ['A', 'K', ..., '2'] *)
Definition RANKS : list ascii :=
  ["A"; "K"; "Q"; "J"; "T"; "9"; "8"; "7"; "6"; "5"; "4"; "3"; "2"]%char.

(** [Array.prototype.indexOf]: first index, or -1. *)
Fixpoint indexOf (l : list ascii) (c : ascii) : Z :=
  match l with
  | [] => (-1)%Z
  | x :: l' =>
      if Ascii.eqb x c then 0%Z
      else let i := indexOf l' c in if (i <? 0)%Z then (-1)%Z else (i + 1)%Z
  end.

(** [RANKS[i]] : a missing index reads [undefined], and string
    concatenation turns it into the text "undefined". *)
Definition rank_at (i : nat) : string :=
  match nth_error RANKS i with
  | Some c => String c EmptyString
  | None => "undefined"
  end.

(** generateAllHands *)
Definition generateAllHands : list string :=
  flat_map (fun i =>
    flat_map (fun j =>
      if Nat.eqb i j then [rank_at i ++ rank_at j]
      else [rank_at i ++ rank_at j ++ "s"; rank_at i ++ rank_at j ++ "o"])
      (seq i (List.length RANKS - i)))
    (seq 0 (List.length RANKS)).

Definition ALL_HANDS : list string := generateAllHands.

(** The object returned by parseHand. *)
Record Hand := mkHand {
  rank1 : ascii;
  rank2 : ascii;
  suited : bool;
  offsuit : bool;
  pair : bool;
  notation : string
}.

(** [notation[2]?.toLowerCase()] : [None] is [undefined]. *)
Definition suffix_of (rest : string) : option ascii :=
  match rest with
  | EmptyString => None
  | String c _ => Some (toLower c)
  end.

(** parseHand: [null] when the notation is empty or shorter than 2. *)
Definition parseHand (s : string) : option Hand :=
  match s with
  | String c0 (String c1 rest) =>
      let r1 := toUpper c0 in
      let r2 := toUpper c1 in
      let suffix := suffix_of rest in
      Some (mkHand r1 r2
              (match suffix with Some x => Ascii.eqb x "s"%char | None => false end)
              (match suffix with Some x => Ascii.eqb x "o"%char | None => false end)
              (Ascii.eqb r1 r2)
              (if Ascii.eqb r1 r2 then String r1 (String r2 EmptyString)
               else String r1 (String r2
                      (match suffix with
                       | Some x => String x EmptyString
                       | None => "o" end))))
  | _ => None
  end.

(** normalizeHand: [null] on the empty string; a one-character string
    makes [notation[1].toUpperCase()] throw. *)
Definition normalizeHand (s : string) : outcome string :=
  match s with
  | EmptyString => NullV
  | String _ EmptyString => TypeError
  | String c0 (String c1 rest) =>
      let rank1 := toUpper c0 in
      let rank2 := toUpper c1 in
      let suffix := match suffix_of rest with
                    | Some x => String x EmptyString
                    | None => "" end in
      let r1 := indexOf RANKS rank1 in
      let r2 := indexOf RANKS rank2 in
      let '(rank1, rank2) :=
        if (r2 <? r1)%Z then (rank2, rank1) else (rank1, rank2) in
      if Ascii.eqb rank1 rank2 then Value (String rank1 (String rank2 EmptyString))
      else Value (String rank1 (String rank2
                    (if String.eqb suffix "" then "o" else suffix)))
  end.

(** getHandFromGrid *)
Definition getHandFromGrid (row col : nat) : string :=
  let r1 := rank_at row in
  let r2 := rank_at col in
  if Nat.eqb row col then r1 ++ r2
  else if Nat.ltb row col then r1 ++ r2 ++ "s"
  else r2 ++ r1 ++ "o".

(** getGridPosition *)
Definition getGridPosition (s : string) : option (Z * Z) :=
  match parseHand s with
  | None => None
  | Some h =>
      let row := indexOf RANKS (rank1 h) in
      let col := indexOf RANKS (rank2 h) in
      if pair h then Some (row, row)
      else if suited h then Some (Z.min row col, Z.max row col)
      else Some (Z.max row col, Z.min row col)
  end.

(** PREFLOP_EQUITY: a JS object literal, kept as its list of properties in
    source order (no key repeats). Values are the source's percentages. *)
Definition PREFLOP_EQUITY : list (string * Q) := [
  ("AA", 850 # 10); ("KK", 824 # 10); ("QQ", 800 # 10); ("JJ", 775 # 10); ("TT", 751 # 10);
  ("99", 721 # 10); ("88", 691 # 10); ("77", 662 # 10); ("66", 633 # 10); ("55", 603 # 10);
  ("44", 570 # 10); ("33", 537 # 10); ("22", 503 # 10); ("AKs", 670 # 10); ("AQs", 661 # 10);
  ("AJs", 654 # 10); ("ATs", 647 # 10); ("A9s", 630 # 10); ("A8s", 621 # 10); ("A7s", 611 # 10);
  ("A6s", 600 # 10); ("A5s", 602 # 10); ("A4s", 593 # 10); ("A3s", 585 # 10); ("A2s", 577 # 10);
  ("AKo", 653 # 10); ("AQo", 644 # 10); ("AJo", 636 # 10); ("ATo", 628 # 10); ("A9o", 607 # 10);
  ("A8o", 597 # 10); ("A7o", 586 # 10); ("A6o", 574 # 10); ("A5o", 576 # 10); ("A4o", 566 # 10);
  ("A3o", 558 # 10); ("A2o", 550 # 10); ("KQs", 634 # 10); ("KJs", 626 # 10); ("KTs", 619 # 10);
  ("K9s", 600 # 10); ("K8s", 585 # 10); ("K7s", 578 # 10); ("K6s", 568 # 10); ("K5s", 558 # 10);
  ("K4s", 549 # 10); ("K3s", 541 # 10); ("K2s", 533 # 10); ("KQo", 614 # 10); ("KJo", 606 # 10);
  ("KTo", 598 # 10); ("K9o", 576 # 10); ("K8o", 558 # 10); ("K7o", 550 # 10); ("K6o", 539 # 10);
  ("K5o", 529 # 10); ("K4o", 519 # 10); ("K3o", 511 # 10); ("K2o", 502 # 10); ("QJs", 603 # 10);
  ("QTs", 595 # 10); ("Q9s", 579 # 10); ("Q8s", 562 # 10); ("Q7s", 546 # 10); ("Q6s", 540 # 10);
  ("Q5s", 531 # 10); ("Q4s", 522 # 10); ("Q3s", 514 # 10); ("Q2s", 506 # 10); ("QJo", 582 # 10);
  ("QTo", 573 # 10); ("Q9o", 553 # 10); ("Q8o", 533 # 10); ("Q7o", 515 # 10); ("Q6o", 508 # 10);
  ("Q5o", 498 # 10); ("Q4o", 488 # 10); ("Q3o", 479 # 10); ("Q2o", 471 # 10); ("JTs", 575 # 10);
  ("J9s", 558 # 10); ("J8s", 542 # 10); ("J7s", 524 # 10); ("J6s", 510 # 10); ("J5s", 504 # 10);
  ("J4s", 495 # 10); ("J3s", 487 # 10); ("J2s", 479 # 10); ("JTo", 554 # 10); ("J9o", 534 # 10);
  ("J8o", 515 # 10); ("J7o", 495 # 10); ("J6o", 479 # 10); ("J5o", 473 # 10); ("J4o", 463 # 10);
  ("J3o", 455 # 10); ("J2o", 446 # 10); ("T9s", 543 # 10); ("T8s", 526 # 10); ("T7s", 509 # 10);
  ("T6s", 493 # 10); ("T5s", 478 # 10); ("T4s", 472 # 10); ("T3s", 464 # 10); ("T2s", 456 # 10);
  ("T9o", 517 # 10); ("T8o", 498 # 10); ("T7o", 478 # 10); ("T6o", 460 # 10); ("T5o", 444 # 10);
  ("T4o", 437 # 10); ("T3o", 428 # 10); ("T2o", 420 # 10); ("98s", 511 # 10); ("97s", 495 # 10);
  ("96s", 478 # 10); ("95s", 461 # 10); ("94s", 447 # 10); ("93s", 441 # 10); ("92s", 434 # 10);
  ("98o", 483 # 10); ("97o", 465 # 10); ("96o", 445 # 10); ("95o", 427 # 10); ("94o", 412 # 10);
  ("93o", 405 # 10); ("92o", 397 # 10); ("87s", 482 # 10); ("86s", 465 # 10); ("85s", 448 # 10);
  ("84s", 432 # 10); ("83s", 418 # 10); ("82s", 412 # 10); ("87o", 452 # 10); ("86o", 432 # 10);
  ("85o", 414 # 10); ("84o", 396 # 10); ("83o", 381 # 10); ("82o", 374 # 10); ("76s", 457 # 10);
  ("75s", 440 # 10); ("74s", 423 # 10); ("73s", 407 # 10); ("72s", 394 # 10); ("76o", 425 # 10);
  ("75o", 406 # 10); ("74o", 387 # 10); ("73o", 369 # 10); ("72o", 355 # 10); ("65s", 432 # 10);
  ("64s", 414 # 10); ("63s", 398 # 10); ("62s", 384 # 10); ("65o", 398 # 10); ("64o", 378 # 10);
  ("63o", 360 # 10); ("62o", 345 # 10); ("54s", 411 # 10); ("53s", 394 # 10); ("52s", 379 # 10);
  ("54o", 376 # 10); ("53o", 357 # 10); ("52o", 342 # 10); ("43s", 380 # 10); ("42s", 366 # 10);
  ("43o", 343 # 10); ("42o", 327 # 10); ("32s", 354 # 10); ("32o", 316 # 10)
]%Q.

(** Property read [obj[key]] on a plain object: [None] is [undefined]. *)
Fixpoint prop_get (key : string) (obj : list (string * Q)) : option Q :=
  match obj with
  | [] => None
  | (k, v) :: obj' => if String.eqb k key then Some v else prop_get key obj'
  end.

(** getEquity: [PREFLOP_EQUITY[normalized] || 30]. A [null] key reads the
    property "null", which does not exist; a falsy (zero or missing) value
    gives 30. *)
Definition getEquity (s : string) : outcome Q :=
  let or30 (r : option Q) : Q :=
    match r with
    | Some v => if Qeq_bool v 0 then 30%Q else v
    | None => 30%Q
    end in
  match normalizeHand s with
  | Value n => Value (or30 (prop_get n PREFLOP_EQUITY))
  | NullV => Value (or30 (prop_get "null" PREFLOP_EQUITY))
  | TypeError => TypeError
  end.

End HandModel.

(** Notations the spec calls valid: two rank letters (either case) and an
    optional suffix s or o (either case). *)
Definition rank_ok (c : ascii) : bool := (0 <=? HandModel.indexOf HandModel.RANKS c)%Z.

Definition valid_notation (s : string) : bool :=
  match s with
  | String c0 (String c1 rest) =>
      rank_ok (HandModel.toUpper c0) && rank_ok (HandModel.toUpper c1) &&
      match rest with
      | EmptyString => true
      | String c2 EmptyString =>
          Ascii.eqb (HandModel.toLower c2) "s"%char || Ascii.eqb (HandModel.toLower c2) "o"%char
      | _ => false
      end
  | _ => false
  end.


(* ------------------------------------------------------------------ *)
(** ** Range statistics (js/components/ActionHistory.js) *)

Module RangeStatsModel.
Import HandModel.

(** [new Set(hands)]: first occurrences, in insertion order. *)
Definition set_of_list {A} `{EqDecision A} (l : list A) : list A :=
  fold_left (fun acc x => if decide (x ∈ acc) then acc else (acc ++ [x])%list) l [].

(** [Number.prototype.toFixed(1)] on a non-negative value below 1e21: the
    integer n closest to 10x (the larger one on a tie), printed with one
    decimal. The double [totalCombos / 1326 * 100] is taken as the exact
    rational; toFixed(1) only tells them apart next to a tie. *)
Definition toFixed1 (x : Q) : string :=
  let n := Qfloor (x * 10 + (1 # 2))%Q in
  pretty (Z.to_N (n / 10)) +:+ "." +:+ pretty (Z.to_N (n mod 10)).

Record RangeStats := mkRangeStats {
  rs_hands : nat;
  rs_pairs : nat;
  rs_suited : nat;
  rs_offsuit : nat;
  rs_combos : nat;
  rs_percentage : string
}.

(** [range.map(h => normalizeHand(h))]: a throw aborts the map; [null]
    entries are kept. *)
Fixpoint normalize_all (range : list string) : outcome (list (option string)) :=
  match range with
  | [] => Value []
  | h :: t =>
      match normalizeHand h, normalize_all t with
      | TypeError, _ => TypeError
      | _, TypeError => TypeError
      | Value n, Value l => Value (Some n :: l)
      | NullV, Value l => Value (None :: l)
      | _, NullV => NullV
      end
  end.

(** [hand.endsWith('s')] *)
Definition ends_with_s (h : string) : bool :=
  match String.get (String.length h - 1) h with
  | Some c => Ascii.eqb c "s"%char
  | None => false
  end.

(** The [uniqueHands.forEach] loop: counts (pairs, suited, offsuit);
    reading [.length] of a [null] entry throws. *)
Fixpoint count_shapes (hands : list (option string)) : outcome (nat * nat * nat) :=
  match hands with
  | [] => Value (0, 0, 0)%nat
  | None :: _ => TypeError
  | Some h :: t =>
      match count_shapes t with
      | Value (p, s, o) =>
          if Nat.eqb (String.length h) 2 then Value (S p, s, o)
          else if ends_with_s h then Value (p, S s, o)
          else Value (p, s, S o)
      | e => e
      end
  end.

(** getRangeStats *)
Definition getRangeStats (range : list string) : outcome RangeStats :=
  match normalize_all range with
  | Value hands =>
      let uniqueHands := set_of_list hands in
      match count_shapes uniqueHands with
      | Value (pairs, suited, offsuit) =>
          let totalCombos := (pairs * 6 + suited * 4 + offsuit * 12)%nat in
          let percentage := toFixed1 (inject_Z (Z.of_nat totalCombos) / 1326 * 100) in
          Value (mkRangeStats (List.length uniqueHands) pairs suited offsuit
                   totalCombos percentage)
      | TypeError => TypeError
      | NullV => NullV
      end
  | TypeError => TypeError
  | NullV => NullV
  end.

End RangeStatsModel.

(* ------------------------------------------------------------------ *)
(** ** Board texture (analyzeBoardTexture, postflop scenario module) *)

Module BoardTexture.

(** Card ranks and suits: the board generators only build cards from
    RANKS and SUITS, so the two fields range over these 13 and 4 values. *)
Inductive Rank := RA | RK | RQ | RJ | RT | R9 | R8 | R7 | R6 | R5 | R4 | R3 | R2.
Inductive Suit := Ss | Sh | Sd | Sc.

#[global] Instance Rank_eq_dec : EqDecision Rank.
Proof. solve_decision. Defined.
#[global] Instance Suit_eq_dec : EqDecision Suit.
Proof. solve_decision. Defined.

Record Card := mkCard { rank : Rank; suit : Suit }.

(** getRankValue: [{A:14, K:13, Q:12, J:11, T:10}[rank] || parseInt(rank)]. *)
Definition getRankValue (r : Rank) : Z :=
  match r with
  | RA => 14 | RK => 13 | RQ => 12 | RJ => 11 | RT => 10 | R9 => 9
  | R8 => 8 | R7 => 7 | R6 => 6 | R5 => 5 | R4 => 4 | R3 => 3 | R2 => 2
  end%Z.

(** [.sort((a, b) => a - b)] on numbers: ascending order. *)
Fixpoint insert_sorted (x : Z) (l : list Z) : list Z :=
  match l with
  | [] => [x]
  | y :: l' => if (x <=? y)%Z then x :: l else y :: insert_sorted x l'
  end.

Fixpoint sort_numbers (l : list Z) : list Z :=
  match l with
  | [] => []
  | x :: l' => insert_sorted x (sort_numbers l')
  end.

(** [suits.forEach(s => suitCounts[s] = (suitCounts[s] || 0) + 1)]: the
    object as its properties in insertion order. *)
Fixpoint bump (s : Suit) (counts : list (Suit * nat)) : list (Suit * nat) :=
  match counts with
  | [] => [(s, 1%nat)]
  | (k, n) :: t => if decide (k = s) then (k, S n) :: t else (k, n) :: bump s t
  end.

Definition suitCounts (suits : list Suit) : list (Suit * nat) :=
  fold_left (fun acc s => bump s acc) suits [].

(** [for (i = 0; i < rankValues.length - 1; i++) gaps.push(v[i+1] - v[i])] *)
Fixpoint gaps (l : list Z) : list Z :=
  match l with
  | x :: ((y :: _) as t) => (y - x)%Z :: gaps t
  | _ => []
  end.

Inductive Texture := unknown | monotone | paired | wet | dry.

(** analyzeBoardTexture *)
Definition analyzeBoardTexture (board : list Card) : Texture :=
  if (List.length board <? 3)%nat then unknown else
  let suits := map suit board in
  let ranks := map rank board in
  let rankValues := sort_numbers (map getRankValue ranks) in
  let s_ i := nth i suits Ss in
  let r_ i := nth i ranks RA in
  if bool_decide (s_ 0%nat = s_ 1%nat) && bool_decide (s_ 1%nat = s_ 2%nat) then monotone
  else if bool_decide (r_ 0%nat = r_ 1%nat) || bool_decide (r_ 1%nat = r_ 2%nat)
          || bool_decide (r_ 0%nat = r_ 2%nat) then paired
  else
    let hasTwoTone := existsb (fun kv => Nat.eqb kv.2 2) (suitCounts suits) in
    let isConnected := forallb (fun g => (g <=? 2)%Z) (gaps rankValues) in
    if hasTwoTone || isConnected then wet else dry.

(** The classifier as the claim words it, for three cards: "exactly two
    cards share a suit", and both gaps of the three sorted rank values at
    most 2 (sorted = min, middle, max). *)
Definition connected3 (v1 v2 v3 : Z) : bool :=
  let lo := Z.min v1 (Z.min v2 v3) in
  let hi := Z.max v1 (Z.max v2 v3) in
  let mid := (v1 + v2 + v3 - lo - hi)%Z in
  bool_decide (mid - lo <= 2 /\ hi - mid <= 2)%Z.

Definition texture_as_claimed (c1 c2 c3 : Card) : Texture :=
  let s1 := suit c1 in let s2 := suit c2 in let s3 := suit c3 in
  if bool_decide (s1 = s2 /\ s2 = s3) then monotone
  else if bool_decide (rank c1 = rank c2 \/ rank c2 = rank c3 \/ rank c1 = rank c3) then paired
  else if bool_decide ((s1 = s2 /\ s3 <> s1) \/ (s2 = s3 /\ s1 <> s2) \/ (s1 = s3 /\ s2 <> s1))
          || connected3 (getRankValue (rank c1)) (getRankValue (rank c2))
                (getRankValue (rank c3)) then wet
  else dry.

End BoardTexture.


(* ------------------------------------------------------------------ *)
(** ** Progress store (storage module: drills and scenarios stages) *)

Module Storage.

(** One module record of [progress.stages.drills.modules] or
    [progress.stages.scenarios.modules]. [bestStreak] is [None] where the
    record has no such field (scenario records); [bestTime] is [None] for
    [null] (drill records start with [bestTime: null]). *)
Record ModRec := mkMod {
  unlocked : bool;
  completed : bool;
  bestScore : Q;
  bestStreak : option Q;
  bestTime : option Q;
  attempts : nat;
  lastAttempt : option string
}.

(** A stage: [{ unlocked, completed, modules, totalAttempts, achievements }]. *)
Record Stage := mkStage {
  st_unlocked : bool;
  st_completed : bool;
  st_modules : gmap string ModRec;
  st_totalAttempts : nat;
  st_achievements : list string
}.

(** The part of the persisted document these functions touch. *)
Record Progress := mkProgress {
  drills : Stage;
  scenarios : Stage;
  fullHands : Stage
}.

(** The session statistics handed in; [None] is an absent field. Numbers
    are rationals (no NaN or infinities). *)
Record Stats := mkStats {
  accuracy : option Q;
  stats_bestStreak : option Q;
  avgTime : option Q
}.

Definition set_unlocked (r : ModRec) : ModRec :=
  mkMod true (completed r) (bestScore r) (bestStreak r) (bestTime r)
    (attempts r) (lastAttempt r).
Definition set_completed (r : ModRec) : ModRec :=
  mkMod (unlocked r) true (bestScore r) (bestStreak r) (bestTime r)
    (attempts r) (lastAttempt r).
Definition set_modules (st : Stage) (m : gmap string ModRec) : Stage :=
  mkStage (st_unlocked st) (st_completed st) m (st_totalAttempts st) (st_achievements st).
Definition set_stage_completed (st : Stage) : Stage :=
  mkStage (st_unlocked st) true (st_modules st) (st_totalAttempts st) (st_achievements st).
Definition set_stage_unlocked (st : Stage) : Stage :=
  mkStage true (st_completed st) (st_modules st) (st_totalAttempts st) (st_achievements st).
Definition set_achievements (st : Stage) (a : list string) : Stage :=
  mkStage (st_unlocked st) (st_completed st) (st_modules st) (st_totalAttempts st) a.

(** JS comparisons of a possibly absent number: [undefined] compares false. *)
Definition js_gt (x : option Q) (y : Q) : bool :=
  match x with Some v => negb (Qle_bool v y) | None => false end.
Definition js_ge (x : option Q) (y : Q) : bool :=
  match x with Some v => Qle_bool y v | None => false end.
Definition js_lt (x : option Q) (y : Q) : bool :=
  match x with Some v => negb (Qle_bool y v) | None => false end.
Definition js_eq (x : option Q) (y : Q) : bool :=
  match x with Some v => Qeq_bool v y | None => false end.

(** [modules[id]?.completed] and [modules[id]?.bestScore >= t]. *)
Definition is_completed (m : gmap string ModRec) (id : string) : bool :=
  match m !! id with Some r => completed r | None => false end.
Definition score_at_least (m : gmap string ModRec) (t : Q) (id : string) : bool :=
  match m !! id with Some r => Qle_bool t (bestScore r) | None => false end.

(** [if (modules[id]) modules[id].unlocked = true] *)
Definition unlock_in (id : string) (m : gmap string ModRec) : gmap string ModRec :=
  match m !! id with Some r => <[id := set_unlocked r]> m | None => m end.

(** [if (!a.includes(x)) a.push(x)] *)
Definition push_new (x : string) (a : list string) : list string :=
  if decide (x ∈ a) then a else (a ++ [x])%list.

Definition DRILL_ORDER : list string :=
  ["hand-ranking"; "open-fold"; "equity-snap"; "range-check"; "position-speed"].

Definition DRILL_THRESHOLDS (id : string) : option Q :=
  if String.eqb id "hand-ranking" then Some 80%Q
  else if String.eqb id "open-fold" then Some 75%Q
  else if String.eqb id "equity-snap" then Some 70%Q
  else if String.eqb id "range-check" then Some 75%Q
  else if String.eqb id "position-speed" then Some 80%Q
  else None.

Definition SCENARIO_ORDER : list string :=
  ["defend-3bet"; "bb-defense"; "3bet-value"; "sb-3bet-fold"; "cold-4bet"; "board-texture"].

Definition SCENARIO_THRESHOLDS (id : string) : option Q :=
  if String.eqb id "defend-3bet" then Some 75%Q
  else if String.eqb id "bb-defense" then Some 75%Q
  else if String.eqb id "3bet-value" then Some 75%Q
  else if String.eqb id "sb-3bet-fold" then Some 75%Q
  else if String.eqb id "cold-4bet" then Some 70%Q
  else if String.eqb id "board-texture" then Some 80%Q
  else None.

Definition TIER_1_SCENARIOS : list string :=
  ["defend-3bet"; "bb-defense"; "3bet-value"; "sb-3bet-fold"].

(** [DRILL_ORDER.indexOf(id)] *)
Fixpoint index_of (x : string) (l : list string) : option nat :=
  match l with
  | [] => None
  | y :: l' => if String.eqb y x then Some 0%nat
               else option_map S (index_of x l')
  end.

(** The in-place record updates of an attempt, in source order. *)
Definition raise_score (acc : option Q) (cur : Q) : Q :=
  match acc with Some v => if js_gt acc cur then v else cur | None => cur end.

Definition raise_streak (s : option Q) (cur : option Q) : option Q :=
  match s, cur with
  | Some v, Some c => if Qle_bool v c then cur else Some v
  | _, _ => cur
  end.

(** [if (stats.avgTime && (drill.bestTime === null || stats.avgTime < drill.bestTime))] *)
Definition lower_time (t : option Q) (cur : option Q) : option Q :=
  match t with
  | Some v =>
      if Qeq_bool v 0 then cur
      else match cur with
           | None => Some v
           | Some c => if Qle_bool c v then cur else Some v
           end
  | None => cur
  end.

(** checkDrillAchievements *)
Definition checkDrillAchievements (p : Progress) (stats : Stats) : Progress :=
  let d := drills p in
  let a := st_achievements d in
  let a := if js_lt (avgTime stats) 2000 then push_new "speed-demon" a else a in
  let a := if js_eq (accuracy stats) 100 then push_new "perfect-run" a else a in
  let a := if js_ge (stats_bestStreak stats) 25 then push_new "on-fire" a else a in
  let a := if forallb (is_completed (st_modules d)) DRILL_ORDER
           then push_new "drill-master" a else a in
  mkProgress (set_achievements d a) (scenarios p) (fullHands p).

(** updateDrillProgress: [None] when the drill is unknown (returns false,
    nothing is saved); otherwise the document that is saved. *)
Definition updateDrillProgress (drillId : string) (stats : Stats) (stamp : string)
    (p : Progress) : option Progress :=
  let drillData := drills p in
  match st_modules drillData !! drillId with
  | None => None
  | Some drill0 =>
      let threshold := match DRILL_THRESHOLDS drillId with Some t => t | None => 70%Q end in
      let passed := js_ge (accuracy stats) threshold in
      let drill := mkMod (unlocked drill0) (completed drill0)
                     (raise_score (accuracy stats) (bestScore drill0))
                     (raise_streak (stats_bestStreak stats) (bestStreak drill0))
                     (lower_time (avgTime stats) (bestTime drill0))
                     (S (attempts drill0)) (Some stamp) in
      let drillData := mkStage (st_unlocked drillData) (st_completed drillData)
                         (<[drillId := drill]> (st_modules drillData))
                         (S (st_totalAttempts drillData)) (st_achievements drillData) in
      if passed && negb (completed drill) then
        let mods := <[drillId := set_completed drill]> (st_modules drillData) in
        let mods := match index_of drillId DRILL_ORDER with
                    | Some i => if (i + 1 <? List.length DRILL_ORDER)%nat
                                then match nth_error DRILL_ORDER (i + 1) with
                                     | Some next => unlock_in next mods
                                     | None => mods end
                                else mods
                    | None => mods
                    end in
        let drillData := set_modules drillData mods in
        let allCompleted := forallb (is_completed mods) DRILL_ORDER in
        let p := if allCompleted
                 then mkProgress (set_stage_completed drillData)
                        (set_stage_unlocked (scenarios p)) (fullHands p)
                 else mkProgress drillData (scenarios p) (fullHands p) in
        Some (checkDrillAchievements p stats)
      else Some (mkProgress drillData (scenarios p) (fullHands p))
  end.

(** checkScenarioAchievements *)
Definition checkScenarioAchievements (p : Progress) (stats : Stats) : Progress :=
  let sc := scenarios p in
  let m := st_modules sc in
  let a := st_achievements sc in
  let a := if js_eq (accuracy stats) 100 then push_new "perfect-decisions" a else a in
  let a := if forallb (is_completed m) SCENARIO_ORDER
           then push_new "scenario-solver" a else a in
  let a := if forallb (is_completed m)
                ["defend-3bet"; "bb-defense"; "3bet-value"; "sb-3bet-fold"; "cold-4bet"]
           then push_new "preflop-master" a else a in
  let a := if forallb (score_at_least m 85) ["3bet-value"; "sb-3bet-fold"]
           then push_new "3bet-specialist" a else a in
  let a := if forallb (score_at_least m 85) ["defend-3bet"; "bb-defense"]
           then push_new "defender" a else a in
  mkProgress (drills p) (set_achievements sc a) (fullHands p).

(** [TIER_1_SCENARIOS.filter(id => modules[id]?.bestScore >= 75).length] *)
Definition tier1Completed (m : gmap string ModRec) : nat :=
  List.length (filter (fun id => score_at_least m 75 id = true) TIER_1_SCENARIOS).

(** updateScenarioProgress *)
Definition updateScenarioProgress (scenarioId : string) (stats : Stats) (stamp : string)
    (p : Progress) : option Progress :=
  let scenarioData := scenarios p in
  match st_modules scenarioData !! scenarioId with
  | None => None
  | Some sc0 =>
      let threshold := match SCENARIO_THRESHOLDS scenarioId with
                       | Some t => t | None => 75%Q end in
      let passed := js_ge (accuracy stats) threshold in
      let scenario := mkMod (unlocked sc0) (completed sc0)
                        (raise_score (accuracy stats) (bestScore sc0))
                        (bestStreak sc0) (bestTime sc0)
                        (S (attempts sc0)) (Some stamp) in
      let mods := <[scenarioId := scenario]> (st_modules scenarioData) in
      if passed && negb (completed scenario) then
        let mods := <[scenarioId := set_completed scenario]> mods in
        let mods := if (2 <=? tier1Completed mods)%nat
                     then unlock_in "cold-4bet" mods else mods in
        let scenarioData := set_modules scenarioData mods in
        let allCompleted := forallb (is_completed mods) SCENARIO_ORDER in
        let p := if allCompleted
                 then mkProgress (drills p) (set_stage_completed scenarioData)
                        (set_stage_unlocked (fullHands p))
                 else mkProgress (drills p) scenarioData (fullHands p) in
        Some (checkScenarioAchievements p stats)
      else Some (mkProgress (drills p) (set_modules scenarioData mods) (fullHands p))
  end.

(** The defaults of the drills, scenarios and full-hands stages. *)
Definition fresh (unl : bool) (streak time : option Q) : ModRec :=
  mkMod unl false 0 streak time 0 None.

Definition DEFAULT_PROGRESS : Progress :=
  mkProgress
    (mkStage false false
       (list_to_map [("hand-ranking", fresh true (Some 0%Q) None);
                     ("open-fold", fresh false (Some 0%Q) None);
                     ("equity-snap", fresh false (Some 0%Q) None);
                     ("range-check", fresh false (Some 0%Q) None);
                     ("position-speed", fresh false (Some 0%Q) None)]) 0 [])
    (mkStage false false
       (list_to_map [("defend-3bet", fresh true None None);
                     ("bb-defense", fresh true None None);
                     ("3bet-value", fresh true None None);
                     ("sb-3bet-fold", fresh true None None);
                     ("cold-4bet", fresh false None None);
                     ("board-texture", fresh true None None)]) 0 [])
    (mkStage false false ∅ 0 []).

(** A recordAttempt call; a call on an unknown id saves nothing. *)
Inductive Attempt :=
| DrillAttempt (id : string) (stats : Stats) (stamp : string)
| ScenarioAttempt (id : string) (stats : Stats) (stamp : string).

Definition record_attempt (p : Progress) (a : Attempt) : Progress :=
  match a with
  | DrillAttempt id st t => default p (updateDrillProgress id st t p)
  | ScenarioAttempt id st t => default p (updateScenarioProgress id st t p)
  end.

Definition run_attempts (p : Progress) (l : list Attempt) : Progress :=
  fold_left record_attempt l p.

(** Monotonicity of one record between two documents, as the spec's
    invariant states it: bestScore and bestStreak never go down, bestTime
    never goes up once set, completed never goes back to false. *)
Definition streak_mono (o o' : option Q) : Prop :=
  match o, o' with
  | Some x, Some y => (x <= y)%Q
  | None, None => True
  | _, _ => False
  end.

Definition time_mono (o o' : option Q) : Prop :=
  match o with
  | Some x => exists y, o' = Some y /\ (y <= x)%Q
  | None => True
  end.

Definition rec_mono (r r' : ModRec) : Prop :=
  (bestScore r <= bestScore r')%Q /\ streak_mono (bestStreak r) (bestStreak r') /\
  time_mono (bestTime r) (bestTime r') /\ (completed r = true -> completed r' = true).

Definition mods_mono (m m' : gmap string ModRec) : Prop :=
  forall k r, m !! k = Some r -> exists r', m' !! k = Some r' /\ rec_mono r r'.

(** [modules['cold-4bet']?.unlocked], read as a boolean. *)
Definition cold4bet_unlocked (m : gmap string ModRec) : bool :=
  match m !! "cold-4bet" with Some c => unlocked c | None => false end.

Definition progress_mono (p p' : Progress) : Prop :=
  mods_mono (st_modules (drills p)) (st_modules (drills p')) /\
  mods_mono (st_modules (scenarios p)) (st_modules (scenarios p')).

End Storage.

(** ** ScenarioEngine (src/unnamed/part_004): the session state machine.

    The engine object is modelled by its [state] record; the configuration
    closures are fields of [Config]. Calls to [performance.now()] and to
    [new Date().toISOString()] are explicit arguments [now] and [stamp].
    The callbacks only report and are left out; [rangeDisplay] and
    [getStats()] of a result are views and left out as well. The persisted
    progress document ([Storage.Progress]) is threaded next to the state,
    since [endScenario] writes it. *)
Module ScenarioEngineModel.

Section Engine.
Context {QData Ans : Type}.

Record Validation := mkValidation {
  v_correct : bool;
  v_correctAnswer : Ans
}.

Record AnswerRecord := mkAnswerRecord {
  questionNumber : nat;
  questionData : QData;
  playerAnswer : Ans;
  correctAnswer : Ans;
  isCorrect : bool;
  time : Q;
  explanation : string
}.

(** [categoryStats[c]] is the pair [(total, correct)]. *)
Record EngineState := mkState {
  active : bool;
  currentQuestion : nat;
  correct : nat;
  currentQuestionData : option QData;
  questionStartTime : Q;
  questionTimes : list Q;
  answers : list AnswerRecord;
  categoryStats : gmap string (nat * nat)
}.

(** [config]; [cfg_totalQuestions] is the raw option, 0 standing for an
    absent (falsy) value, and [category] reads [questionData.category]. *)
Record Config := mkConfig {
  cfg_id : string;
  cfg_totalQuestions : nat;
  generateQuestion : EngineState -> QData;
  validateAnswer : Ans -> QData -> Validation;
  getExplanation : QData -> Validation -> string;
  category : QData -> option string
}.

Record Result := mkResult {
  res_isCorrect : bool;
  res_playerAnswer : Ans;
  res_correctAnswer : Ans;
  res_explanation : string;
  res_time : Q
}.

(** [totalQuestions: config.totalQuestions || 20] *)
Definition totalQuestions (cfg : Config) : nat :=
  match cfg_totalQuestions cfg with O => 20%nat | n => n end.

(** [this.state.currentQuestionData.category || 'default'] *)
Definition category_key (cfg : Config) (q : QData) : string :=
  match category cfg q with
  | Some c => if String.eqb c "" then "default" else c
  | None => "default"
  end.

Definition reset : EngineState :=
  mkState false 0%nat 0%nat None 0%Q [] [] ∅.

Definition stop (s : EngineState) : EngineState :=
  mkState false (currentQuestion s) (correct s) (currentQuestionData s)
    (questionStartTime s) (questionTimes s) (answers s) (categoryStats s).

Definition submitAnswer (cfg : Config) (now : Q) (answer : Ans)
    (s : EngineState) : option Result * EngineState :=
  match (if active s then currentQuestionData s else None) with
  | None => (None, s)
  | Some q =>
      let questionTime := (now - questionStartTime s)%Q in
      let times := (questionTimes s ++ [questionTime])%list in
      let validation := validateAnswer cfg answer q in
      let ok := v_correct validation in
      let corr := if ok then S (correct s) else correct s in
      let c := category_key cfg q in
      let cs := match categoryStats s !! c with Some x => x | None => (0, 0)%nat end in
      let cs := (S cs.1, if ok then S cs.2 else cs.2) in
      let cats := <[c := cs]> (categoryStats s) in
      let ex := getExplanation cfg q validation in
      let record := mkAnswerRecord (currentQuestion s) q answer
                      (v_correctAnswer validation) ok questionTime ex in
      (Some (mkResult ok answer (v_correctAnswer validation) ex questionTime),
       mkState (active s) (currentQuestion s) corr (currentQuestionData s)
         (questionStartTime s) times (answers s ++ [record])%list cats)
  end.

(** [Math.round] on the non-negative values it meets here. *)
Definition js_round (x : Q) : Q := inject_Z (Qfloor (x + (1 # 2))).

Definition sumQ (l : list Q) : Q := fold_left Qplus l 0%Q.

(** [getFinalStats()], restricted to the fields [updateScenarioProgress]
    reads; it has no [bestStreak] field. *)
Definition getFinalStats (cfg : Config) (s : EngineState) : Storage.Stats :=
  let total := totalQuestions cfg in
  let acc := js_round (inject_Z (Z.of_nat (correct s)) / inject_Z (Z.of_nat total) * 100) in
  let avg := match questionTimes s with
             | [] => 0%Q
             | l => (sumQ l / inject_Z (Z.of_nat (List.length l)))%Q
             end in
  Storage.mkStats (Some acc) None (Some avg).

(** [updateScenarioProgress] leaves the document as it is for an id it
    does not know. *)
Definition endScenario (cfg : Config) (stamp : string)
    (w : EngineState * Storage.Progress) : EngineState * Storage.Progress :=
  let '(s, p) := w in
  let s := mkState false (currentQuestion s) (correct s) (currentQuestionData s)
             (questionStartTime s) (questionTimes s) (answers s) (categoryStats s) in
  let stats := getFinalStats cfg s in
  (s, default p (Storage.updateScenarioProgress (cfg_id cfg) stats stamp p)).

Definition nextQuestion (cfg : Config) (now : Q) (stamp : string)
    (w : EngineState * Storage.Progress) : EngineState * Storage.Progress :=
  let '(s, p) := w in
  if negb (active s) then (s, p)
  else if (totalQuestions cfg <=? currentQuestion s)%nat then endScenario cfg stamp (s, p)
  else
    let s := mkState (active s) (S (currentQuestion s)) (correct s)
               (currentQuestionData s) now (questionTimes s) (answers s)
               (categoryStats s) in
    let q := generateQuestion cfg s in
    (mkState (active s) (currentQuestion s) (correct s) (Some q)
       (questionStartTime s) (questionTimes s) (answers s) (categoryStats s), p).

Definition start (cfg : Config) (now : Q) (stamp : string)
    (w : EngineState * Storage.Progress) : EngineState * Storage.Progress :=
  let s := reset in
  nextQuestion cfg now stamp
    (mkState true (currentQuestion s) (correct s) (currentQuestionData s)
       (questionStartTime s) (questionTimes s) (answers s) (categoryStats s), w.2).

(** The calls a page makes on one engine. *)
Inductive Call :=
| CallStart (now : Q) (stamp : string)
| CallStop
| CallNext (now : Q) (stamp : string)
| CallSubmit (now : Q) (answer : Ans).

Definition step (cfg : Config) (w : EngineState * Storage.Progress) (c : Call)
    : EngineState * Storage.Progress :=
  match c with
  | CallStart now stamp => start cfg now stamp w
  | CallStop => (stop w.1, w.2)
  | CallNext now stamp => nextQuestion cfg now stamp w
  | CallSubmit now a => ((submitAnswer cfg now a w.1).2, w.2)
  end.

Definition run (cfg : Config) (w : EngineState * Storage.Progress) (cs : list Call)
    : EngineState * Storage.Progress :=
  fold_left (step cfg) cs w.

Definition is_start (c : Call) : bool :=
  match c with CallStart _ _ => true | _ => false end.

End Engine.

(** A small engine: the question is its number, an answer is a boolean
    that is right when true. *)
Definition demo_config : @Config nat bool :=
  mkConfig "bb-defense" 3 (fun s => currentQuestion s)
    (fun a _ => mkValidation a true) (fun _ _ => "") (fun _ => None).

(** [engine.start()] on a fresh engine and the default document. *)
Definition demo_started : @EngineState nat bool * Storage.Progress :=
  start demo_config 0 "t0" (reset, Storage.DEFAULT_PROGRESS).

End ScenarioEngineModel.



(* ------------------------------------------------------------------ *)
(** ** Opening ranges and the range grid (js/modules/handStrength.js) *)

Module RangeGridModel.
Import HandModel RangeStatsModel.

(** A 13x13 grid of booleans, as nested arrays (rows first). *)
Definition Grid := list (list bool).

(** The cells in the order of [for (row...) for (col...)]. *)
Definition cells : list (nat * nat) := list_prod (seq 0 13) (seq 0 13).

(** [grid[row][col]] tested for truthiness: a missing row makes the
    second index throw; a missing column reads [undefined]. *)
Definition grid_cell (g : Grid) (rc : nat * nat) : outcome bool :=
  match nth_error g rc.1 with
  | None => TypeError
  | Some row => Value (default false (nth_error row rc.2))
  end.

(** [Array(13).fill(null).map(() => Array(13).fill(false))] filled cell by
    cell with [f row col]. *)
Definition build_grid (f : nat -> nat -> bool) : Grid :=
  map (fun r => map (fun c => f r c) (seq 0 13)) (seq 0 13).

(** OPENING_RANGES: each [new Set([...])] as its hands in insertion order. *)
Definition RANGE_UTG : list string :=
    ["AA"; "KK"; "QQ"; "JJ"; "TT"; "99"; "88"; "77"; "AKs"; "AQs"; "AJs";
     "ATs"; "KQs"; "KJs"; "QJs"; "JTs"; "AKo"; "AQo"; "AJo"; "KQo"].

Definition RANGE_MP : list string :=
    ["AA"; "KK"; "QQ"; "JJ"; "TT"; "99"; "88"; "77"; "66"; "AKs"; "AQs";
     "AJs"; "ATs"; "A9s"; "KQs"; "KJs"; "KTs"; "QJs"; "QTs"; "JTs"; "T9s";
     "AKo"; "AQo"; "AJo"; "ATo"; "KQo"; "KJo"].

Definition RANGE_CO : list string :=
    ["AA"; "KK"; "QQ"; "JJ"; "TT"; "99"; "88"; "77"; "66"; "55"; "44";
     "AKs"; "AQs"; "AJs"; "ATs"; "A9s"; "A8s"; "A7s"; "A6s"; "A5s"; "A4s";
     "A3s"; "A2s"; "KQs"; "KJs"; "KTs"; "K9s"; "K8s"; "K7s"; "QJs"; "QTs";
     "Q9s"; "JTs"; "T9s"; "98s"; "87s"; "76s"; "65s"; "AKo"; "AQo"; "AJo";
     "ATo"; "A9o"; "KQo"; "KJo"; "KTo"; "QJo"; "QTo"; "JTo"].

Definition RANGE_BTN : list string :=
    ["AA"; "KK"; "QQ"; "JJ"; "TT"; "99"; "88"; "77"; "66"; "55"; "44";
     "33"; "22"; "AKs"; "AQs"; "AJs"; "ATs"; "A9s"; "A8s"; "A7s"; "A6s";
     "A5s"; "A4s"; "A3s"; "A2s"; "KQs"; "KJs"; "KTs"; "K9s"; "K8s"; "K7s";
     "K6s"; "K5s"; "K4s"; "K3s"; "K2s"; "QJs"; "QTs"; "Q9s"; "Q8s"; "Q7s";
     "Q6s"; "JTs"; "J9s"; "J8s"; "J7s"; "T9s"; "T8s"; "T7s"; "98s"; "97s";
     "96s"; "87s"; "86s"; "76s"; "75s"; "65s"; "64s"; "54s"; "53s"; "43s";
     "AKo"; "AQo"; "AJo"; "ATo"; "A9o"; "A8o"; "A7o"; "A6o"; "A5o"; "A4o";
     "A3o"; "A2o"; "KQo"; "KJo"; "KTo"; "K9o"; "K8o"; "QJo"; "QTo"; "Q9o";
     "JTo"; "J9o"; "T9o"; "T8o"; "98o"; "87o"].

Definition RANGE_SB : list string :=
    ["AA"; "KK"; "QQ"; "JJ"; "TT"; "99"; "88"; "77"; "66"; "55"; "44";
     "33"; "22"; "AKs"; "AQs"; "AJs"; "ATs"; "A9s"; "A8s"; "A7s"; "A6s";
     "A5s"; "A4s"; "A3s"; "A2s"; "KQs"; "KJs"; "KTs"; "K9s"; "K8s"; "K7s";
     "K6s"; "K5s"; "K4s"; "QJs"; "QTs"; "Q9s"; "Q8s"; "Q7s"; "JTs"; "J9s";
     "J8s"; "T9s"; "T8s"; "98s"; "97s"; "87s"; "86s"; "76s"; "75s"; "65s";
     "64s"; "54s"; "AKo"; "AQo"; "AJo"; "ATo"; "A9o"; "A8o"; "A7o"; "A6o";
     "A5o"; "KQo"; "KJo"; "KTo"; "K9o"; "QJo"; "QTo"; "Q9o"; "JTo"; "J9o";
     "T9o"; "98o"].

Definition RANGE_BB : list string :=
    [].

(** The names an object literal inherits from [Object.prototype]: looking
    one of them up in [OPENING_RANGES] yields a function or an object, not
    [undefined] and not a Set. *)
Definition OBJECT_PROTOTYPE_KEYS : list string :=
  ["constructor"; "__defineGetter__"; "__defineSetter__"; "hasOwnProperty";
   "__lookupGetter__"; "__lookupSetter__"; "isPrototypeOf";
   "propertyIsEnumerable"; "toString"; "valueOf"; "__proto__"; "toLocaleString"].

(** [OPENING_RANGES[position]] for an own key ([Some]) or a missing one
    ([None] is [undefined]); the inherited names of [OBJECT_PROTOTYPE_KEYS]
    also give [None] here, and statements about arbitrary positions
    exclude them. *)
Definition OPENING_RANGES (position : string) : option (list string) :=
  if String.eqb position "UTG" then Some RANGE_UTG
  else if String.eqb position "MP" then Some RANGE_MP
  else if String.eqb position "CO" then Some RANGE_CO
  else if String.eqb position "BTN" then Some RANGE_BTN
  else if String.eqb position "SB" then Some RANGE_SB
  else if String.eqb position "BB" then Some RANGE_BB
  else None.

(** [new Set(hands.map(h => normalizeHand(h)))] tested with [has(hand)]:
    [null] entries never equal a hand. *)
Definition has_hand (ns : list (option string)) (hand : string) : bool :=
  bool_decide (Some hand ∈ ns).

(** isInRange *)
Definition isInRange (hand position : string) : outcome bool :=
  match normalizeHand hand with
  | TypeError => TypeError
  | Value n => Value (match OPENING_RANGES position with
                      | Some range => bool_decide (n ∈ range)
                      | None => false end)
  | NullV => Value false
  end.

(** getRangeHands *)
Definition getRangeHands (position : string) : list string :=
  match OPENING_RANGES position with Some range => range | None => [] end.

(** rangeToGrid *)
Definition rangeToGrid (position : string) : Grid :=
  match OPENING_RANGES position with
  | None => build_grid (fun _ _ => false)
  | Some range => build_grid (fun r c => bool_decide (getHandFromGrid r c ∈ range))
  end.

(** handsToGrid *)
Definition handsToGrid (hands : list string) : outcome Grid :=
  match normalize_all hands with
  | Value ns => Value (build_grid (fun r c => has_hand ns (getHandFromGrid r c)))
  | TypeError => TypeError
  | NullV => NullV
  end.

(** gridToHands *)
Definition gridToHands (g : Grid) : outcome (list string) :=
  fold_left (fun acc rc =>
    match acc with
    | Value l =>
        match grid_cell g rc with
        | Value true => Value (l ++ [getHandFromGrid rc.1 rc.2])%list
        | Value false => Value l
        | TypeError => TypeError
        | NullV => NullV
        end
    | e => e
    end) cells (Value []).

(** A JS value that is a number or a string. *)
Inductive num_or_string :=
| JNum (q : Q)
| JStr (s : string).

(** getRangeSimilarity: [0] (a number) for an unknown position, else the
    percentage of the 169 cells on which the two ranges agree, as
    [toFixed(1)]. *)
Definition getRangeSimilarity (userHands : list string) (targetPosition : string)
    : outcome num_or_string :=
  match OPENING_RANGES targetPosition with
  | None => Value (JNum 0)
  | Some targetRange =>
      match normalize_all userHands with
      | Value userSet =>
          let '(matches, total) :=
            fold_left (fun acc rc =>
              let hand := getHandFromGrid rc.1 rc.2 in
              let inUser := has_hand userSet hand in
              let inTarget := bool_decide (hand ∈ targetRange) in
              ((if Bool.eqb inUser inTarget then S acc.1 else acc.1), S acc.2))
              cells (0%nat, 0%nat) in
          Value (JStr (toFixed1 (inject_Z (Z.of_nat matches) / inject_Z (Z.of_nat total) * 100)))
      | TypeError => TypeError
      | NullV => NullV
      end
  end.

(** getRangeDifference: [(missing, extra)]. *)
Definition getRangeDifference (userHands : list string) (targetPosition : string)
    : outcome (list string * list string) :=
  match OPENING_RANGES targetPosition with
  | None => Value ([], [])
  | Some targetRange =>
      match normalize_all userHands with
      | Value userSet =>
          Value (fold_left (fun acc rc =>
            let hand := getHandFromGrid rc.1 rc.2 in
            let inUser := has_hand userSet hand in
            let inTarget := bool_decide (hand ∈ targetRange) in
            if inTarget && negb inUser then ((acc.1 ++ [hand])%list, acc.2)
            else if inUser && negb inTarget then (acc.1, (acc.2 ++ [hand])%list)
            else acc) cells ([], []))
      | TypeError => TypeError
      | NullV => NullV
      end
  end.

(** getPositionDifferenceHands *)
Definition getPositionDifferenceHands (position1 position2 : string) : list string :=
  match OPENING_RANGES position1, OPENING_RANGES position2 with
  | Some range1, Some range2 => filter (fun h => h ∉ range2) range1
  | _, _ => []
  end.

End RangeGridModel.

(* ------------------------------------------------------------------ *)
(** ** Board generators (generateBoardWithTexture and its helpers) *)

Module BoardGen.
Import BoardTexture.

#[global] Instance Texture_eq_dec : EqDecision Texture.
Proof. solve_decision. Defined.
#[global] Instance Card_eq_dec : EqDecision Card.
Proof. solve_decision. Defined.

(** The module's [RANKS] and [SUITS] constants. *)
Definition RANKS : list Rank := [RA; RK; RQ; RJ; RT; R9; R8; R7; R6; R5; R4; R3; R2].
Definition SUITS : list Suit := [Sh; Sd; Sc; Ss].

(** A generator reads the results of its [Math.random()] calls, in call
    order, from a list. [None]: the list ran out, or a card would get an
    [undefined] rank or suit (an array read out of range), which a [Card]
    cannot hold. *)
Definition Gen (A : Type) : Type := list Q -> option (A * list Q).

Definition gret {A} (x : A) : Gen A := fun d => Some (x, d).
Definition gbind {A B} (m : Gen A) (f : A -> Gen B) : Gen B :=
  fun d => match m d with Some (x, d') => f x d' | None => None end.
Definition glift {A} (o : option A) : Gen A :=
  fun d => match o with Some x => Some (x, d) | None => None end.

Local Notation "'let*' x ':=' m 'in' k" := (gbind m (fun x => k))
  (at level 200, x pattern, m at level 100, k at level 200).

(** [Math.random()] *)
Definition random : Gen Q :=
  fun d => match d with r :: d' => Some (r, d') | [] => None end.

(** [Math.floor(Math.random() * n)] *)
Definition random_index (n : nat) : Gen Z :=
  let* r := random in gret (Qfloor (r * inject_Z (Z.of_nat n))).

(** [arr[i]] for an integer [i]: [None] is [undefined]. *)
Definition js_index {A} (l : list A) (i : Z) : option A :=
  if (i <? 0)%Z then None else nth_error l (Z.to_nat i).

(** Remove the element at position [n]. *)
Fixpoint remove_at {A} (n : nat) (l : list A) : list A :=
  match l, n with
  | [], _ => []
  | _ :: t, O => t
  | x :: t, S n' => x :: remove_at n' t
  end.

(** [arr.splice(i, 1)[0]] and the array it leaves: a negative start counts
    from the end, a start past the end removes nothing. *)
Definition js_splice1 {A} (l : list A) (i : Z) : option A * list A :=
  let len := Z.of_nat (List.length l) in
  let start := if (i <? 0)%Z then Z.max 0 (len + i) else Z.min i len in
  match nth_error l (Z.to_nat start) with
  | Some x => (Some x, remove_at (Z.to_nat start) l)
  | None => (None, l)
  end.

(** generateDryBoard: one rank from each of A/K/Q, 9/8/7 and 4/3/2, and a
    suit spliced out of the remaining suits, rank drawn before suit. *)
Definition dry_step (group : list Rank) (availableSuits : list Suit)
    : Gen (Card * list Suit) :=
  let* i := random_index (List.length group) in
  let* rank := glift (js_index group i) in
  let* j := random_index (List.length availableSuits) in
  let '(s, rest) := js_splice1 availableSuits j in
  let* suit := glift s in
  gret (mkCard rank suit, rest).

Definition generateDryBoard (exclude : list Card) : Gen (list Card) :=
  let* p1 := dry_step [RA; RK; RQ] SUITS in
  let '(c1, a1) := p1 in
  let* p2 := dry_step [R9; R8; R7] a1 in
  let '(c2, a2) := p2 in
  let* p3 := dry_step [R4; R3; R2] a2 in
  let '(c3, _) := p3 in
  gret [c1; c2; c3].

(** generateWetBoard *)
Definition generateWetBoard (exclude : list Card) : Gen (list Card) :=
  let* i := random_index (List.length SUITS) in
  let* flushSuit := glift (js_index SUITS i) in
  let* j := random_index 3 in
  let* otherSuit := glift (js_index (List.filter (fun s => negb (bool_decide (s = flushSuit))) SUITS) j) in
  let* k := random_index 8 in
  let startIdx := (k + 2)%Z in
  let* r0 := glift (js_index RANKS startIdx) in
  let* r1 := glift (js_index RANKS (startIdx + 1)) in
  let* r2 := glift (js_index RANKS (startIdx + 2)) in
  gret [mkCard r0 flushSuit; mkCard r1 flushSuit; mkCard r2 otherSuit].

(** The [do { ... } while (thirdRank === pairRank)] loop: one draw per
    round until the rank read differs from [pairRank]. An [undefined] read
    also ends the loop. *)
Fixpoint third_rank_loop (pairRank : Rank) (d : list Q) : option (option Rank * list Q) :=
  match d with
  | [] => None
  | r :: d' =>
      match js_index RANKS (Qfloor (r * inject_Z (Z.of_nat (List.length RANKS)))) with
      | Some t => if decide (t = pairRank) then third_rank_loop pairRank d' else Some (Some t, d')
      | None => Some (None, d')
      end
  end.

(** generatePairedBoard *)
Definition generatePairedBoard (exclude : list Card) : Gen (list Card) :=
  let* i := random_index (List.length RANKS) in
  let* pairRank := glift (js_index RANKS i) in
  let* j1 := random_index (List.length SUITS) in
  let '(o1, a1) := js_splice1 SUITS j1 in
  let* suit1 := glift o1 in
  let* j2 := random_index (List.length a1) in
  let '(o2, _) := js_splice1 a1 j2 in
  let* suit2 := glift o2 in
  let* ot := third_rank_loop pairRank in
  let* thirdRank := glift ot in
  let* k := random_index (List.length SUITS) in
  let* thirdSuit := glift (js_index SUITS k) in
  gret [mkCard pairRank suit1; mkCard pairRank suit2; mkCard thirdRank thirdSuit].

(** generateMonotoneBoard: one suit, three ranks spliced out of RANKS. *)
Definition mono_step (suit : Suit) (availableRanks : list Rank) : Gen (Card * list Rank) :=
  let* i := random_index (List.length availableRanks) in
  let '(o, rest) := js_splice1 availableRanks i in
  let* rank := glift o in
  gret (mkCard rank suit, rest).

Definition generateMonotoneBoard (exclude : list Card) : Gen (list Card) :=
  let* i := random_index (List.length SUITS) in
  let* suit := glift (js_index SUITS i) in
  let* p1 := mono_step suit RANKS in
  let '(c1, a1) := p1 in
  let* p2 := mono_step suit a1 in
  let '(c2, a2) := p2 in
  let* p3 := mono_step suit a2 in
  let '(c3, _) := p3 in
  gret [c1; c2; c3].

(** generateBoardWithTexture: the [switch], [dry] by default. *)
Definition generateBoardWithTexture (texture : string) (exclude : list Card) : Gen (list Card) :=
  if String.eqb texture "dry" then generateDryBoard exclude
  else if String.eqb texture "wet" then generateWetBoard exclude
  else if String.eqb texture "paired" then generatePairedBoard exclude
  else if String.eqb texture "monotone" then generateMonotoneBoard exclude
  else generateDryBoard exclude.

(** The texture each [texture] argument asks for. *)
Definition requested_texture (texture : string) : Texture :=
  if String.eqb texture "wet" then wet
  else if String.eqb texture "paired" then paired
  else if String.eqb texture "monotone" then monotone
  else dry.

End BoardGen.

(* ------------------------------------------------------------------ *)
(** ** The random helpers of ScenarioEngine.js (shuffleArray, randomPick,
    randomPickN), over the same list of [Math.random()] results as the
    board generators. *)

Module ScenarioHelpers.
Import BoardGen.

Local Notation "'let*' x ':=' m 'in' k" := (gbind m (fun x => k))
  (at level 200, x pattern, m at level 100, k at level 200).

(** [[shuffled[i], shuffled[j]] = [shuffled[j], shuffled[i]]]: the right
    side is read first, then [shuffled[i]] and [shuffled[j]] are assigned
    in that order. [None] for an index [j] outside [0, i], which only a
    draw outside [0, 1) gives. *)
Definition swap_at {A} (l : list A) (i : nat) (j : Z) : option (list A) :=
  if ((0 <=? j) && (j <=? Z.of_nat i))%Z then
    match l !! i, l !! Z.to_nat j with
    | Some x, Some y => Some (<[Z.to_nat j := x]> (<[i := y]> l))
    | _, _ => None
    end
  else None.

(** The loop [for (let i = n; i > 0; i--)], from the index [i] down. *)
Fixpoint shuffle_from {A} (i : nat) (l : list A) : Gen (list A) :=
  match i with
  | O => gret l
  | S k =>
      let* j := random_index (S i) in
      let* l' := glift (swap_at l i j) in
      shuffle_from k l'
  end.

(** shuffleArray: a copy, shuffled from index [length - 1] down to 1. *)
Definition shuffleArray {A} (array : list A) : Gen (list A) :=
  match List.length array with
  | O => gret array
  | S n => shuffle_from n array
  end.

(** randomPick: [array[Math.floor(Math.random() * array.length)]];
    [None] is [undefined]. *)
Definition randomPick {A} (array : list A) : Gen (option A) :=
  let* i := random_index (List.length array) in
  gret (js_index array i).

(** [arr.slice(0, e)] for an integer [e]: a negative end counts from the
    end of the array. *)
Definition js_slice0 {A} (l : list A) (e : Z) : list A :=
  let len := Z.of_nat (List.length l) in
  let stop := if (e <? 0)%Z then Z.max 0 (len + e) else Z.min e len in
  take (Z.to_nat stop) l.

(** randomPickN, for an integer [n]. *)
Definition randomPickN {A} (array : list A) (n : Z) : Gen (list A) :=
  let* shuffled := shuffleArray array in
  gret (js_slice0 shuffled (Z.min n (Z.of_nat (List.length shuffled)))).

End ScenarioHelpers.

(* ------------------------------------------------------------------ *)
(** ** The progress queries of storage.js (drills) and of the scenario
    part of the storage module: thresholds, unlock checks, the current
    drill and the stats summaries. The [loadProgress()] at their start is
    the progress document passed in. *)

Module StorageQueries.
Import Storage.

(** getDrillThreshold: [DRILL_THRESHOLDS[drillId] || 70] *)
Definition getDrillThreshold (drillId : string) : Q :=
  match DRILL_THRESHOLDS drillId with Some t => t | None => 70%Q end.

(** getScenarioThreshold: [SCENARIO_THRESHOLDS[scenarioId] || 75] *)
Definition getScenarioThreshold (scenarioId : string) : Q :=
  match SCENARIO_THRESHOLDS scenarioId with Some t => t | None => 75%Q end.

(** [modules[id]?.unlocked || false] *)
Definition is_unlocked (m : gmap string ModRec) (id : string) : bool :=
  match m !! id with Some r => unlocked r | None => false end.

(** [modules[id]?.attempts || 0] *)
Definition attempts_at (m : gmap string ModRec) (id : string) : nat :=
  match m !! id with Some r => attempts r | None => 0%nat end.

(** isDrillUnlocked and isDrillCompleted *)
Definition isDrillUnlocked (p : Progress) (drillId : string) : bool :=
  is_unlocked (st_modules (drills p)) drillId.
Definition isDrillCompleted (p : Progress) (drillId : string) : bool :=
  is_completed (st_modules (drills p)) drillId.

(** getCurrentDrill: the first unlocked drill not completed, else the
    first unlocked drill, else [DRILL_ORDER[0]]. *)
Definition getCurrentDrill (p : Progress) : string :=
  let m := st_modules (drills p) in
  match List.find (fun id => match m !! id with
                             | Some d => unlocked d && negb (completed d)
                             | None => false end) DRILL_ORDER with
  | Some id => id
  | None =>
      match List.find (fun id => match m !! id with
                                 | Some d => unlocked d
                                 | None => false end) DRILL_ORDER with
      | Some id => id
      | None => hd "" DRILL_ORDER
      end
  end.

(** isScenarioUnlocked: the stage must be unlocked, then the scenario. *)
Definition isScenarioUnlocked (p : Progress) (scenarioId : string) : bool :=
  if negb (st_unlocked (scenarios p)) then false
  else is_unlocked (st_modules (scenarios p)) scenarioId.

(** [Math.max(...xs)]; [None] is the [-Infinity] of an empty list. *)
Definition js_max (l : list Q) : option Q :=
  match l with
  | [] => None
  | x :: xs => Some (fold_left (fun a b => if Qle_bool a b then b else a) xs x)
  end.

(** [modules[id]?.bestStreak || 0] *)
Definition streak_at (m : gmap string ModRec) (id : string) : Q :=
  match m !! id with
  | Some r => match bestStreak r with Some s => s | None => 0%Q end
  | None => 0%Q
  end.

Record DrillStats := mkDrillStats {
  ds_completed : nat;
  ds_total : nat;
  ds_totalAttempts : nat;
  ds_bestStreak : option Q;
  ds_achievements : nat
}.

(** getDrillStats *)
Definition getDrillStats (p : Progress) : DrillStats :=
  let d := drills p in
  let m := st_modules d in
  mkDrillStats
    (List.length (List.filter (is_completed m) DRILL_ORDER))
    (List.length DRILL_ORDER)
    (st_totalAttempts d)
    (js_max (List.map (streak_at m) DRILL_ORDER))
    (List.length (st_achievements d)).

Record ScenarioStats := mkScenarioStats {
  ss_completed : nat;
  ss_total : nat;
  ss_totalAttempts : nat;
  ss_achievements : nat
}.

(** getScenarioStats: [totalAttempts] is summed over the records. *)
Definition getScenarioStats (p : Progress) : ScenarioStats :=
  let s := scenarios p in
  let m := st_modules s in
  mkScenarioStats
    (List.length (List.filter (is_completed m) SCENARIO_ORDER))
    (List.length SCENARIO_ORDER)
    (fold_left (fun sum id => sum + attempts_at m id)%nat SCENARIO_ORDER 0%nat)
    (List.length (st_achievements s)).

End StorageQueries.

(* ================================================================== *)
(** * Theorems *)

Module HandFacts.
Import HandModel.

Lemma indexOf_nonneg_In (l : list ascii) (c : ascii) :
  (0 <= indexOf l c)%Z -> In c l.
Proof.
  induction l as [|x l IH]; simpl; [lia|].
  destruct (Ascii.eqb_spec x c) as [->|_]; [auto|].
  destruct (indexOf l c <? 0)%Z eqn:E; [lia|].
  intros _. right. apply IH. apply Z.ltb_ge in E. lia.
Qed.

Definition grid_cells : list (nat * nat) := list_prod (seq 0 13) (seq 0 13).

Definition cell_ok (rc : nat * nat) : bool :=
  let '(r, c) := rc in
  bool_decide (getGridPosition (getHandFromGrid r c) = Some (Z.of_nat r, Z.of_nat c)) &&
  match parseHand (getHandFromGrid r c) with
  | Some h => Bool.eqb (pair h) (Nat.eqb r c) && Bool.eqb (suited h) (Nat.ltb r c)
              && Bool.eqb (offsuit h) (Nat.ltb c r)
  | None => false
  end &&
  Nat.eqb (count_occ (fun x y => decide (x = y)) (map getGridPosition ALL_HANDS)
             (Some (Z.of_nat r, Z.of_nat c))) 1.

Lemma all_cells_ok : forallb cell_ok grid_cells = true.
Proof. vm_compute. reflexivity. Qed.

Lemma cell_ok_at (r c : nat) : (r < 13)%nat -> (c < 13)%nat -> cell_ok (r, c) = true.
Proof.
  intros Hr Hc. pose proof all_cells_ok as H. rewrite forallb_forall in H.
  apply H. unfold grid_cells. apply in_prod; apply in_seq; lia.
Qed.

(** C3: for every cell (row, col) of the 13x13 grid, getGridPosition
    inverts getHandFromGrid, the hand built there is a pair on the diagonal,
    suited above it (row < col) and offsuit below it; ALL_HANDS has 169
    elements and its grid positions hit every cell exactly once. *)
Theorem grid_bijection :
  (forall row col : nat, (row < 13)%nat -> (col < 13)%nat ->
     getGridPosition (getHandFromGrid row col) = Some (Z.of_nat row, Z.of_nat col) /\
     exists h, parseHand (getHandFromGrid row col) = Some h /\
       (pair h = true <-> row = col) /\
       (suited h = true <-> (row < col)%nat) /\
       (offsuit h = true <-> (col < row)%nat)) /\
  List.length ALL_HANDS = 169%nat /\
  (forall row col : nat, (row < 13)%nat -> (col < 13)%nat ->
     count_occ (fun x y => decide (x = y)) (map getGridPosition ALL_HANDS)
       (Some (Z.of_nat row, Z.of_nat col)) = 1%nat).
Proof.
  split; [|split].
  - intros row col Hr Hc. pose proof (cell_ok_at row col Hr Hc) as H.
    unfold cell_ok in H. apply andb_prop in H as [H Hcount].
    apply andb_prop in H as [Hpos Hshape]. split.
    + exact (bool_decide_eq_true_1 _ Hpos).
    + destruct (parseHand (getHandFromGrid row col)) as [h|]; [|discriminate].
      exists h. split; [reflexivity|].
      apply andb_prop in Hshape as [Hshape Ho]. apply andb_prop in Hshape as [Hp Hs].
      apply Bool.eqb_prop in Hp, Hs, Ho. rewrite Hp, Hs, Ho.
      rewrite Nat.eqb_eq, !Nat.ltb_lt. tauto.
  - vm_compute. reflexivity.
  - intros row col Hr Hc. pose proof (cell_ok_at row col Hr Hc) as H.
    unfold cell_ok in H. apply andb_prop in H as [_ Hcount].
    now apply Nat.eqb_eq in Hcount.
Qed.

Lemma grid_bijection_witness :
  getGridPosition (getHandFromGrid 3 1) = Some (3%Z, 1%Z) /\
  count_occ (fun x y => decide (x = y)) (map getGridPosition ALL_HANDS) (Some (3%Z, 1%Z)) = 1%nat.
Proof.
  destruct grid_bijection as [H1 [_ H3]]. split.
  - apply (H1 3%nat 1%nat); lia.
  - apply (H3 3%nat 1%nat); lia.
Defined.

Ltac enum_rank H :=
  cbn [In RANKS] in H; repeat destruct H as [<-|H]; [..|contradiction].

Ltac close_norm_case :=
  eexists _, _, _; split; [reflexivity|];
  repeat split;
  first [ reflexivity | simpl; lia
        | left; split; reflexivity | right; split; reflexivity
        | intros; first [ reflexivity | discriminate | congruence
                        | exfalso; auto ] ].

(** C4: on every valid notation normalizeHand yields a string of two rank
    letters, higher rank first (smaller RANKS index), which it maps to
    itself (idempotence); a pair gets no suffix, a non-pair without a
    suffix gets "o"; and "AKs" and "KAs" both normalize to "AKs". *)
Theorem normalizeHand_canonical (c0 c1 : ascii) (rest : string)
  (Hv : valid_notation (String c0 (String c1 rest)) = true) :
  (exists a b sfx,
     normalizeHand (String c0 (String c1 rest)) = Value (String a (String b sfx)) /\
     normalizeHand (String a (String b sfx)) = Value (String a (String b sfx)) /\
     (0 <= indexOf RANKS a <= indexOf RANKS b)%Z /\
     ((a = toUpper c0 /\ b = toUpper c1) \/ (a = toUpper c1 /\ b = toUpper c0)) /\
     (toUpper c0 = toUpper c1 -> sfx = "") /\
     (toUpper c0 <> toUpper c1 -> rest = "" -> sfx = "o")) /\
  normalizeHand "AKs" = Value "AKs" /\ normalizeHand "KAs" = Value "AKs".
Proof.
  split; [|split; reflexivity].
  unfold valid_notation, rank_ok in Hv.
  apply andb_prop in Hv as [Hv Hrest]. apply andb_prop in Hv as [H0 H1].
  apply Z.leb_le, indexOf_nonneg_In in H0.
  apply Z.leb_le, indexOf_nonneg_In in H1.
  assert (Hsfx : rest = "" \/ exists l, suffix_of rest = Some l /\
            (l = "s"%char \/ l = "o"%char) /\ rest <> "").
  { destruct rest as [|c2 [|c3 r]]; [auto| |discriminate].
    right. exists (toLower c2). split; [reflexivity|]. split; [|discriminate].
    apply orb_prop in Hrest as [E|E]; apply Ascii.eqb_eq in E; auto. }
  cbn [normalizeHand].
  revert H0 H1. generalize (toUpper c0) (toUpper c1). intros u0 u1 H0 H1.
  destruct Hsfx as [->|[l [Hl [Hl' Hne]]]].
  - cbn [suffix_of]. enum_rank H0; enum_rank H1; close_norm_case.
  - rewrite Hl. destruct Hl' as [->| ->];
      enum_rank H0; enum_rank H1; close_norm_case.
Qed.

Lemma normalizeHand_canonical_witness :
  valid_notation "kAs" = true /\
  exists a b sfx, normalizeHand "kAs" = Value (String a (String b sfx)) /\
    normalizeHand (String a (String b sfx)) = Value (String a (String b sfx)).
Proof.
  split; [reflexivity|].
  destruct (normalizeHand_canonical "k"%char "A"%char "s" eq_refl)
    as [[a [b [sfx [E1 [E2 _]]]]] _].
  exists a, b, sfx. split; assumption.
Defined.

(** C6, counterexample: "XYs" has no valid rank letter, yet parseHand
    returns a Hand for it. *)
Lemma parseHand_accepts_invalid_ranks :
  rank_ok "X"%char = false /\ rank_ok "Y"%char = false /\
  parseHand "XYs" = Some (mkHand "X" "Y" true false false "XYs").
Proof. repeat split; reflexivity. Qed.

(** C6, amended: parseHand returns null exactly for strings shorter than
    two characters; every longer string yields a Hand whose ranks are its
    first two characters upper-cased, with no check against RANKS. *)
Theorem parseHand_null_iff_short (s : string) :
  (parseHand s = None <-> (String.length s < 2)%nat) /\
  (forall c0 c1 rest, exists h,
     parseHand (String c0 (String c1 rest)) = Some h /\
     rank1 h = toUpper c0 /\ rank2 h = toUpper c1).
Proof.
  split.
  - destruct s as [|c0 [|c1 rest]]; simpl; split; intros H;
      try reflexivity; try lia; discriminate.
  - intros c0 c1 rest. eexists. split; [reflexivity|]. split; reflexivity.
Qed.

Definition equity_bounds_ok : bool :=
  forallb (fun kv => Qle_bool 30 kv.2 && Qle_bool kv.2 85) PREFLOP_EQUITY.

Lemma equity_bounds_ok_true : equity_bounds_ok = true.
Proof. vm_compute. reflexivity. Qed.

Lemma prop_get_In (k : string) (v : Q) (obj : list (string * Q)) :
  prop_get k obj = Some v -> In (k, v) obj.
Proof.
  induction obj as [|[k' v'] obj IH]; simpl; [discriminate|].
  destruct (String.eqb_spec k' k) as [->|_].
  - intros [= ->]. auto.
  - intros H. right. auto.
Qed.

Lemma equity_entry_bounds (k : string) (v : Q) :
  prop_get k PREFLOP_EQUITY = Some v -> (30 <= v <= 85)%Q.
Proof.
  intros H. apply prop_get_In in H.
  pose proof equity_bounds_ok_true as B. unfold equity_bounds_ok in B.
  rewrite forallb_forall in B. apply B in H. simpl in H.
  apply andb_prop in H as [H1 H2]. apply Qle_bool_iff in H1, H2. auto.
Qed.

(** C5, counterexample: getEquity "AA" is 85, outside [0,1]: the table and
    the fallback are percentages. *)
Lemma getEquity_AA_is_percent :
  getEquity "AA" = Value (850 # 10)%Q /\ ~ (850 # 10 <= 1)%Q.
Proof.
  split; [reflexivity|]. intros H. apply Qle_bool_iff in H. discriminate.
Qed.

(** C5, amended: every value getEquity returns is a percentage in
    [0,100], in fact in [30,85]; and an input that normalizes to null or to
    a string absent from the table gets the fixed fallback 30. *)
Theorem getEquity_percent_fallback :
  (forall (s : string) (v : Q), getEquity s = Value v ->
     (0 <= v <= 100)%Q /\ (30 <= v <= 85)%Q) /\
  (forall s : string,
     (normalizeHand s = NullV \/
      exists n, normalizeHand s = Value n /\ prop_get n PREFLOP_EQUITY = None) ->
     getEquity s = Value 30%Q).
Proof.
  assert (Hor : forall r : option Q,
    (forall w, r = Some w -> (30 <= w <= 85)%Q) ->
    (30 <= match r with Some w => if Qeq_bool w 0 then 30 else w | None => 30 end <= 85)%Q).
  { intros [w|] Hw.
    - destruct (Qeq_bool w 0); [split; discriminate|]. apply Hw. reflexivity.
    - split; discriminate. }
  split.
  - intros s v H. unfold getEquity in H.
    assert (B : (30 <= v <= 85)%Q).
    { destruct (normalizeHand s) as [n| |];
        [injection H as <- | injection H as <- | discriminate];
        first [ apply Hor; intros w Hw; exact (equity_entry_bounds _ _ Hw)
              | split; discriminate ]. }
    split; [|exact B]. destruct B as [B1 B2]. split.
    + eapply Qle_trans; [|exact B1]. discriminate.
    + eapply Qle_trans; [exact B2|]. discriminate.
  - intros s [H|[n [H Hn]]]; unfold getEquity; rewrite H; [reflexivity|].
    rewrite Hn. reflexivity.
Qed.

Lemma getEquity_percent_fallback_witness :
  getEquity "XYs" = Value 30%Q /\ (0 <= 850 # 10 <= 100)%Q.
Proof.
  destruct getEquity_percent_fallback as [H1 H2]. split.
  - apply H2. right. exists "XYs". split; reflexivity.
  - apply (H1 "AA" (850 # 10)). reflexivity.
Defined.

End HandFacts.

Module RangeStatsFacts.
Import HandModel RangeStatsModel.

Lemma count_shapes_sum (l : list (option string)) (p s o : nat) :
  count_shapes l = Value (p, s, o) -> (p + s + o)%nat = List.length l.
Proof.
  revert p s o. induction l as [|[h|] l IH]; simpl; intros p s o H.
  - injection H as <- <- <-. reflexivity.
  - destruct (count_shapes l) as [[[p' s'] o']| |] eqn:E; try discriminate.
    specialize (IH p' s' o' eq_refl).
    destruct (Nat.eqb _ 2); [|destruct (ends_with_s h)];
      injection H as <- <- <-; lia.
  - discriminate.
Qed.

(** C8, counterexample: for the range exactly {"AA"} the percentage field
    is the string "0.5" (toFixed(1)), not 6/1326*100 = 0.4525... *)
Lemma getRangeStats_AA_rounded :
  getRangeStats ["AA"] = Value (mkRangeStats 1 1 0 0 6 "0.5") /\
  ~ (5 # 10 == (6 # 1326) * 100)%Q.
Proof.
  split; [reflexivity|]. intros H. apply Qeq_bool_iff in H.
  vm_compute in H. discriminate.
Qed.

Lemma count_shapes_spec (l : list (option string)) (p s o : nat) :
  count_shapes l = Value (p, s, o) ->
  exists u, l = List.map Some u /\
    p = List.length (List.filter (fun h => Nat.eqb (String.length h) 2) u) /\
    s = List.length (List.filter (fun h => negb (Nat.eqb (String.length h) 2) && ends_with_s h) u) /\
    o = List.length (List.filter (fun h => negb (Nat.eqb (String.length h) 2) && negb (ends_with_s h)) u).
Proof.
  revert p s o. induction l as [|[h|] l IH]; simpl; intros p s o H.
  - injection H as <- <- <-. exists []. repeat split.
  - destruct (count_shapes l) as [[[p' s'] o']| |] eqn:E; try discriminate.
    destruct (IH p' s' o' eq_refl) as [u [-> [Hp [Hs Ho]]]].
    exists (h :: u). split; [reflexivity|]. cbn [List.filter].
    destruct (Nat.eqb _ 2); [|destruct (ends_with_s h)];
      injection H as <- <- <-; cbn [negb andb List.length]; lia.
  - discriminate.
Qed.

(** The loop of [set_of_list] keeps its accumulator duplicate-free and
    collects exactly the elements seen. *)
Lemma set_of_list_fold {A} `{EqDecision A} (l acc : list A) :
  List.NoDup acc ->
  List.NoDup (fold_left (fun acc x => if decide (x ∈ acc) then acc else (acc ++ [x])%list) l acc) /\
  (forall x, In x (fold_left (fun acc x => if decide (x ∈ acc) then acc else (acc ++ [x])%list) l acc)
             <-> In x acc \/ In x l).
Proof.
  revert acc. induction l as [|y l IH]; intros acc N; cbn [fold_left].
  - split; [exact N|]. intros x. simpl. tauto.
  - destruct (decide (y ∈ acc)) as [Hy|Hy].
    + destruct (IH acc N) as [N' Hin]. split; [exact N'|].
      intros x. rewrite Hin. apply list_elem_of_In in Hy. simpl.
      split; [tauto|]. intros [H|[<-|H]]; tauto.
    + assert (N2 : List.NoDup (acc ++ [y])).
      { apply (Permutation_NoDup (l := y :: acc)); [apply Permutation_cons_append|].
        constructor; [|exact N]. intros Hy'. apply Hy, list_elem_of_In, Hy'. }
      destruct (IH _ N2) as [N' Hin]. split; [exact N'|].
      intros x. rewrite Hin, in_app_iff. simpl. tauto.
Qed.

Lemma normalize_all_in (range : list string) (hands : list (option string)) :
  normalize_all range = Value hands ->
  forall x, In (Some x) hands <-> exists h, In h range /\ normalizeHand h = Value x.
Proof.
  revert hands. induction range as [|h t IH]; intros hands H x; simpl in H.
  - injection H as <-. simpl. split; [tauto|]. intros [h [[] _]].
  - destruct (normalizeHand h) as [n| |] eqn:En, (normalize_all t) as [l| |] eqn:Et;
      try discriminate; injection H as <-; specialize (IH l eq_refl x).
    + simpl. rewrite IH. split.
      * intros [E|[h' [Hh' E']]]; [injection E as ->; exists h; auto|exists h'; auto].
      * intros [h' [[<-|Hh'] E']]; [left; congruence|right; exists h'; auto].
    + simpl. rewrite IH. split.
      * intros [E|[h' [Hh' E']]]; [discriminate|exists h'; auto].
      * intros [h' [[<-|Hh'] E']]; [congruence|right; exists h'; auto].
Qed.

Lemma in_map_Some {A} (u : list A) (x : A) : In (Some x) (List.map Some u) <-> In x u.
Proof.
  rewrite in_map_iff. split; [intros [y [[= ->] Hy]]; exact Hy|intros Hx; exists x; auto].
Qed.

(** C8, amended: getRangeStats counts each distinct normalized hand once
    ([hands] is the number of distinct values normalizeHand gives the
    entries), splitting them into pairs (two characters), suited hands
    (ending in 's') and offsuit hands, weighted 6, 4 and 12 combos; its
    percentage is (combos / 1326 * 100).toFixed(1), a string with one
    decimal: "0.5" for {"AA"}, "0.3" for {"AKs"}, "0.9" for {"AKo"}. *)
Theorem getRangeStats_weighting :
  (forall (range : list string) (st : RangeStats),
     getRangeStats range = Value st ->
     exists uniq : list string,
       List.NoDup uniq /\
       (forall x, In x uniq <-> exists h, In h range /\ normalizeHand h = Value x) /\
       rs_hands st = List.length uniq /\
       rs_pairs st = List.length (List.filter (fun h => Nat.eqb (String.length h) 2) uniq) /\
       rs_suited st = List.length (List.filter
                        (fun h => negb (Nat.eqb (String.length h) 2) && ends_with_s h) uniq) /\
       rs_offsuit st = List.length (List.filter
                        (fun h => negb (Nat.eqb (String.length h) 2) && negb (ends_with_s h)) uniq) /\
       rs_combos st = (rs_pairs st * 6 + rs_suited st * 4 + rs_offsuit st * 12)%nat /\
       rs_percentage st = toFixed1 (inject_Z (Z.of_nat (rs_combos st)) / 1326 * 100)) /\
  getRangeStats ["AA"] = Value (mkRangeStats 1 1 0 0 6 "0.5") /\
  getRangeStats ["AKs"] = Value (mkRangeStats 1 0 1 0 4 "0.3") /\
  getRangeStats ["AKo"] = Value (mkRangeStats 1 0 0 1 12 "0.9") /\
  getRangeStats ["AKs"; "KAs"] = getRangeStats ["AKs"].
Proof.
  split; [|repeat split; reflexivity].
  intros range st H. unfold getRangeStats in H.
  destruct (normalize_all range) as [hands| |] eqn:En; try discriminate.
  destruct (count_shapes (set_of_list hands)) as [[[p s] o]| |] eqn:E;
    try discriminate.
  injection H as <-. cbn [rs_hands rs_pairs rs_suited rs_offsuit rs_combos rs_percentage].
  destruct (count_shapes_spec _ _ _ _ E) as [u [Hu [Hp [Hs Ho]]]].
  destruct (set_of_list_fold hands [] (List.NoDup_nil _)) as [N Hin].
  unfold set_of_list in Hu. rewrite Hu in N, Hin.
  exists u. split; [exact (NoDup_map_inv _ _ N)|]. split.
  - intros x. rewrite <- (normalize_all_in _ _ En x), <- in_map_Some, Hin. simpl. tauto.
  - unfold set_of_list. rewrite Hu, length_map.
    split; [reflexivity|]. split; [exact Hp|]. split; [exact Hs|]. split; [exact Ho|].
    split; reflexivity.
Qed.

Lemma getRangeStats_weighting_witness :
  exists st, getRangeStats ["AA"; "KQs"; "aa"] = Value st /\ rs_hands st = 2%nat /\
    exists uniq, List.NoDup uniq /\ rs_hands st = List.length uniq /\
      rs_pairs st = List.length (List.filter (fun h => Nat.eqb (String.length h) 2) uniq).
Proof.
  eexists. split; [reflexivity|]. split; [reflexivity|].
  destruct getRangeStats_weighting as [H _].
  destruct (H ["AA"; "KQs"; "aa"] _ eq_refl) as [u [N [_ [Hh [Hp _]]]]].
  exists u. split; [exact N|]. split; [exact Hh|exact Hp].
Defined.

End RangeStatsFacts.

Module BoardFacts.
Import BoardTexture.
Lemma gaps_sorted3 (a b c : Z) :
  forallb (fun g => (g <=? 2)%Z) (gaps (sort_numbers [a; b; c])) = connected3 a b c.
Proof.
  unfold connected3. cbn [sort_numbers insert_sorted].
  do 8 (try match goal with
    | |- context [(?x <=? ?y)%Z] =>
        destruct (Z.leb_spec x y); cbn [insert_sorted gaps forallb andb]
    end).
  all: apply Bool.eq_iff_eq_true; rewrite bool_decide_eq_true.
  all: split; intros; try reflexivity; try discriminate; first [lia | exfalso; lia].
Qed.

(** C7: on every three-card board analyzeBoardTexture is the classifier the
    claim describes (monotone if one suit; else paired if two ranks match;
    else wet if exactly two cards share a suit or both gaps between the
    sorted rank values are at most 2; else dry), and it classifies
    [Kh,7d,2c] dry, [Jh,Th,9c] wet, [Kc,Kd,4s] paired, [9h,6h,3h]
    monotone. *)
Theorem analyzeBoardTexture_three (c1 c2 c3 : Card) :
  analyzeBoardTexture [c1; c2; c3] = texture_as_claimed c1 c2 c3 /\
  analyzeBoardTexture [mkCard RK Sh; mkCard R7 Sd; mkCard R2 Sc] = dry /\
  analyzeBoardTexture [mkCard RJ Sh; mkCard RT Sh; mkCard R9 Sc] = wet /\
  analyzeBoardTexture [mkCard RK Sc; mkCard RK Sd; mkCard R4 Ss] = paired /\
  analyzeBoardTexture [mkCard R9 Sh; mkCard R6 Sh; mkCard R3 Sh] = monotone.
Proof.
  split; [|repeat split; reflexivity].
  destruct c1 as [r1 s1], c2 as [r2 s2], c3 as [r3 s3].
  unfold analyzeBoardTexture, texture_as_claimed.
  cbn [List.length map nth suit rank Nat.ltb Nat.leb].
  rewrite gaps_sorted3, !bool_decide_or, orb_assoc.
  destruct s1, s2, s3; reflexivity.
Qed.
End BoardFacts.

Module StorageFacts.
Import Storage.

Lemma rec_mono_refl (r : ModRec) : rec_mono r r.
Proof.
  unfold rec_mono. split; [apply Qle_refl|]. split; [|split; [|auto]].
  - destruct (bestStreak r); simpl; [apply Qle_refl|exact I].
  - destruct (bestTime r) as [x|]; simpl; [|exact I].
    exists x. split; [reflexivity|apply Qle_refl].
Qed.

Lemma rec_mono_trans (r1 r2 r3 : ModRec) :
  rec_mono r1 r2 -> rec_mono r2 r3 -> rec_mono r1 r3.
Proof.
  intros (S1 & K1 & T1 & C1) (S2 & K2 & T2 & C2). split; [|split; [|split]].
  - eapply Qle_trans; eauto.
  - destruct (bestStreak r1), (bestStreak r2), (bestStreak r3); simpl in *;
      try contradiction; eauto using Qle_trans.
  - destruct (bestTime r1) as [x|]; simpl in *; [|exact I].
    destruct T1 as [y [Hy Hyx]]. rewrite Hy in T2. simpl in T2.
    destruct T2 as [z [Hz Hzy]]. exists z. split; [exact Hz|].
    eapply Qle_trans; eauto.
  - auto.
Qed.

Lemma mods_mono_refl (m : gmap string ModRec) : mods_mono m m.
Proof. intros k r H. exists r. split; [exact H|apply rec_mono_refl]. Qed.

Lemma mods_mono_trans (m1 m2 m3 : gmap string ModRec) :
  mods_mono m1 m2 -> mods_mono m2 m3 -> mods_mono m1 m3.
Proof.
  intros H12 H23 k r H. destruct (H12 k r H) as [r2 [H2 M2]].
  destruct (H23 k r2 H2) as [r3 [H3 M3]]. exists r3.
  split; [exact H3|]. eapply rec_mono_trans; eauto.
Qed.

Lemma mods_mono_insert (m : gmap string ModRec) (k : string) (r r' : ModRec) :
  m !! k = Some r -> rec_mono r r' -> mods_mono m (<[k := r']> m).
Proof.
  intros Hk Hr k' r0 H0. destruct (decide (k = k')) as [<-|Hne].
  - rewrite Hk in H0. injection H0 as <-. exists r'.
    split; [apply lookup_insert_eq|exact Hr].
  - exists r0. rewrite lookup_insert_ne by exact Hne.
    split; [exact H0|apply rec_mono_refl].
Qed.

Lemma rec_mono_set_unlocked (r : ModRec) : rec_mono r (set_unlocked r).
Proof. exact (rec_mono_refl r). Qed.

Lemma rec_mono_set_completed (r : ModRec) : rec_mono r (set_completed r).
Proof.
  pose proof (rec_mono_refl r) as (A & B & C & _).
  split; [exact A|]. split; [exact B|]. split; [exact C|]. reflexivity.
Qed.

Lemma mods_mono_unlock (m : gmap string ModRec) (k : string) :
  mods_mono m (unlock_in k m).
Proof.
  unfold unlock_in. destruct (m !! k) as [r|] eqn:E; [|apply mods_mono_refl].
  eapply mods_mono_insert; [exact E|apply rec_mono_set_unlocked].
Qed.

Lemma mods_mono_insert_completed (m : gmap string ModRec) (k : string) (r : ModRec) :
  mods_mono (<[k := r]> m) (<[k := set_completed r]> (<[k := r]> m)).
Proof.
  eapply mods_mono_insert; [apply lookup_insert_eq|apply rec_mono_set_completed].
Qed.

Lemma raise_score_mono (acc : option Q) (cur : Q) : (cur <= raise_score acc cur)%Q.
Proof.
  unfold raise_score, js_gt. destruct acc as [v|]; [|apply Qle_refl].
  destruct (Qle_bool v cur) eqn:E; simpl; [apply Qle_refl|].
  apply Qlt_le_weak, Qnot_le_lt. intros H. apply Qle_bool_iff in H. congruence.
Qed.

Lemma raise_streak_mono (s cur : option Q) : streak_mono cur (raise_streak s cur).
Proof.
  unfold raise_streak. destruct s as [v|], cur as [c|]; simpl; try exact I;
    try apply Qle_refl.
  destruct (Qle_bool v c) eqn:E; simpl; [apply Qle_refl|].
  apply Qlt_le_weak, Qnot_le_lt. intros H. apply Qle_bool_iff in H. congruence.
Qed.

Lemma lower_time_mono (t cur : option Q) : time_mono cur (lower_time t cur).
Proof.
  unfold lower_time. destruct cur as [c|]; simpl; [|exact I].
  destruct t as [v|]; [|exists c; split; [reflexivity|apply Qle_refl]].
  destruct (Qeq_bool v 0); [exists c; split; [reflexivity|apply Qle_refl]|].
  destruct (Qle_bool c v) eqn:E; [exists c; split; [reflexivity|apply Qle_refl]|].
  exists v. split; [reflexivity|].
  apply Qlt_le_weak, Qnot_le_lt. intros H. apply Qle_bool_iff in H. congruence.
Qed.

Lemma checkDrillAchievements_modules (p : Progress) (stats : Stats) :
  st_modules (drills (checkDrillAchievements p stats)) = st_modules (drills p) /\
  scenarios (checkDrillAchievements p stats) = scenarios p.
Proof. split; reflexivity. Qed.

Lemma checkScenarioAchievements_modules (p : Progress) (stats : Stats) :
  drills (checkScenarioAchievements p stats) = drills p /\
  st_modules (scenarios (checkScenarioAchievements p stats)) = st_modules (scenarios p).
Proof. split; reflexivity. Qed.

Lemma updateDrillProgress_mono (id : string) (stats : Stats) (t : string) (p p' : Progress) :
  updateDrillProgress id stats t p = Some p' -> progress_mono p p'.
Proof.
  unfold updateDrillProgress. cbv zeta.
  destruct (st_modules (drills p) !! id) as [d0|] eqn:E; [|discriminate].
  match goal with |- context [@insert _ _ _ _ id ?d (st_modules (drills p))] =>
    assert (Hd : rec_mono d0 d) end.
  { split; [apply raise_score_mono|]. split; [apply raise_streak_mono|].
    split; [apply lower_time_mono|]. simpl; auto. }
  pose proof (mods_mono_insert _ _ _ _ E Hd) as M1.
  destruct (js_ge _ _ && _); intros H.
  - pose proof (mods_mono_trans _ _ _ M1 (mods_mono_insert_completed _ _ _)) as M2.
    cbn [st_modules] in H.
    destruct (index_of id DRILL_ORDER) as [i|];
      [destruct (i + 1 <? _)%nat; [destruct (nth_error _ _) as [nx|]|]|].
    all: match type of H with context [forallb ?f DRILL_ORDER] =>
           destruct (forallb f DRILL_ORDER) end.
    all: injection H as <-.
    all: split; cbn [checkDrillAchievements drills scenarios st_modules set_achievements
                     set_modules set_stage_completed set_stage_unlocked].
    all: first [ exact M2 | exact (mods_mono_trans _ _ _ M2 (mods_mono_unlock _ _))
               | apply mods_mono_refl ].
  - injection H as <-. split; [exact M1|apply mods_mono_refl].
Qed.

Lemma updateScenarioProgress_mono (id : string) (stats : Stats) (t : string) (p p' : Progress) :
  updateScenarioProgress id stats t p = Some p' -> progress_mono p p'.
Proof.
  unfold updateScenarioProgress. cbv zeta.
  destruct (st_modules (scenarios p) !! id) as [d0|] eqn:E; [|discriminate].
  match goal with |- context [@insert _ _ _ _ id ?d (st_modules (scenarios p))] =>
    assert (Hd : rec_mono d0 d) end.
  { pose proof (rec_mono_refl d0) as (_ & B & C & _).
    split; [apply raise_score_mono|]. split; [exact B|]. split; [exact C|]. simpl; auto. }
  pose proof (mods_mono_insert _ _ _ _ E Hd) as M1.
  destruct (js_ge _ _ && _); intros H.
  - pose proof (mods_mono_trans _ _ _ M1 (mods_mono_insert_completed _ _ _)) as M2.
    match type of H with context [if (2 <=? ?n)%nat then _ else _] =>
      destruct (2 <=? n)%nat end.
    all: match type of H with context [forallb ?f SCENARIO_ORDER] =>
           destruct (forallb f SCENARIO_ORDER) end.
    all: injection H as <-.
    all: split; cbn [checkScenarioAchievements drills scenarios st_modules set_achievements
                     set_modules set_stage_completed set_stage_unlocked].
    all: first [ exact M2 | exact (mods_mono_trans _ _ _ M2 (mods_mono_unlock _ _))
               | apply mods_mono_refl ].
  - injection H as <-. split; [apply mods_mono_refl|exact M1].
Qed.

Lemma record_attempt_mono (p : Progress) (a : Attempt) :
  progress_mono p (record_attempt p a).
Proof.
  destruct a as [id st t|id st t]; simpl.
  - destruct (updateDrillProgress id st t p) as [p'|] eqn:E; simpl.
    + exact (updateDrillProgress_mono _ _ _ _ _ E).
    + split; apply mods_mono_refl.
  - destruct (updateScenarioProgress id st t p) as [p'|] eqn:E; simpl.
    + exact (updateScenarioProgress_mono _ _ _ _ _ E).
    + split; apply mods_mono_refl.
Qed.

(** C2: along every sequence of recordAttempt calls (updateDrillProgress
    and updateScenarioProgress, any ids, any statistics), every drill and
    scenario record keeps a bestScore and bestStreak at least as high,
    a bestTime at most as high once set, and stays completed once
    completed. *)
Theorem progress_monotone (p : Progress) (calls : list Attempt) :
  progress_mono p (run_attempts p calls).
Proof.
  unfold run_attempts. revert p. induction calls as [|a calls IH]; intros p; simpl.
  - split; apply mods_mono_refl.
  - destruct (record_attempt_mono p a) as [D S].
    destruct (IH (record_attempt p a)) as [D' S'].
    split; eapply mods_mono_trans; eauto.
Qed.

Lemma filter_length_mono (f g : string -> bool) (l : list string) :
  (forall x, f x = true -> g x = true) ->
  (List.length (filter (fun x => f x = true) l) <= List.length (filter (fun x => g x = true) l))%nat.
Proof.
  intros Hfg. induction l as [|x l IH]; simpl; [lia|].
  rewrite !filter_cons.
  destruct (f x) eqn:F; [rewrite (Hfg x F)|]; simpl;
    [|destruct (g x)]; simpl; lia.
Qed.

Lemma tier1_mono (m m' : gmap string ModRec) :
  mods_mono m m' -> (tier1Completed m <= tier1Completed m')%nat.
Proof.
  intros M. unfold tier1Completed. apply filter_length_mono.
  intros x. unfold score_at_least.
  destruct (m !! x) as [r|] eqn:E; [|discriminate].
  destruct (M x r E) as [r' [E' [Hs _]]]. rewrite E'.
  intros H. apply Qle_bool_iff in H. apply Qle_bool_iff.
  eapply Qle_trans; eauto.
Qed.

Lemma tier1_unlock (m : gmap string ModRec) (k : string) :
  tier1Completed (unlock_in k m) = tier1Completed m.
Proof.
  unfold tier1Completed. f_equal. apply list_filter_iff. intros x.
  assert (Hx : score_at_least (unlock_in k m) 75 x = score_at_least m 75 x).
  { unfold score_at_least, unlock_in.
    destruct (m !! k) as [r|] eqn:E; [|reflexivity].
    destruct (decide (k = x)) as [<-|Hne].
    - rewrite lookup_insert_eq, E. reflexivity.
    - rewrite lookup_insert_ne by exact Hne. reflexivity. }
  rewrite Hx. reflexivity.
Qed.

Lemma cold4bet_insert (m : gmap string ModRec) (k : string) (r r' : ModRec) :
  m !! k = Some r -> unlocked r' = unlocked r ->
  cold4bet_unlocked (<[k := r']> m) = cold4bet_unlocked m.
Proof.
  intros E U. unfold cold4bet_unlocked.
  destruct (decide (k = "cold-4bet")) as [<-|Hne].
  - rewrite lookup_insert_eq, E. exact U.
  - rewrite lookup_insert_ne by exact Hne. reflexivity.
Qed.

Lemma updateDrillProgress_scenarios (id : string) (stats : Stats) (t : string)
    (p p' : Progress) :
  updateDrillProgress id stats t p = Some p' ->
  st_modules (scenarios p') = st_modules (scenarios p).
Proof.
  unfold updateDrillProgress. cbv zeta.
  destruct (st_modules (drills p) !! id) as [d0|]; [|discriminate].
  destruct (js_ge _ _ && _); intros H.
  - destruct (index_of id DRILL_ORDER) as [i|];
      [destruct (i + 1 <? _)%nat; [destruct (nth_error _ _) as [nx|]|]|].
    all: match type of H with context [forallb ?f DRILL_ORDER] =>
           destruct (forallb f DRILL_ORDER) end.
    all: injection H as <-; reflexivity.
  - injection H as <-. reflexivity.
Qed.

Lemma updateScenarioProgress_cold4bet (id : string) (stats : Stats) (t : string)
    (p p' : Progress) :
  updateScenarioProgress id stats t p = Some p' ->
  cold4bet_unlocked (st_modules (scenarios p')) = cold4bet_unlocked (st_modules (scenarios p))
  \/ (2 <= tier1Completed (st_modules (scenarios p')))%nat.
Proof.
  unfold updateScenarioProgress. cbv zeta.
  destruct (st_modules (scenarios p) !! id) as [d0|] eqn:E; [|discriminate].
  match goal with |- context [@insert _ _ _ _ id ?d (st_modules (scenarios p))] =>
    assert (U1 : cold4bet_unlocked (<[id := d]> (st_modules (scenarios p)))
                 = cold4bet_unlocked (st_modules (scenarios p)))
      by (apply (cold4bet_insert _ _ d0); [exact E|reflexivity]);
    assert (U2 : cold4bet_unlocked (<[id := set_completed d]> (<[id := d]> (st_modules (scenarios p))))
                 = cold4bet_unlocked (st_modules (scenarios p)))
      by (rewrite <- U1; apply (cold4bet_insert _ _ d); [apply lookup_insert_eq|reflexivity])
  end.
  destruct (js_ge _ _ && _); intros H.
  - match type of H with context [if (2 <=? ?n)%nat then _ else _] =>
      destruct (2 <=? n)%nat eqn:T end.
    all: match type of H with context [forallb ?f SCENARIO_ORDER] =>
           destruct (forallb f SCENARIO_ORDER) end.
    all: injection H as <-.
    all: cbn [checkScenarioAchievements drills scenarios st_modules set_achievements
              set_modules set_stage_completed set_stage_unlocked].
    1,2: right; rewrite tier1_unlock; apply Nat.leb_le; exact T.
    all: left; exact U2.
  - injection H as <-. left. exact U1.
Qed.

(** C9: a call of updateScenarioProgress that newly completes a scenario
    while at least 2 of the 4 Tier-1 scenarios have bestScore >= 75 leaves
    'cold-4bet' unlocked; and along every sequence of recordAttempt calls
    from the default document, 'cold-4bet' stays locked as long as fewer
    than 2 Tier-1 scenarios have bestScore >= 75. *)
Theorem cold4bet_unlock_rule :
  (forall (id : string) (stats : Stats) (t : string) (p p' : Progress),
     updateScenarioProgress id stats t p = Some p' ->
     (exists r, st_modules (scenarios p) !! id = Some r /\ completed r = false) ->
     (exists r', st_modules (scenarios p') !! id = Some r' /\ completed r' = true) ->
     (2 <= tier1Completed (st_modules (scenarios p')))%nat ->
     is_Some (st_modules (scenarios p) !! "cold-4bet") ->
     cold4bet_unlocked (st_modules (scenarios p')) = true) /\
  (forall calls : list Attempt,
     (tier1Completed (st_modules (scenarios (run_attempts DEFAULT_PROGRESS calls))) < 2)%nat ->
     cold4bet_unlocked (st_modules (scenarios (run_attempts DEFAULT_PROGRESS calls))) = false).
Proof.
  split.
  - intros id stats t p p' H [r [Er Cr]] [r' [Er' Cr']] Hcnt Hc.
    revert H. unfold updateScenarioProgress. cbv zeta. rewrite Er.
    destruct (js_ge _ _ && _); intros H.
    + match type of H with context [if (2 <=? ?n)%nat then _ else _] =>
        destruct (2 <=? n)%nat eqn:T end.
      all: match type of H with context [forallb ?f SCENARIO_ORDER] =>
             destruct (forallb f SCENARIO_ORDER) end.
      all: injection H as <-.
      all: cbn [checkScenarioAchievements drills scenarios st_modules set_achievements
                set_modules set_stage_completed set_stage_unlocked] in *.
      3,4: apply Nat.leb_gt in T; lia.
      all: unfold unlock_in, cold4bet_unlocked.
      all: match goal with |- context [match ?m !! "cold-4bet" with _ => _ end] =>
             assert (Hs : is_Some (m !! "cold-4bet")) by
               (rewrite !lookup_insert_is_Some'; auto);
             destruct Hs as [c Hc']; rewrite Hc', lookup_insert_eq; reflexivity end.
    + injection H as <-. cbn [scenarios st_modules set_modules] in Er'.
      rewrite lookup_insert_eq in Er'. injection Er' as <-.
      simpl in Cr'. congruence.
  - set (inv := fun p : Progress =>
      cold4bet_unlocked (st_modules (scenarios p)) = true ->
      (2 <= tier1Completed (st_modules (scenarios p)))%nat).
    assert (Hstep : forall p a, inv p -> inv (record_attempt p a)).
    { intros p a Hp. unfold inv in *.
      destruct a as [id st t|id st t]; simpl.
      - destruct (updateDrillProgress id st t p) as [p'|] eqn:E; simpl; [|exact Hp].
        rewrite (updateDrillProgress_scenarios _ _ _ _ _ E). exact Hp.
      - destruct (updateScenarioProgress id st t p) as [p'|] eqn:E; simpl; [|exact Hp].
        destruct (updateScenarioProgress_cold4bet _ _ _ _ _ E) as [U|C]; [|intros _; exact C].
        rewrite U. intros Hu. specialize (Hp Hu).
        destruct (updateScenarioProgress_mono _ _ _ _ _ E) as [_ M].
        pose proof (tier1_mono _ _ M). lia. }
    assert (Hrun : forall calls p, inv p -> inv (fold_left record_attempt calls p)).
    { induction calls as [|a calls IH]; intros p Hp; simpl; [exact Hp|].
      apply IH, Hstep, Hp. }
    intros calls Hlt.
    destruct (cold4bet_unlocked _) eqn:U; [|reflexivity].
    exfalso. assert (Hinv : inv (run_attempts DEFAULT_PROGRESS calls)).
    { apply Hrun. unfold inv. vm_compute. discriminate. }
    specialize (Hinv U). lia.
Qed.

Lemma cold4bet_unlock_rule_witness :
  cold4bet_unlocked (st_modules (scenarios (run_attempts DEFAULT_PROGRESS []))) = false /\
  exists p', updateScenarioProgress "bb-defense" (mkStats (Some 80%Q) None (Some 3%Q)) "t1"
      (run_attempts DEFAULT_PROGRESS
         [ScenarioAttempt "defend-3bet" (mkStats (Some 90%Q) None None) "t0"]) = Some p' /\
    cold4bet_unlocked (st_modules (scenarios p')) = true.
Proof.
  destruct cold4bet_unlock_rule as [HA HB]. split.
  - apply HB; vm_compute; lia.
  - eexists; split; [vm_compute; reflexivity|].
    apply (HA "bb-defense" (mkStats (Some 80%Q) None (Some 3%Q)) "t1"
             (run_attempts DEFAULT_PROGRESS
                [ScenarioAttempt "defend-3bet" (mkStats (Some 90%Q) None None) "t0"])).
    vm_compute; reflexivity.
    eexists; split; vm_compute; reflexivity.
    eexists; split; vm_compute; reflexivity.
    vm_compute; lia.
    eexists; vm_compute; reflexivity.
Defined.

End StorageFacts.

Module EngineFacts.
Import ScenarioEngineModel.

(** C1 (counterexample): after the first question of a session has been
    answered, and before nextQuestion, a second submitAnswer is accepted:
    it returns a result and appends a second answer record. *)
Lemma second_submit_accepted :
  let s1 := demo_started.1 in
  let s2 := (submitAnswer demo_config 1 true s1).2 in
  let s3 := (submitAnswer demo_config 2 true s2).2 in
  currentQuestion s2 = currentQuestion s1 /\
  currentQuestionData s2 = currentQuestionData s1 /\
  List.length (answers s2) = 1%nat /\
  (exists r, (submitAnswer demo_config 2 true s2).1 = Some r) /\
  List.length (answers s3) = 2%nat /\ correct s3 = 2%nat.
Proof.
  cbv zeta.
  refine (conj _ (conj _ (conj _ (conj _ (conj _ _))))).
  4: eexists.
  all: vm_compute; reflexivity.
Qed.

(** C1 (amended): submitAnswer returns null, and changes nothing, exactly
    when the session is inactive or no question has been generated; in
    every other state it is accepted, and it leaves the session active on
    the same question with one more answer record and one more time, so
    that a further call is accepted as well. *)
Theorem submitAnswer_acceptance {QData Ans : Type} (cfg : @Config QData Ans)
    (now : Q) (answer : Ans) (s : EngineState) :
  ((submitAnswer cfg now answer s).1 = None <->
     active s = false \/ currentQuestionData s = None) /\
  ((submitAnswer cfg now answer s).1 = None -> (submitAnswer cfg now answer s).2 = s) /\
  (forall q, active s = true -> currentQuestionData s = Some q ->
     let s' := (submitAnswer cfg now answer s).2 in
     active s' = true /\ currentQuestionData s' = Some q /\
     currentQuestion s' = currentQuestion s /\
     List.length (answers s') = S (List.length (answers s)) /\
     List.length (questionTimes s') = S (List.length (questionTimes s))).
Proof.
  unfold submitAnswer.
  destruct (active s) eqn:A, (currentQuestionData s) as [q0|] eqn:E; cbn [fst snd].
  - split; [|split].
    + split; [discriminate|intros [H|H]; discriminate].
    + discriminate.
    + intros q _ Hq. injection Hq as <-. cbn.
      rewrite !length_app. cbn.
      split; [reflexivity|split; [reflexivity|split; [reflexivity|split; lia]]].
  - split; [|split].
    + split; [intros _; right; reflexivity|intros _; reflexivity].
    + intros _. reflexivity.
    + intros q _ Hq. discriminate.
  - split; [|split].
    + split; [intros _; left; reflexivity|intros _; reflexivity].
    + intros _. reflexivity.
    + intros q Hq. discriminate.
  - split; [|split].
    + split; [intros _; left; reflexivity|intros _; reflexivity].
    + intros _. reflexivity.
    + intros q Hq. discriminate.
Qed.

Lemma submitAnswer_acceptance_witness :
  let s1 := demo_started.1 in
  let s' := (submitAnswer demo_config 1 true s1).2 in
  active s' = true /\ currentQuestionData s' = Some 1%nat /\
  currentQuestion s' = currentQuestion s1 /\
  List.length (answers s') = S (List.length (answers s1)) /\
  List.length (questionTimes s') = S (List.length (questionTimes s1)).
Proof.
  destruct (submitAnswer_acceptance demo_config 1 true demo_started.1) as [_ [_ H]].
  apply H; vm_compute; reflexivity.
Defined.

Lemma run_inactive {QData Ans : Type} (cfg : @Config QData Ans)
    (w : EngineState * Storage.Progress) (calls : list Call) :
  active w.1 = false ->
  forallb (fun c => negb (is_start c)) calls = true ->
  active (run cfg w calls).1 = false /\ (run cfg w calls).2 = w.2.
Proof.
  unfold run. revert w.
  induction calls as [|c calls IH]; intros [s p] A Hc; cbn [fold_left]; [split; auto|].
  cbn in Hc. apply andb_true_iff in Hc as [Hs Hc]. cbn in A.
  assert (Hw : active (step cfg (s, p) c).1 = false /\ (step cfg (s, p) c).2 = p).
  { destruct c as [now stamp| |now stamp|now a]; cbn in Hs; try discriminate.
    - split; reflexivity.
    - destruct s as [act cq cr cd st qt an cs]; cbn in A; subst act.
      split; reflexivity.
    - destruct s as [act cq cr cd st qt an cs]; cbn in A; subst act.
      split; reflexivity. }
  destruct Hw as [Hw1 Hw2].
  destruct (IH _ Hw1 Hc) as [H1 H2]. split; [exact H1|]. rewrite H2. exact Hw2.
Qed.

(** C10: stop() sets active to false and changes no other field of the
    session; it writes nothing to the progress document, and no sequence
    of nextQuestion, submitAnswer or stop calls made after it (without a
    new start) writes to it either, so the stored record, its attempts
    counter included, stays as it was. *)
Theorem stop_frame {QData Ans : Type} (cfg : @Config QData Ans)
    (s : EngineState) (p : Storage.Progress) (calls : list Call) :
  active (stop s) = false /\
  currentQuestion (stop s) = currentQuestion s /\ correct (stop s) = correct s /\
  currentQuestionData (stop s) = currentQuestionData s /\
  questionStartTime (stop s) = questionStartTime s /\
  questionTimes (stop s) = questionTimes s /\ answers (stop s) = answers s /\
  categoryStats (stop s) = categoryStats s /\
  step cfg (s, p) CallStop = (stop s, p) /\
  (forallb (fun c => negb (is_start c)) calls = true ->
   (run cfg (step cfg (s, p) CallStop) calls).2 = p).
Proof.
  repeat split; try reflexivity.
  intros Hc. apply (run_inactive cfg (stop s, p) calls); [reflexivity|exact Hc].
Qed.

Lemma stop_frame_witness :
  (run demo_config (step demo_config demo_started CallStop)
     [CallSubmit 5 true; CallNext 6 "t1"; CallNext 7 "t2"; CallNext 8 "t3";
      CallSubmit 9 false; CallStop]).2 = Storage.DEFAULT_PROGRESS.
Proof.
  destruct (stop_frame demo_config demo_started.1 demo_started.2
              [CallSubmit 5 true; CallNext 6 "t1"; CallNext 7 "t2"; CallNext 8 "t3";
               CallSubmit 9 false; CallStop]) as [_ [_ [_ [_ [_ [_ [_ [_ [_ H]]]]]]]]].
  rewrite <- (surjective_pairing demo_started) in H.
  rewrite H; [vm_compute; reflexivity|reflexivity].
Defined.

End EngineFacts.

Module RangeGridFacts.
Import HandModel RangeStatsModel RangeGridModel.

Lemma gridpos_at (r c : nat) : (r < 13)%nat -> (c < 13)%nat ->
  getGridPosition (getHandFromGrid r c) = Some (Z.of_nat r, Z.of_nat c).
Proof.
  intros Hr Hc. pose proof (HandFacts.cell_ok_at r c Hr Hc) as H.
  unfold HandFacts.cell_ok in H. apply andb_prop in H as [H _].
  apply andb_prop in H as [H _]. exact (bool_decide_eq_true_1 _ H).
Qed.

Lemma in_cells (rc : nat * nat) : In rc cells <-> (rc.1 < 13 /\ rc.2 < 13)%nat.
Proof.
  destruct rc as [r c]. unfold cells. rewrite in_prod_iff, !in_seq. simpl. lia.
Qed.

Lemma hand_at_inj (a b : nat * nat) : In a cells -> In b cells ->
  getHandFromGrid a.1 a.2 = getHandFromGrid b.1 b.2 -> a = b.
Proof.
  intros Ha Hb E. apply in_cells in Ha, Hb.
  destruct a as [r c], b as [r' c']; simpl in *.
  pose proof (gridpos_at r c (proj1 Ha) (proj2 Ha)) as P1.
  pose proof (gridpos_at r' c' (proj1 Hb) (proj2 Hb)) as P2.
  rewrite E, P2 in P1. injection P1 as E1 E2. f_equal; lia.
Qed.

Definition normal_check : bool :=
  forallb (fun rc => bool_decide (normalizeHand (getHandFromGrid rc.1 rc.2)
                                  = Value (getHandFromGrid rc.1 rc.2))) cells.

Lemma normal_check_ok : normal_check = true.
Proof. vm_compute. reflexivity. Qed.

Lemma normalize_at (rc : nat * nat) : In rc cells ->
  normalizeHand (getHandFromGrid rc.1 rc.2) = Value (getHandFromGrid rc.1 rc.2).
Proof.
  intros H. pose proof normal_check_ok as N. unfold normal_check in N.
  rewrite forallb_forall in N. exact (bool_decide_eq_true_1 _ (N rc H)).
Qed.

Lemma all_hands_at_cells (x : string) : In x ALL_HANDS ->
  exists rc, In rc cells /\ getHandFromGrid rc.1 rc.2 = x.
Proof.
  intros H.
  assert (C : forallb (fun x => existsb (fun rc => String.eqb (getHandFromGrid rc.1 rc.2) x) cells)
                ALL_HANDS = true) by (vm_compute; reflexivity).
  rewrite forallb_forall in C. specialize (C x H).
  apply existsb_exists in C as [rc [Hin E]]. apply String.eqb_eq in E. eauto.
Qed.

Lemma normalize_all_fixed (hs : list string) :
  Forall (fun h => normalizeHand h = Value h) hs -> normalize_all hs = Value (map Some hs).
Proof.
  induction 1 as [|h hs Hh _ IH]; [reflexivity|]. simpl. rewrite Hh, IH. reflexivity.
Qed.

Lemma default_nth_error {A} (l : list A) (i : nat) (d : A) :
  default d (nth_error l i) = nth i l d.
Proof. revert i. induction l as [|x l IH]; intros [|i]; simpl; auto. Qed.

Lemma list_as_map_nth {A} (l : list A) (d : A) :
  map (fun i => nth i l d) (seq 0 (List.length l)) = l.
Proof.
  apply nth_ext with (d := d) (d' := d); rewrite length_map, length_seq; [reflexivity|].
  intros n Hn.
  rewrite (nth_indep _ _ (nth 0 l d)) by (rewrite length_map, length_seq; lia).
  change (nth 0 l d) with ((fun i => nth i l d) 0%nat).
  rewrite map_nth, seq_nth by exact Hn. reflexivity.
Qed.

(** The truthiness of [g[r][c]] on a grid whose rows all exist. *)
Definition cellb (g : Grid) (rc : nat * nat) : bool :=
  nth rc.2 (nth rc.1 g []) false.

Lemma gridToHands_fold (g : Grid) (L : list (nat * nat)) (acc : list string) :
  (forall rc, In rc L -> grid_cell g rc = Value (cellb g rc)) ->
  fold_left (fun acc rc =>
    match acc with
    | Value l =>
        match grid_cell g rc with
        | Value true => Value (l ++ [getHandFromGrid rc.1 rc.2])%list
        | Value false => Value l
        | TypeError => TypeError
        | NullV => NullV
        end
    | e => e
    end) L (Value acc)
  = Value (acc ++ map (fun rc => getHandFromGrid rc.1 rc.2) (List.filter (cellb g) L))%list.
Proof.
  revert acc. induction L as [|rc L IH]; intros acc H; simpl.
  - rewrite app_nil_r. reflexivity.
  - rewrite (H rc (or_introl eq_refl)).
    destruct (cellb g rc); simpl; rewrite IH by (intros; apply H; right; assumption);
      [rewrite <- app_assoc|]; reflexivity.
Qed.

Lemma gridToHands_wf (g : Grid) : List.length g = 13%nat ->
  gridToHands g = Value (map (fun rc => getHandFromGrid rc.1 rc.2) (List.filter (cellb g) cells)).
Proof.
  intros Hg. unfold gridToHands. rewrite gridToHands_fold; [reflexivity|].
  intros [r c] Hin. apply in_cells in Hin. simpl in Hin. unfold grid_cell, cellb. simpl.
  destruct (nth_error g r) as [row|] eqn:E.
  - assert (nth r g [] = row) as -> by (apply nth_error_nth; exact E).
    rewrite default_nth_error. reflexivity.
  - apply nth_error_None in E. lia.
Qed.

Lemma NoDup_map_on {A B} (f : A -> B) (l : list A) :
  (forall x y, In x l -> In y l -> f x = f y -> x = y) -> List.NoDup l -> List.NoDup (map f l).
Proof.
  intros Hinj Hnd. induction Hnd as [|x l Hx Hnd IH]; simpl; constructor.
  - intros Hin. apply in_map_iff in Hin as [y [Ey Hy]].
    assert (y = x) as -> by (apply Hinj; simpl; auto). contradiction.
  - apply IH. intros a b Ha Hb. apply Hinj; simpl; auto.
Qed.

Lemma cells_NoDup : List.NoDup cells.
Proof.
  apply NoDup_ListNoDup. apply (bool_decide_eq_true_1 (NoDup cells)). vm_compute. reflexivity.
Qed.

Lemma has_hand_map_Some (l : list string) (x : string) :
  has_hand (map Some l) x = bool_decide (x ∈ l).
Proof.
  unfold has_hand. apply bool_decide_ext. rewrite !list_elem_of_In, in_map_iff.
  split; [intros [y [E Hy]]; injection E as ->; exact Hy|intros H; exists x; auto].
Qed.

Lemma build_grid_cellb (g : Grid) :
  List.length g = 13%nat -> Forall (fun row => List.length row = 13%nat) g ->
  build_grid (fun r c => cellb g (r, c)) = g.
Proof.
  intros Hg Hrows. unfold build_grid, cellb. cbn [fst snd].
  transitivity (map (fun r => nth r g []) (seq 0 13)).
  - apply map_ext_in. intros r Hr. apply in_seq in Hr.
    assert (Hl : List.length (nth r g []) = 13%nat)
      by (rewrite Forall_forall in Hrows; apply Hrows, list_elem_of_In, nth_In; lia).
    rewrite <- Hl. apply list_as_map_nth.
  - rewrite <- Hg. apply list_as_map_nth.
Qed.

Lemma nth_map_seq {A} (h : nat -> A) (n i : nat) (d : A) :
  (i < n)%nat -> nth i (map h (seq 0 n)) d = h i.
Proof.
  intros Hi. rewrite (nth_indep _ _ (h 0%nat)) by (rewrite length_map, length_seq; lia).
  rewrite map_nth, seq_nth by exact Hi. reflexivity.
Qed.

Lemma cellb_build_grid (f : nat -> nat -> bool) (r c : nat) :
  (r < 13)%nat -> (c < 13)%nat -> cellb (build_grid f) (r, c) = f r c.
Proof.
  intros Hr Hc. unfold cellb, build_grid. cbn [fst snd].
  rewrite (nth_map_seq (fun r => map (fun c => f r c) (seq 0 13))) by exact Hr.
  apply (nth_map_seq (fun c => f r c)), Hc.
Qed.

Lemma build_grid_length (f : nat -> nat -> bool) : List.length (build_grid f) = 13%nat.
Proof. unfold build_grid. rewrite length_map, length_seq. reflexivity. Qed.

(** handsToGrid inverts gridToHands: any 13x13 grid of booleans is rebuilt
    exactly from the list of hands gridToHands reads off it. *)
Theorem handsToGrid_gridToHands (g : Grid) :
  List.length g = 13%nat -> Forall (fun row => List.length row = 13%nat) g ->
  exists hands, gridToHands g = Value hands /\ handsToGrid hands = Value g.
Proof.
  intros Hg Hrows. eexists. split; [apply gridToHands_wf, Hg|].
  unfold handsToGrid. rewrite normalize_all_fixed.
  2: { apply Forall_forall. intros x Hx. apply list_elem_of_In, in_map_iff in Hx as [rc [<- Hrc]].
       apply filter_In in Hrc as [Hrc _]. apply normalize_at, Hrc. }
  f_equal. transitivity (build_grid (fun r c => cellb g (r, c)));
    [|apply build_grid_cellb; assumption].
  unfold build_grid. apply map_ext_in. intros r Hr. apply map_ext_in. intros c Hc.
  apply in_seq in Hr, Hc. rewrite has_hand_map_Some.
  destruct (cellb g (r, c)) eqn:Ec.
  - apply bool_decide_eq_true. apply list_elem_of_In, in_map_iff. exists (r, c). split; [reflexivity|].
    apply filter_In. split; [apply in_cells; simpl; lia|exact Ec].
  - apply bool_decide_eq_false. intros Hin. apply list_elem_of_In in Hin.
    apply in_map_iff in Hin as [rc [E2 Hrc]]. apply filter_In in Hrc as [Hrc Hb].
    assert (rc = (r, c)) as -> by (apply hand_at_inj; [exact Hrc|apply in_cells; simpl; lia|exact E2]).
    congruence.
Qed.

Lemma handsToGrid_gridToHands_witness :
  exists hands, gridToHands (build_grid (fun r c => Nat.eqb r c)) = Value hands /\
    handsToGrid hands = Value (build_grid (fun r c => Nat.eqb r c)).
Proof.
  apply handsToGrid_gridToHands; [reflexivity|].
  repeat constructor.
Defined.

(** gridToHands after handsToGrid, on canonical hands: the grid lists each
    given hand exactly once (duplicates collapse), and nothing else. *)
Theorem gridToHands_handsToGrid (hands : list string) :
  Forall (fun h => h ∈ ALL_HANDS) hands ->
  exists g out, handsToGrid hands = Value g /\ gridToHands g = Value out /\
    List.NoDup out /\ (forall x, In x out <-> In x hands).
Proof.
  intros Hall.
  assert (Hn : normalize_all hands = Value (map Some hands)).
  { apply normalize_all_fixed. apply Forall_forall. intros h Hh.
    rewrite Forall_forall in Hall. destruct (all_hands_at_cells h (proj1 (list_elem_of_In _ _) (Hall h Hh))) as [rc [Hrc <-]].
    apply normalize_at, Hrc. }
  set (G := build_grid (fun r c => has_hand (map Some hands) (getHandFromGrid r c))).
  exists G. eexists. split; [unfold handsToGrid; rewrite Hn; reflexivity|].
  split; [apply gridToHands_wf, build_grid_length|].
  assert (HG : forall rc, In rc cells ->
            cellb G rc = bool_decide (getHandFromGrid rc.1 rc.2 ∈ hands)).
  { intros [r c] Hrc. apply in_cells in Hrc. simpl in Hrc. unfold G.
    rewrite cellb_build_grid by lia. apply has_hand_map_Some. }
  split.
  - apply NoDup_map_on; [|apply List.NoDup_filter, cells_NoDup].
    intros a b Ha Hb. apply filter_In in Ha as [Ha _], Hb as [Hb _].
    apply hand_at_inj; assumption.
  - intros x. rewrite in_map_iff. split.
    + intros [rc [<- Hrc]]. apply filter_In in Hrc as [Hrc Hb].
      rewrite HG in Hb by exact Hrc. apply list_elem_of_In. exact (bool_decide_eq_true_1 _ Hb).
    + intros Hx. rewrite Forall_forall in Hall.
      destruct (all_hands_at_cells x (proj1 (list_elem_of_In _ _) (Hall x (proj2 (list_elem_of_In _ _) Hx)))) as [rc [Hrc <-]].
      exists rc. split; [reflexivity|]. apply filter_In. split; [exact Hrc|].
      rewrite HG by exact Hrc. apply bool_decide_eq_true. apply list_elem_of_In. exact Hx.
Qed.

Lemma gridToHands_handsToGrid_witness :
  exists g out, handsToGrid ["AKs"; "QQ"; "AKs"; "72o"] = Value g /\ gridToHands g = Value out /\
    List.NoDup out /\ (forall x, In x out <-> In x ["AKs"; "QQ"; "AKs"; "72o"]).
Proof.
  apply gridToHands_handsToGrid.
  apply (bool_decide_unpack _). vm_compute. reflexivity.
Defined.

Lemma ranges_canonical (pos : string) (range : list string) :
  OPENING_RANGES pos = Some range -> Forall (fun h => normalizeHand h = Value h) range.
Proof.
  assert (C : forallb (fun l => forallb (fun h => bool_decide (normalizeHand h = Value h)) l)
                [RANGE_UTG; RANGE_MP; RANGE_CO; RANGE_BTN; RANGE_SB; RANGE_BB] = true)
    by (vm_compute; reflexivity).
  intros H. apply Forall_forall. intros h Hh.
  cut (forallb (fun h => bool_decide (normalizeHand h = Value h)) range = true).
  { intros F. rewrite forallb_forall in F. exact (bool_decide_eq_true_1 _ (F h (proj1 (list_elem_of_In _ _) Hh))). }
  rewrite forallb_forall in C. apply C.
  unfold OPENING_RANGES in H.
  repeat match type of H with
         | context [if String.eqb ?a ?b then _ else _] => destruct (String.eqb a b)
         end; try discriminate; injection H as <-; simpl; tauto.
Qed.

(** The grid drawn for a position's opening range (rangeToGrid) is the grid
    handsToGrid builds from that range's hand list (getRangeHands), for
    every position name that is not inherited from Object.prototype, known
    or not. *)
Theorem rangeToGrid_handsToGrid (position : string) :
  position ∉ OBJECT_PROTOTYPE_KEYS ->
  handsToGrid (getRangeHands position) = Value (rangeToGrid position).
Proof.
  intros _. unfold getRangeHands, rangeToGrid, handsToGrid.
  destruct (OPENING_RANGES position) as [range|] eqn:E; [|reflexivity].
  rewrite normalize_all_fixed by exact (ranges_canonical _ _ E).
  f_equal. unfold build_grid. apply map_ext. intros r. apply map_ext. intros c.
  apply has_hand_map_Some.
Qed.

Lemma rangeToGrid_handsToGrid_witness :
  ("CO" ∉ OBJECT_PROTOTYPE_KEYS) /\
  handsToGrid (getRangeHands "CO") = Value (rangeToGrid "CO").
Proof.
  split; [apply (bool_decide_unpack _); vm_compute; reflexivity|].
  apply rangeToGrid_handsToGrid. apply (bool_decide_unpack _); vm_compute; reflexivity.
Defined.

Lemma ranges_NoDup (pos : string) (range : list string) :
  OPENING_RANGES pos = Some range -> List.NoDup range.
Proof.
  intros H. apply NoDup_ListNoDup. unfold OPENING_RANGES in H.
  repeat match type of H with
         | context [if String.eqb ?a ?b then _ else _] => destruct (String.eqb a b)
         end; try discriminate; injection H as <-; apply (bool_decide_unpack _); vm_compute; reflexivity.
Qed.

Lemma sim_diff_fold (inU inT : nat * nat -> bool) (hand : nat * nat -> string)
    (L : list (nat * nat)) (m t : nat) (a b : list string) :
  let S' := fold_left (fun acc rc =>
              ((if Bool.eqb (inU rc) (inT rc) then S acc.1 else acc.1), S acc.2)) L (m, t) in
  let D := fold_left (fun acc rc =>
              if inT rc && negb (inU rc) then ((acc.1 ++ [hand rc])%list, acc.2)
              else if inU rc && negb (inT rc) then (acc.1, (acc.2 ++ [hand rc])%list)
              else acc) L (a, b) in
  (S'.1 + List.length D.1 + List.length D.2 = m + List.length a + List.length b + List.length L
   /\ S'.2 = t + List.length L)%nat.
Proof.
  cbv zeta. revert m t a b.
  induction L as [|rc L IH]; intros m t a b; cbn [fold_left List.length].
  - cbn [fst snd]. lia.
  - destruct (IH (if Bool.eqb (inU rc) (inT rc) then S m else m) (S t)
                 (if inT rc && negb (inU rc) then (a ++ [hand rc])%list else a)
                 (if inU rc && negb (inT rc) then (b ++ [hand rc])%list else b))
      as [H1 H2].
    destruct (inU rc), (inT rc); cbn [Bool.eqb andb negb fst snd] in H1, H2 |- *;
      rewrite ?length_app in H1; cbn [List.length] in H1; split; lia.
Qed.

Lemma Value_inj {A} (a b : A) : Value a = Value b -> a = b.
Proof. intros H. injection H as H. exact H. Qed.

Lemma ex_in_cons {A} (a : A) (L : list A) (P : A -> Prop) :
  (exists y, In y (a :: L) /\ P y) <-> P a \/ exists y, In y L /\ P y.
Proof.
  split.
  - intros [y [[<-|Hy] Py]]; [left; exact Py|right; exists y; auto].
  - intros [Pa|[y [Hy Py]]]; [exists a; split; [left; reflexivity|exact Pa]|].
    exists y. split; [right; exact Hy|exact Py].
Qed.

Lemma diff_fold_in (inU inT : nat * nat -> bool) (hand : nat * nat -> string)
    (L : list (nat * nat)) (a b : list string) (x : string) :
  let D := fold_left (fun acc rc =>
              if inT rc && negb (inU rc) then ((acc.1 ++ [hand rc])%list, acc.2)
              else if inU rc && negb (inT rc) then (acc.1, (acc.2 ++ [hand rc])%list)
              else acc) L (a, b) in
  (In x D.1 <-> In x a \/ exists rc, In rc L /\ inT rc = true /\ inU rc = false /\ hand rc = x) /\
  (In x D.2 <-> In x b \/ exists rc, In rc L /\ inU rc = true /\ inT rc = false /\ hand rc = x).
Proof.
  cbv zeta. revert a b. induction L as [|rc L IH]; intros a b; cbn [fold_left].
  - cbn [fst snd]. split; split; auto; intros [H|[rc [[] _]]]; exact H.
  - destruct (IH (if inT rc && negb (inU rc) then (a ++ [hand rc])%list else a)
                 (if inU rc && negb (inT rc) then (b ++ [hand rc])%list else b))
      as [H1 H2].
    rewrite (ex_in_cons _ _ (fun rc => inT rc = true /\ inU rc = false /\ hand rc = x)),
            (ex_in_cons _ _ (fun rc => inU rc = true /\ inT rc = false /\ hand rc = x)).
    destruct (inU rc) eqn:EU, (inT rc) eqn:ET; cbn [andb negb fst snd] in H1, H2 |- *;
      rewrite H1, H2; rewrite ?in_app_iff; cbn [In]; clear H1 H2 IH.
    + split; split; intros [H|H]; auto; destruct H as [H|H];
        try (destruct H as [? [? ?]]; discriminate); auto.
    + split; split; intros [H|H]; auto; destruct H as [H|H];
        try (destruct H as [? [? ?]]; discriminate); auto.
      * destruct H as [H|[]]. right; left; auto.
      * destruct H as [_ [_ H]]. left; right; left; exact H.
    + split; split; intros [H|H]; auto; destruct H as [H|H];
        try (destruct H as [? [? ?]]; discriminate); auto.
      * destruct H as [H|[]]. right; left; auto.
      * destruct H as [_ [_ H]]. left; right; left; exact H.
    + split; split; intros [H|H]; auto; destruct H as [H|H];
        try (destruct H as [? [? ?]]; discriminate); auto.
Qed.

Lemma cells_in_all (rc : nat * nat) : In rc cells -> In (getHandFromGrid rc.1 rc.2) ALL_HANDS.
Proof.
  assert (C : forallb (fun rc => existsb (String.eqb (getHandFromGrid rc.1 rc.2)) ALL_HANDS)
                cells = true) by (vm_compute; reflexivity).
  intros H. rewrite forallb_forall in C. specialize (C rc H).
  apply existsb_exists in C as [y [Hy E]]. apply String.eqb_eq in E. rewrite E. exact Hy.
Qed.

Lemma ranges_in_all (pos : string) (range : list string) (x : string) :
  OPENING_RANGES pos = Some range -> In x range -> In x ALL_HANDS.
Proof.
  assert (C : forallb (fun l => forallb (fun h => existsb (String.eqb h) ALL_HANDS) l)
                [RANGE_UTG; RANGE_MP; RANGE_CO; RANGE_BTN; RANGE_SB; RANGE_BB] = true)
    by (vm_compute; reflexivity).
  intros H Hx.
  cut (forallb (fun h => existsb (String.eqb h) ALL_HANDS) range = true).
  { intros F. rewrite forallb_forall in F. pose proof (F x Hx) as Fx. apply existsb_exists in Fx as [y [Hy E]].
    apply String.eqb_eq in E. rewrite E. exact Hy. }
  rewrite forallb_forall in C. apply C.
  unfold OPENING_RANGES in H.
  repeat match type of H with
         | context [if String.eqb ?a ?b then _ else _] => destruct (String.eqb a b)
         end; try discriminate; injection H as <-; simpl; tauto.
Qed.

Lemma has_hand_normalize_all (hands : list string) (ns : list (option string)) (x : string) :
  normalize_all hands = Value ns ->
  has_hand ns x = true <-> exists h, In h hands /\ normalizeHand h = Value x.
Proof.
  unfold has_hand. rewrite bool_decide_eq_true, list_elem_of_In.
  revert ns. induction hands as [|h hands IH]; intros ns E; cbn [normalize_all] in E.
  - injection E as <-. split; [intros []|intros [h [[] _]]].
  - destruct (normalizeHand h) as [n| |] eqn:Eh, (normalize_all hands) as [l| |];
      try discriminate; injection E as <-; specialize (IH l eq_refl); cbn [In].
    + rewrite IH. split.
      * intros [E|[h' [Hh' E']]]; [injection E as ->; exists h; auto|exists h'; auto].
      * intros [h' [[<-|Hh'] E']]; [left; congruence|right; exists h'; auto].
    + rewrite IH. split.
      * intros [E|[h' [Hh' E']]]; [discriminate|exists h'; auto].
      * intros [h' [[<-|Hh'] E']]; [congruence|right; exists h'; auto].
Qed.

(** getRangeDifference for a known position: [missing] holds exactly the
    hands of the target range that no user hand normalizes to, and [extra]
    exactly the grid hands some user hand normalizes to that the target
    range lacks. *)
Theorem getRangeDifference_members (userHands : list string) (targetPosition : string)
    (range missing extra : list string) :
  OPENING_RANGES targetPosition = Some range ->
  getRangeDifference userHands targetPosition = Value (missing, extra) ->
  (forall x, In x missing <->
     In x range /\ ~ exists h, In h userHands /\ normalizeHand h = Value x) /\
  (forall x, In x extra <->
     In x ALL_HANDS /\ (exists h, In h userHands /\ normalizeHand h = Value x) /\ ~ In x range).
Proof.
  intros Hr Hd. unfold getRangeDifference in Hd. rewrite Hr in Hd.
  destruct (normalize_all userHands) as [userSet| |] eqn:En; try discriminate.
  apply Value_inj in Hd. cbv zeta in Hd.
  assert (Hu : forall x, has_hand userSet x = true <->
                 exists h, In h userHands /\ normalizeHand h = Value x)
    by (intros x; apply has_hand_normalize_all, En).
  split; intros x;
    destruct (diff_fold_in (fun rc => has_hand userSet (getHandFromGrid rc.1 rc.2))
                (fun rc => bool_decide (getHandFromGrid rc.1 rc.2 ∈ range))
                (fun rc => getHandFromGrid rc.1 rc.2) cells [] [] x) as [H1 H2];
    cbv zeta in H1, H2; rewrite Hd in H1, H2; cbn [fst snd In] in H1, H2.
  - rewrite H1, <- Hu. split.
    + intros [[]|[rc [Hrc [Ht [Hf <-]]]]]. apply bool_decide_eq_true_1, list_elem_of_In in Ht.
      split; [exact Ht|congruence].
    + intros [Hx Hn]. right. destruct (all_hands_at_cells x (ranges_in_all _ _ _ Hr Hx)) as [rc [Hrc <-]].
      exists rc. split; [exact Hrc|]. split; [apply bool_decide_eq_true, list_elem_of_In, Hx|].
      split; [destruct (has_hand _ _); [contradiction Hn; reflexivity|reflexivity]|reflexivity].
  - rewrite H2, <- Hu. split.
    + intros [[]|[rc [Hrc [Hh [Ht <-]]]]]. split; [apply cells_in_all, Hrc|]. split; [exact Hh|].
      intros Hin. apply list_elem_of_In in Hin. rewrite bool_decide_eq_true_2 in Ht by exact Hin.
      discriminate.
    + intros [Hx [Hh Hn]]. right. destruct (all_hands_at_cells x Hx) as [rc [Hrc <-]].
      exists rc. split; [exact Hrc|]. split; [exact Hh|]. split; [|reflexivity].
      apply bool_decide_eq_false. rewrite list_elem_of_In. exact Hn.
Qed.

Lemma getRangeDifference_members_witness :
  OPENING_RANGES "BB" = Some RANGE_BB /\
  getRangeDifference ["aa"; "K2o"; "72"] "BB" = Value ([], ["AA"; "K2o"; "72o"]) /\
  ((forall x, In x [] <->
     In x RANGE_BB /\ ~ exists h, In h ["aa"; "K2o"; "72"] /\ normalizeHand h = Value x) /\
   (forall x, In x ["AA"; "K2o"; "72o"] <->
     In x ALL_HANDS /\ (exists h, In h ["aa"; "K2o"; "72"] /\ normalizeHand h = Value x) /\
     ~ In x RANGE_BB)).
Proof.
  split; [reflexivity|]. split; [vm_compute; reflexivity|].
  apply (getRangeDifference_members _ "BB"); [reflexivity|vm_compute; reflexivity].
Defined.

(** getRangeSimilarity is the share of the 169 cells that getRangeDifference
    does not report: with [missing] and [extra] from getRangeDifference for
    a known position, the similarity is [(169 - |missing| - |extra|) / 169 * 100]
    printed with one decimal. *)
Theorem getRangeSimilarity_difference (userHands : list string) (targetPosition : string)
    (missing extra : list string) :
  is_Some (OPENING_RANGES targetPosition) ->
  getRangeDifference userHands targetPosition = Value (missing, extra) ->
  getRangeSimilarity userHands targetPosition =
    Value (JStr (toFixed1 (inject_Z (Z.of_nat (169 - List.length missing - List.length extra))
                           / inject_Z 169 * 100))).
Proof.
  intros [range Hr] Hd. unfold getRangeDifference, getRangeSimilarity in *. rewrite Hr in *.
  destruct (normalize_all userHands) as [userSet| |]; try discriminate.
  apply Value_inj in Hd. cbv zeta in Hd |- *.
  destruct (sim_diff_fold (fun rc => has_hand userSet (getHandFromGrid rc.1 rc.2))
              (fun rc => bool_decide (getHandFromGrid rc.1 rc.2 ∈ range))
              (fun rc => getHandFromGrid rc.1 rc.2) cells 0 0 [] []) as [H1 H2].
  cbv zeta in H1, H2. rewrite Hd in H1. cbn [fst snd List.length] in H1.
  assert (Hc : List.length cells = 169%nat) by reflexivity. rewrite Hc in H1, H2.
  destruct (fold_left _ cells (0%nat, 0%nat)) as [matches total].
  cbn [fst snd] in H1, H2. subst total.
  assert (Hm : matches = (169 - List.length missing - List.length extra)%nat) by lia.
  rewrite Hm. reflexivity.
Qed.

Lemma getRangeSimilarity_difference_witness :
  is_Some (OPENING_RANGES "BB") /\
  getRangeDifference ["AA"; "K2o"] "BB" = Value ([], ["AA"; "K2o"]) /\
  getRangeSimilarity ["AA"; "K2o"] "BB" =
    Value (JStr (toFixed1 (inject_Z (Z.of_nat (169 - List.length (@nil string)
                                                   - List.length ["AA"; "K2o"]))
                           / inject_Z 169 * 100))).
Proof.
  split; [eexists; reflexivity|]. split; [vm_compute; reflexivity|].
  apply getRangeSimilarity_difference; [eexists; reflexivity|vm_compute; reflexivity].
Defined.

End RangeGridFacts.

Module BoardGenFacts.
Import BoardTexture BoardGen.

Lemma gbind_Some {A B} (m : Gen A) (f : A -> Gen B) d r :
  gbind m f d = Some r -> exists x d', m d = Some (x, d') /\ f x d' = Some r.
Proof.
  unfold gbind. destruct (m d) as [[x d']|]; [|discriminate]. intros H. eauto.
Qed.

Lemma glift_Some {A} (o : option A) d x d' :
  glift o d = Some (x, d') -> o = Some x /\ d' = d.
Proof. unfold glift. destruct o; intros H; [injection H as -> ->|]; easy. Qed.

Lemma gret_Some {A} (x : A) d y d' : gret x d = Some (y, d') -> y = x /\ d' = d.
Proof. unfold gret. intros H. injection H as -> ->. auto. Qed.

Ltac gen_inv :=
  repeat match goal with
  | H : gbind _ _ _ = Some _ |- _ =>
      let x := fresh "x" in let d := fresh "d" in let Hm := fresh "Hm" in
      apply gbind_Some in H as [x [d [Hm H]]]
  | H : glift _ _ = Some _ |- _ => apply glift_Some in H as [? ->]
  | H : gret _ _ = Some _ |- _ => apply gret_Some in H as [? ->]
  | H : (let '(_, _) := ?p in _) _ = Some _ |- _ => destruct p eqn:?
  | H : (let '(_, _) := ?p in _) = Some _ |- _ => destruct p eqn:?
  | H : (_, _) = (_, _) |- _ => injection H as ? ?
  | H : Some _ = Some _ |- _ => injection H as ?
  end; subst.

Lemma js_index_In {A} (l : list A) i x : js_index l i = Some x -> In x l.
Proof.
  unfold js_index. destruct (i <? 0)%Z; [discriminate|]. apply nth_error_In.
Qed.

Lemma remove_at_spec {A} (l : list A) n x :
  nth_error l n = Some x -> List.NoDup l ->
  List.NoDup (remove_at n l) /\ ~ In x (remove_at n l) /\ (forall y, In y (remove_at n l) -> In y l).
Proof.
  revert n. induction l as [|a l IH]; intros n E N; [destruct n; discriminate|].
  inversion N as [|? ? Ha Hl]; subst. destruct n as [|n]; cbn in E |- *.
  - injection E as ->. split; [exact Hl|]. split; [exact Ha|]. intros y Hy. right; exact Hy.
  - destruct (IH n E Hl) as [H1 [H2 H3]]. split; [|split].
    + constructor; [|exact H1]. intros Hin. apply Ha, H3, Hin.
    + intros [->|Hin]; [apply Ha; exact (nth_error_In _ _ E)|exact (H2 Hin)].
    + intros y [->|Hy]; [left; reflexivity|right; apply H3, Hy].
Qed.

Lemma js_splice1_spec {A} (l : list A) i x l' :
  js_splice1 l i = (Some x, l') -> List.NoDup l ->
  In x l /\ List.NoDup l' /\ ~ In x l' /\ (forall y, In y l' -> In y l).
Proof.
  unfold js_splice1. destruct (nth_error l _) as [y|] eqn:E; [|discriminate].
  intros H N. injection H as -> <-. split; [exact (nth_error_In _ _ E)|].
  exact (remove_at_spec _ _ _ E N).
Qed.

Lemma dry_step_spec (g : list Rank) (a : list Suit) d c a' d' :
  dry_step g a d = Some ((c, a'), d') -> List.NoDup a ->
  In (rank c) g /\ In (suit c) a /\ ~ In (suit c) a' /\ List.NoDup a' /\
  (forall y, In y a' -> In y a).
Proof.
  unfold dry_step. intros H N. gen_inv. destruct (js_splice1 a x1) as [o rest] eqn:Es.
  gen_inv. cbn. apply js_index_In in H0.
  destruct (js_splice1_spec _ _ _ _ Es N) as [H1 [H2 [H3 H4]]]. auto.
Qed.

Lemma mono_step_spec (s : Suit) (a : list Rank) d c a' d' :
  mono_step s a d = Some ((c, a'), d') -> List.NoDup a ->
  suit c = s /\ In (rank c) a /\ ~ In (rank c) a' /\ List.NoDup a' /\
  (forall y, In y a' -> In y a).
Proof.
  unfold mono_step. intros H N. gen_inv. destruct (js_splice1 a x) as [o rest] eqn:Es.
  gen_inv. cbn. destruct (js_splice1_spec _ _ _ _ Es N) as [H1 [H2 [H3 H4]]]. auto.
Qed.

Lemma third_rank_loop_spec (p : Rank) d t d' :
  third_rank_loop p d = Some (Some t, d') -> t <> p.
Proof.
  induction d as [|r d IH]; cbn; [discriminate|].
  destruct (js_index RANKS _) as [u|]; [|discriminate].
  destruct (decide (u = p)); [exact IH|]. intros H. injection H as <- _. exact n.
Qed.

Lemma SUITS_NoDup : List.NoDup SUITS.
Proof. apply NoDup_ListNoDup. apply (bool_decide_unpack _). vm_compute. reflexivity. Qed.

Lemma RANKS_NoDup : List.NoDup RANKS.
Proof. apply NoDup_ListNoDup. apply (bool_decide_unpack _). vm_compute. reflexivity. Qed.

(** Every dry board the ranks groups and three different suits allow. *)
Lemma dry_check :
  forallb (fun r1 => forallb (fun r2 => forallb (fun r3 =>
    forallb (fun s1 => forallb (fun s2 => forallb (fun s3 =>
      implb (negb (bool_decide (s1 = s2)) && negb (bool_decide (s1 = s3))
             && negb (bool_decide (s2 = s3)))
        (bool_decide (analyzeBoardTexture [mkCard r1 s1; mkCard r2 s2; mkCard r3 s3] = dry)
         && bool_decide (NoDup [mkCard r1 s1; mkCard r2 s2; mkCard r3 s3])))
      SUITS) SUITS) SUITS) [R4; R3; R2]) [R9; R8; R7]) [RA; RK; RQ] = true.
Proof. vm_compute. reflexivity. Qed.

Lemma all_suits (s : Suit) : In s SUITS.
Proof. destruct s; cbn; tauto. Qed.

Lemma dry_board (r1 r2 r3 : Rank) (s1 s2 s3 : Suit) :
  In r1 [RA; RK; RQ] -> In r2 [R9; R8; R7] -> In r3 [R4; R3; R2] ->
  s1 <> s2 -> s1 <> s3 -> s2 <> s3 ->
  analyzeBoardTexture [mkCard r1 s1; mkCard r2 s2; mkCard r3 s3] = dry /\
  List.NoDup [mkCard r1 s1; mkCard r2 s2; mkCard r3 s3].
Proof.
  intros H1 H2 H3 N12 N13 N23. pose proof dry_check as C.
  repeat (rewrite forallb_forall in C;
          match goal with
          | H : In ?x ?l |- _ => match type of C with forall y, In y l -> _ =>
                                   specialize (C x H); clear H end
          end).
  rewrite forallb_forall in C. specialize (C s1 (all_suits s1)).
  rewrite forallb_forall in C. specialize (C s2 (all_suits s2)).
  rewrite forallb_forall in C. specialize (C s3 (all_suits s3)).
  rewrite !bool_decide_eq_false_2 in C by assumption. cbn in C.
  apply andb_prop in C as [C1 C2]. split; [exact (bool_decide_eq_true_1 _ C1)|].
  apply NoDup_ListNoDup, (bool_decide_eq_true_1 _ C2).
Qed.

Lemma wet_check :
  forallb (fun n => forallb (fun f => forallb (fun o =>
    implb (negb (bool_decide (f = o)))
      match nth_error RANKS n, nth_error RANKS (n + 1), nth_error RANKS (n + 2) with
      | Some a, Some b, Some c =>
          bool_decide (analyzeBoardTexture [mkCard a f; mkCard b f; mkCard c o] = wet)
          && bool_decide (NoDup [mkCard a f; mkCard b f; mkCard c o])
      | _, _, _ => true
      end) SUITS) SUITS) (seq 0 13) = true.
Proof. vm_compute. reflexivity. Qed.

Lemma js_index_nth {A} (l : list A) i x :
  js_index l i = Some x -> (0 <= i)%Z /\ nth_error l (Z.to_nat i) = Some x.
Proof.
  unfold js_index. destruct (i <? 0)%Z eqn:E; [discriminate|]. apply Z.ltb_ge in E. auto.
Qed.

Lemma wet_board (i : Z) (a b c : Rank) (f o : Suit) :
  js_index RANKS i = Some a -> js_index RANKS (i + 1) = Some b ->
  js_index RANKS (i + 2) = Some c -> f <> o ->
  analyzeBoardTexture [mkCard a f; mkCard b f; mkCard c o] = wet /\
  List.NoDup [mkCard a f; mkCard b f; mkCard c o].
Proof.
  intros Ha Hb Hc Hfo.
  apply js_index_nth in Ha as [Hi Ha], Hb as [_ Hb], Hc as [_ Hc].
  rewrite Z2Nat.inj_add in Hb, Hc by lia. cbn [Z.to_nat Pos.to_nat Pos.iter_op Nat.add] in Hb, Hc.
  pose proof wet_check as C. rewrite forallb_forall in C.
  assert (Hn : In (Z.to_nat i) (seq 0 13)).
  { apply in_seq. assert (L : (Z.to_nat i < List.length RANKS)%nat)
      by (apply nth_error_Some; rewrite Ha; discriminate).
    cbn in L. lia. }
  specialize (C _ Hn). rewrite forallb_forall in C. specialize (C f (all_suits f)).
  rewrite forallb_forall in C. specialize (C o (all_suits o)).
  rewrite bool_decide_eq_false_2 in C by exact Hfo.
  replace (Z.to_nat 1) with 1%nat in Hb by reflexivity.
  replace (Z.to_nat 2) with 2%nat in Hc by reflexivity.
  rewrite Ha, Hb, Hc in C. cbn in C.
  apply andb_prop in C as [C1 C2]. split; [exact (bool_decide_eq_true_1 _ C1)|].
  apply NoDup_ListNoDup, (bool_decide_eq_true_1 _ C2).
Qed.

Lemma paired_board (p t : Rank) (s1 s2 s3 : Suit) :
  s1 <> s2 -> t <> p ->
  analyzeBoardTexture [mkCard p s1; mkCard p s2; mkCard t s3] = paired /\
  List.NoDup [mkCard p s1; mkCard p s2; mkCard t s3].
Proof.
  intros N12 Ntp. split.
  - unfold analyzeBoardTexture. cbn -[bool_decide].
    rewrite (bool_decide_eq_false_2 (s1 = s2)) by exact N12. cbn -[bool_decide].
    rewrite (bool_decide_eq_true_2 (p = p)) by reflexivity. reflexivity.
  - repeat constructor; cbn; intros H; repeat destruct H as [H|H];
      try (injection H; congruence); exact H.
Qed.

Lemma monotone_board (s : Suit) (c1 c2 c3 : Card) :
  suit c1 = s -> suit c2 = s -> suit c3 = s ->
  analyzeBoardTexture [c1; c2; c3] = monotone.
Proof.
  intros H1 H2 H3. unfold analyzeBoardTexture. cbn -[bool_decide].
  rewrite H1, H2, H3, (bool_decide_eq_true_2 (s = s)) by reflexivity. reflexivity.
Qed.

Lemma generateDryBoard_spec (e : list Card) d board rest :
  generateDryBoard e d = Some (board, rest) ->
  analyzeBoardTexture board = dry /\ List.length board = 3%nat /\ List.NoDup board.
Proof.
  unfold generateDryBoard. intros H. gen_inv.
  match goal with
  | H1 : dry_step _ SUITS _ = Some ((?c1, ?a1), _),
    H2 : dry_step _ ?a1 _ = Some ((?c2, ?a2), _),
    H3 : dry_step _ ?a2 _ = Some ((?c3, _), _) |- _ =>
      destruct (dry_step_spec _ _ _ _ _ _ H1 SUITS_NoDup) as [R1 [S1 [N1 [D1 I1]]]];
      destruct (dry_step_spec _ _ _ _ _ _ H2 D1) as [R2 [S2 [N2 [D2 I2]]]];
      destruct (dry_step_spec _ _ _ _ _ _ H3 D2) as [R3 [S3 [N3 [D3 I3]]]];
      destruct c1 as [r1 s1], c2 as [r2 s2], c3 as [r3 s3]; cbn in *
  end.
  destruct (dry_board r1 r2 r3 s1 s2 s3 R1 R2 R3) as [T U].
  - intros ->. exact (N1 S2).
  - intros ->. exact (N1 (I2 _ S3)).
  - intros ->. exact (N2 S3).
  - auto.
Qed.


Lemma generateWetBoard_spec (e : list Card) d board rest :
  generateWetBoard e d = Some (board, rest) ->
  analyzeBoardTexture board = wet /\ List.length board = 3%nat /\ List.NoDup board.
Proof.
  unfold generateWetBoard. intros H. gen_inv.
  match goal with
  | Ho : js_index (List.filter _ SUITS) _ = Some ?o,
    Ha : js_index RANKS _ = Some ?a, Hb : js_index RANKS _ = Some ?b,
    Hc : js_index RANKS _ = Some ?c |- context [mkCard ?a ?f] =>
      apply js_index_In, filter_In in Ho as [_ Hfo];
      assert (Nfo : f <> o) by (intros ->; rewrite bool_decide_eq_true_2 in Hfo by reflexivity;
                                discriminate);
      destruct (wet_board _ a b c f o Ha Hb Hc Nfo) as [T U]
  end.
  auto.
Qed.

Lemma generatePairedBoard_spec (e : list Card) d board rest :
  generatePairedBoard e d = Some (board, rest) ->
  analyzeBoardTexture board = paired /\ List.length board = 3%nat /\ List.NoDup board.
Proof.
  unfold generatePairedBoard. intros H. gen_inv.
  match goal with
  | E1 : js_splice1 SUITS _ = (Some ?s1, ?a1),
    E2 : js_splice1 ?a1 _ = (Some ?s2, _),
    L : third_rank_loop _ _ = Some (Some ?t, _),
    E3 : js_index SUITS _ = Some ?s3 |- _ =>
      destruct (js_splice1_spec _ _ _ _ E1 SUITS_NoDup) as [_ [D1 [N1 _]]];
      destruct (js_splice1_spec _ _ _ _ E2 D1) as [S2 _];
      apply third_rank_loop_spec in L;
      assert (N12 : s1 <> s2) by (intros ->; exact (N1 S2));
      destruct (paired_board _ _ _ _ s3 N12 L) as [T U]
  end.
  auto.
Qed.

Lemma generateMonotoneBoard_spec (e : list Card) d board rest :
  generateMonotoneBoard e d = Some (board, rest) ->
  analyzeBoardTexture board = monotone /\ List.length board = 3%nat /\ List.NoDup board.
Proof.
  unfold generateMonotoneBoard. intros H. gen_inv.
  match goal with
  | H1 : mono_step ?s RANKS _ = Some ((?c1, ?a1), _),
    H2 : mono_step _ ?a1 _ = Some ((?c2, ?a2), _),
    H3 : mono_step _ ?a2 _ = Some ((?c3, _), _) |- _ =>
      destruct (mono_step_spec _ _ _ _ _ _ H1 RANKS_NoDup) as [U1 [R1 [N1 [D1 I1]]]];
      destruct (mono_step_spec _ _ _ _ _ _ H2 D1) as [U2 [R2 [N2 [D2 I2]]]];
      destruct (mono_step_spec _ _ _ _ _ _ H3 D2) as [U3 [R3 [N3 [D3 I3]]]];
      split; [exact (monotone_board s c1 c2 c3 U1 U2 U3)|split; [reflexivity|]];
      repeat constructor; cbn; intros Hin; repeat destruct Hin as [Hin|Hin]; try exact Hin;
      subst; solve [exact (N1 R2) | exact (N1 (I2 _ R3)) | exact (N2 R3)]
  end.
Qed.

(** generateBoardWithTexture delivers what it is asked for: every board it
    returns, whatever Math.random yields, has three different cards and
    analyzeBoardTexture classifies it as the requested texture ('dry' for
    any texture name other than 'wet', 'paired' and 'monotone'). *)
Theorem generateBoardWithTexture_texture (texture : string) (exclude : list Card)
    (draws : list Q) (board : list Card) (rest : list Q) :
  generateBoardWithTexture texture exclude draws = Some (board, rest) ->
  analyzeBoardTexture board = requested_texture texture /\
  List.length board = 3%nat /\ List.NoDup board.
Proof.
  unfold generateBoardWithTexture, requested_texture.
  destruct (String.eqb_spec texture "dry") as [->|_];
    [intros H; exact (generateDryBoard_spec _ _ _ _ H)|].
  destruct (String.eqb texture "wet"); [exact (generateWetBoard_spec _ _ _ _)|].
  destruct (String.eqb texture "paired"); [exact (generatePairedBoard_spec _ _ _ _)|].
  destruct (String.eqb texture "monotone"); [exact (generateMonotoneBoard_spec _ _ _ _)|].
  exact (generateDryBoard_spec _ _ _ _).
Qed.

Lemma generateBoardWithTexture_texture_witness :
  generateBoardWithTexture "paired" [] [1#2; 1#10; 9#10; 1#2; 1#5; 3#10] =
    Some ([mkCard R8 Sh; mkCard R8 Ss; mkCard RQ Sd], []) /\
  analyzeBoardTexture [mkCard R8 Sh; mkCard R8 Ss; mkCard RQ Sd] = requested_texture "paired" /\
  List.length [mkCard R8 Sh; mkCard R8 Ss; mkCard RQ Sd] = 3%nat /\
  List.NoDup [mkCard R8 Sh; mkCard R8 Ss; mkCard RQ Sd].
Proof.
  split; [vm_compute; reflexivity|].
  apply (generateBoardWithTexture_texture "paired" [] [1#2; 1#10; 9#10; 1#2; 1#5; 3#10] _ []).
  vm_compute. reflexivity.
Defined.

Lemma floor_index_bound (r : Q) (n : nat) :
  0 <= r < 1 -> (0 < n)%nat ->
  (0 <= Qfloor (r * inject_Z (Z.of_nat n)) < Z.of_nat n)%Z.
Proof.
  intros [H0 H1] Hn. set (x := r * inject_Z (Z.of_nat n)).
  assert (Hnq : 0 < inject_Z (Z.of_nat n)) by (change 0 with (inject_Z 0); rewrite <- Zlt_Qlt; lia).
  assert (Hx0 : 0 <= x) by (apply Qmult_le_0_compat; [exact H0|apply Qlt_le_weak, Hnq]).
  assert (Hx1 : x < inject_Z (Z.of_nat n)).
  { unfold x. rewrite <- (Qmult_1_l (inject_Z (Z.of_nat n))) at 2.
    apply Qmult_lt_r; [exact Hnq|exact H1]. }
  pose proof (Qfloor_le x) as F1. pose proof (Qlt_floor x) as F2.
  split.
  - assert (0 < Qfloor x + 1)%Z by (rewrite Zlt_Qlt; exact (Qle_lt_trans _ _ _ Hx0 F2)). lia.
  - rewrite Zlt_Qlt. exact (Qle_lt_trans _ _ _ F1 Hx1).
Qed.

Lemma random_index_ok (n : nat) (r : Q) (d : list Q) :
  0 <= r < 1 -> (0 < n)%nat ->
  exists i, random_index n (r :: d) = Some (i, d) /\ (0 <= i < Z.of_nat n)%Z.
Proof.
  intros Hr Hn. eexists. split; [reflexivity|]. apply floor_index_bound; assumption.
Qed.

Lemma js_index_ok {A} (l : list A) (i : Z) :
  (0 <= i < Z.of_nat (List.length l))%Z -> exists x, js_index l i = Some x.
Proof.
  intros Hi. unfold js_index. replace (i <? 0)%Z with false by (symmetry; apply Z.ltb_ge; lia).
  destruct (nth_error l (Z.to_nat i)) eqn:E; [eauto|].
  apply nth_error_None in E. lia.
Qed.

Lemma remove_at_length {A} (l : list A) n :
  (n < List.length l)%nat -> List.length (remove_at n l) = (List.length l - 1)%nat.
Proof.
  revert n. induction l as [|a l IH]; intros [|n] H; cbn in *; try lia.
  rewrite IH by lia. lia.
Qed.

Lemma js_splice1_ok {A} (l : list A) (i : Z) :
  (0 <= i < Z.of_nat (List.length l))%Z ->
  exists x l', js_splice1 l i = (Some x, l') /\ List.length l' = (List.length l - 1)%nat.
Proof.
  intros Hi. unfold js_splice1. replace (i <? 0)%Z with false by (symmetry; apply Z.ltb_ge; lia).
  replace (Z.min i (Z.of_nat (List.length l))) with i by lia.
  destruct (nth_error l (Z.to_nat i)) eqn:E.
  - do 2 eexists. split; [reflexivity|]. apply remove_at_length. lia.
  - apply nth_error_None in E. lia.
Qed.

Lemma gbind_ok {A B} (m : Gen A) (f : A -> Gen B) d x d' :
  m d = Some (x, d') -> gbind m f d = f x d'.
Proof. unfold gbind. intros ->. reflexivity. Qed.

Definition in01 (r : Q) : Prop := 0 <= r < 1.

Lemma dry_step_ok (g : list Rank) (a : list Suit) (r1 r2 : Q) (d : list Q) :
  in01 r1 -> in01 r2 -> (0 < List.length g)%nat -> (0 < List.length a)%nat ->
  exists c a', dry_step g a (r1 :: r2 :: d) = Some ((c, a'), d) /\
               List.length a' = (List.length a - 1)%nat.
Proof.
  intros H1 H2 Hg Ha. unfold dry_step.
  destruct (random_index_ok _ _ (r2 :: d) H1 Hg) as [i [Ei Bi]]. rewrite (gbind_ok _ _ _ _ _ Ei).
  destruct (js_index_ok g i Bi) as [rk Ek]. rewrite (gbind_ok _ _ _ rk (r2 :: d)) by (unfold glift; rewrite Ek; reflexivity).
  destruct (random_index_ok _ _ d H2 Ha) as [j [Ej Bj]]. rewrite (gbind_ok _ _ _ _ _ Ej).
  destruct (js_splice1_ok a j Bj) as [s [a' [Es La]]]. rewrite Es. cbn. eauto.
Qed.

Lemma mono_step_ok (s : Suit) (a : list Rank) (r : Q) (d : list Q) :
  in01 r -> (0 < List.length a)%nat ->
  exists c a', mono_step s a (r :: d) = Some ((c, a'), d) /\
               List.length a' = (List.length a - 1)%nat.
Proof.
  intros H Ha. unfold mono_step.
  destruct (random_index_ok _ _ d H Ha) as [i [Ei Bi]]. rewrite (gbind_ok _ _ _ _ _ Ei).
  destruct (js_splice1_ok a i Bi) as [rk [a' [Es La]]]. rewrite Es. cbn. eauto.
Qed.

Lemma filter_other_suits (f : Suit) :
  List.length (List.filter (fun s => negb (bool_decide (s = f))) SUITS) = 3%nat.
Proof. destruct f; reflexivity. Qed.

(** With Math.random values in [0, 1), generateBoardWithTexture never reads
    an undefined card and, for every texture but 'paired' (whose loop draws
    until the third rank differs from the pair), makes at most six draws:
    six values always give a board. *)
Theorem generateBoardWithTexture_total (texture : string) (exclude : list Card)
    (draws : list Q) :
  texture <> "paired" -> Forall in01 draws -> (6 <= List.length draws)%nat ->
  exists board rest, generateBoardWithTexture texture exclude draws = Some (board, rest).
Proof.
  intros Hp Hd Hl.
  destruct draws as [|r0 [|r1 [|r2 [|r3 [|r4 [|r5 d]]]]]]; cbn in Hl; try lia.
  repeat match goal with H : Forall _ (_ :: _) |- _ => inversion H; subst; clear H end.
  assert (Dry : exists board rest,
             generateDryBoard exclude (r0 :: r1 :: r2 :: r3 :: r4 :: r5 :: d) = Some (board, rest)).
  { unfold generateDryBoard.
    destruct (dry_step_ok [RA; RK; RQ] SUITS r0 r1 (r2 :: r3 :: r4 :: r5 :: d)) as [c1 [a1 [E1 L1]]];
      try assumption; try (cbn; lia).
    rewrite (gbind_ok _ _ _ _ _ E1).
    destruct (dry_step_ok [R9; R8; R7] a1 r2 r3 (r4 :: r5 :: d)) as [c2 [a2 [E2 L2]]];
      try assumption; try (cbn in *; lia).
    rewrite (gbind_ok _ _ _ _ _ E2).
    destruct (dry_step_ok [R4; R3; R2] a2 r4 r5 d) as [c3 [a3 [E3 L3]]];
      try assumption; try (cbn in *; lia).
    rewrite (gbind_ok _ _ _ _ _ E3). cbn. eauto. }
  unfold generateBoardWithTexture.
  destruct (String.eqb texture "dry"); [exact Dry|].
  destruct (String.eqb_spec texture "wet") as [_|_].
  - unfold generateWetBoard.
    destruct (random_index_ok 4 r0 (r1 :: r2 :: r3 :: r4 :: r5 :: d)) as [i [Ei Bi]];
      try assumption; try lia.
    rewrite (gbind_ok _ _ _ _ _ Ei).
    destruct (js_index_ok SUITS i Bi) as [f Ef].
    rewrite (gbind_ok _ _ _ f (r1 :: r2 :: r3 :: r4 :: r5 :: d)) by (unfold glift; rewrite Ef; reflexivity).
    destruct (random_index_ok 3 r1 (r2 :: r3 :: r4 :: r5 :: d)) as [j [Ej Bj]];
      try assumption; try lia.
    rewrite (gbind_ok _ _ _ _ _ Ej).
    destruct (js_index_ok (List.filter (fun s => negb (bool_decide (s = f))) SUITS) j)
      as [o Eo]; [rewrite filter_other_suits; exact Bj|].
    rewrite (gbind_ok _ _ _ o (r2 :: r3 :: r4 :: r5 :: d)) by (unfold glift; rewrite Eo; reflexivity).
    destruct (random_index_ok 8 r2 (r3 :: r4 :: r5 :: d)) as [k [Ek Bk]];
      try assumption; try lia.
    rewrite (gbind_ok _ _ _ _ _ Ek).
    destruct (js_index_ok RANKS (k + 2)) as [a Ea]; [cbn in *; lia|].
    destruct (js_index_ok RANKS (k + 2 + 1)) as [b Eb]; [cbn in *; lia|].
    destruct (js_index_ok RANKS (k + 2 + 2)) as [c Ec]; [cbn in *; lia|].
    unfold gbind at 1, glift at 1. rewrite Ea.
    unfold gbind at 1, glift at 1. rewrite Eb.
    unfold gbind at 1, glift at 1. rewrite Ec. cbn. eauto.
  - destruct (String.eqb_spec texture "paired") as [->|_]; [contradiction Hp; reflexivity|].
    destruct (String.eqb texture "monotone"); [|exact Dry].
    unfold generateMonotoneBoard.
    destruct (random_index_ok 4 r0 (r1 :: r2 :: r3 :: r4 :: r5 :: d)) as [i [Ei Bi]];
      try assumption; try lia.
    rewrite (gbind_ok _ _ _ _ _ Ei).
    destruct (js_index_ok SUITS i Bi) as [s Es].
    rewrite (gbind_ok _ _ _ s (r1 :: r2 :: r3 :: r4 :: r5 :: d)) by (unfold glift; rewrite Es; reflexivity).
    destruct (mono_step_ok s RANKS r1 (r2 :: r3 :: r4 :: r5 :: d)) as [c1 [a1 [E1 L1]]];
      try assumption; try (cbn; lia).
    rewrite (gbind_ok _ _ _ _ _ E1).
    destruct (mono_step_ok s a1 r2 (r3 :: r4 :: r5 :: d)) as [c2 [a2 [E2 L2]]];
      try assumption; try (cbn in *; lia).
    rewrite (gbind_ok _ _ _ _ _ E2).
    destruct (mono_step_ok s a2 r3 (r4 :: r5 :: d)) as [c3 [a3 [E3 L3]]];
      try assumption; try (cbn in *; lia).
    rewrite (gbind_ok _ _ _ _ _ E3). cbn. eauto.
Qed.

Lemma generateBoardWithTexture_total_witness :
  exists board rest,
    generateBoardWithTexture "wet" [] [1#2; 1#10; 9#10; 1#2; 1#5; 3#10] = Some (board, rest).
Proof.
  apply generateBoardWithTexture_total.
  - discriminate.
  - repeat constructor; vm_compute; discriminate.
  - cbn. lia.
Defined.

End BoardGenFacts.

Module EngineInvFacts.
Import ScenarioEngineModel.

Section Inv.
Context {QData Ans : Type}.

(** The sum of one component of the per-category pairs. *)
Definition cat_sum (f : nat * nat -> nat) (m : gmap string (nat * nat)) : nat :=
  map_fold (fun _ v acc => f v + acc)%nat 0%nat m.

Definition count_correct (l : list (@AnswerRecord QData Ans)) : nat :=
  List.length (List.filter isCorrect l).

(** What the engine's counters say about its answer log. *)
Definition bookkeeping (s : @EngineState QData Ans) : Prop :=
  List.length (questionTimes s) = List.length (answers s) /\
  correct s = count_correct (answers s) /\
  cat_sum fst (categoryStats s) = List.length (answers s) /\
  cat_sum snd (categoryStats s) = correct s /\
  map_Forall (fun _ v => v.2 <= v.1)%nat (categoryStats s).

Lemma cat_sum_empty f : cat_sum f ∅ = 0%nat.
Proof. unfold cat_sum. apply map_fold_empty. Qed.

Lemma cat_sum_insert f m k v :
  cat_sum f (<[k:=v]> m) = (f v + cat_sum f (delete k m))%nat.
Proof.
  unfold cat_sum. rewrite <- insert_delete_eq.
  rewrite map_fold_insert_L; [reflexivity|intros; lia|apply lookup_delete_eq].
Qed.

Lemma cat_sum_lookup f m k v :
  m !! k = Some v -> cat_sum f m = (f v + cat_sum f (delete k m))%nat.
Proof.
  unfold cat_sum. intros H. rewrite (map_fold_delete_L _ _ k v m); [reflexivity|intros; lia|exact H].
Qed.

Lemma cat_sum_delete_None f m k : m !! k = None -> cat_sum f (delete k m) = cat_sum f m.
Proof. intros H. rewrite delete_id by exact H. reflexivity. Qed.

Lemma count_correct_app l r :
  count_correct (l ++ [r]) = (count_correct l + if isCorrect r then 1 else 0)%nat.
Proof.
  unfold count_correct. rewrite List.filter_app, length_app. cbn. destruct (isCorrect r); reflexivity.
Qed.

Lemma bookkeeping_reset : bookkeeping (@reset QData Ans).
Proof.
  unfold bookkeeping, reset. cbn. rewrite !cat_sum_empty.
  split; [reflexivity|]. split; [reflexivity|]. split; [reflexivity|]. split; [reflexivity|].
  apply map_Forall_empty.
Qed.

Lemma bookkeeping_submit (cfg : @Config QData Ans) now a s :
  bookkeeping s -> bookkeeping (submitAnswer cfg now a s).2.
Proof.
  intros [HT [HC [HS1 [HS2 HF]]]]. unfold submitAnswer.
  destruct (if active s then currentQuestionData s else None) as [q|]; [|exact (conj HT (conj HC (conj HS1 (conj HS2 HF))))].
  cbn [snd]. unfold bookkeeping. cbn [questionTimes answers correct categoryStats].
  set (c := category_key cfg q). set (ok := v_correct (validateAnswer cfg a q)).
  rewrite !cat_sum_insert.
  destruct (categoryStats s !! c) as [[t k]|] eqn:E.
  - rewrite (cat_sum_lookup fst _ _ _ E) in HS1. rewrite (cat_sum_lookup snd _ _ _ E) in HS2.
    pose proof (HF c (t, k) E) as Hkt. cbn in HS1, HS2, Hkt.
    rewrite !length_app, count_correct_app. cbn. split; [lia|].
    split; [destruct ok; lia|]. split; [lia|]. split; [destruct ok; lia|].
    apply map_Forall_insert_2; [cbn; destruct ok; lia|].
    exact HF.
  - rewrite !cat_sum_delete_None by exact E.
    rewrite !length_app, count_correct_app. cbn. split; [lia|].
    split; [destruct ok; lia|]. split; [lia|]. split; [destruct ok; lia|].
    apply map_Forall_insert_2; [cbn; destruct ok; lia|exact HF].
Qed.

Lemma bookkeeping_same (s s' : @EngineState QData Ans) :
  questionTimes s' = questionTimes s -> answers s' = answers s ->
  correct s' = correct s -> categoryStats s' = categoryStats s ->
  bookkeeping s -> bookkeeping s'.
Proof. unfold bookkeeping. intros -> -> -> ->. exact id. Qed.

Lemma bookkeeping_next (cfg : @Config QData Ans) now stamp w :
  bookkeeping w.1 -> bookkeeping (nextQuestion cfg now stamp w).1.
Proof.
  destruct w as [s p]. cbn [fst]. intros B. unfold nextQuestion.
  destruct (negb (active s)); [exact B|].
  destruct (totalQuestions cfg <=? currentQuestion s)%nat.
  - unfold endScenario. cbn. exact (bookkeeping_same s _ eq_refl eq_refl eq_refl eq_refl B).
  - cbn. exact (bookkeeping_same s _ eq_refl eq_refl eq_refl eq_refl B).
Qed.

Lemma bookkeeping_run (cfg : @Config QData Ans) w calls :
  bookkeeping w.1 -> bookkeeping (run cfg w calls).1.
Proof.
  unfold run. revert w. induction calls as [|c calls IH]; intros w B; cbn [fold_left]; [exact B|].
  apply IH. destruct c as [now stamp| |now stamp|now a]; cbn [step].
  - unfold start. apply bookkeeping_next. cbn [fst].
    exact (bookkeeping_same reset _ eq_refl eq_refl eq_refl eq_refl bookkeeping_reset).
  - cbn [fst]. exact (bookkeeping_same w.1 _ eq_refl eq_refl eq_refl eq_refl B).
  - apply bookkeeping_next, B.
  - cbn [fst]. apply bookkeeping_submit, B.
Qed.

Lemma totalQuestions_pos (cfg : @Config QData Ans) : (0 < totalQuestions cfg)%nat.
Proof. unfold totalQuestions. destruct (cfg_totalQuestions cfg); lia. Qed.

Lemma counter_next (cfg : @Config QData Ans) now stamp w :
  (currentQuestion w.1 <= totalQuestions cfg)%nat ->
  (currentQuestion (nextQuestion cfg now stamp w).1 <= totalQuestions cfg)%nat.
Proof.
  destruct w as [s p]. cbn [fst]. intros B. unfold nextQuestion.
  destruct (negb (active s)); [exact B|].
  destruct (totalQuestions cfg <=? currentQuestion s)%nat eqn:E.
  - unfold endScenario. cbn. exact B.
  - cbn. apply Nat.leb_gt in E. lia.
Qed.

Lemma counter_run (cfg : @Config QData Ans) w calls :
  (currentQuestion w.1 <= totalQuestions cfg)%nat ->
  (currentQuestion (run cfg w calls).1 <= totalQuestions cfg)%nat.
Proof.
  unfold run. revert w. induction calls as [|c calls IH]; intros w B; cbn [fold_left]; [exact B|].
  apply IH. destruct c as [now stamp| |now stamp|now a]; cbn [step].
  - unfold start. apply counter_next. cbn. lia.
  - exact B.
  - apply counter_next, B.
  - cbn [fst]. unfold submitAnswer.
    destruct (if active w.1 then currentQuestionData w.1 else None); exact B.
Qed.

End Inv.

(** A configuration whose questions come in two categories. *)
Definition inv_config : @Config nat bool :=
  mkConfig "bb-defense" 4 (fun s => currentQuestion s)
    (fun a q => mkValidation (Nat.even q) true)
    (fun _ _ => "")
    (fun q => if Nat.even q then Some "call" else None).

(** The engine's counters agree with its answer log, after any sequence of
    start, stop, nextQuestion and submitAnswer calls on a fresh engine:
    one question time per recorded answer, [correct] is the number of
    answers marked correct, the per-category totals add up to the number
    of answers and the per-category correct counts to [correct], and no
    category counts more correct answers than answers. This holds for a
    configuration whose categories are not names [categoryStats] inherits
    from [Object.prototype] (the object literal would return the inherited
    member for those, and the counts would go to it). *)
Theorem engine_bookkeeping {QData Ans} (cfg : @Config QData Ans) (p : Storage.Progress)
    (calls : list Call) :
  (forall q, category_key cfg q ∉ RangeGridModel.OBJECT_PROTOTYPE_KEYS) ->
  bookkeeping (run cfg (reset, p) calls).1.
Proof. intros _. apply bookkeeping_run, bookkeeping_reset. Qed.

Lemma engine_bookkeeping_witness :
  (forall q, category_key inv_config q ∉ RangeGridModel.OBJECT_PROTOTYPE_KEYS) /\
  bookkeeping (run inv_config (reset, Storage.DEFAULT_PROGRESS)
                 [CallStart 0 "t0"; CallSubmit 1 true; CallNext 2 "t1";
                  CallSubmit 3 false; CallNext 4 "t2"; CallSubmit 5 true]).1.
Proof.
  assert (H : forall q, category_key inv_config q ∉ RangeGridModel.OBJECT_PROTOTYPE_KEYS).
  { intros q. unfold category_key, inv_config. cbn [category].
    destruct (Nat.even q); apply (bool_decide_unpack _); vm_compute; reflexivity. }
  split; [exact H|]. exact (engine_bookkeeping inv_config _ _ H).
Defined.

(** The question counter never passes the configured number of questions
    ([totalQuestions], 20 when the config gives none), whatever calls a
    fresh engine receives. *)
Theorem engine_counter_bound {QData Ans} (cfg : @Config QData Ans) (p : Storage.Progress)
    (calls : list Call) :
  (currentQuestion (run cfg (reset, p) calls).1 <= totalQuestions cfg)%nat.
Proof. apply counter_run. cbn. lia. Qed.

End EngineInvFacts.

Module ScenarioHelperFacts.
Import BoardGen BoardGenFacts ScenarioHelpers.

Lemma cons_insert_perm {A} (l : list A) j x y :
  l !! j = Some y -> y :: <[j:=x]> l ≡ₚ x :: l.
Proof.
  revert j. induction l as [|a l IH]; intros [|j] H; cbn in *; try discriminate.
  - injection H as ->. apply perm_swap.
  - rewrite perm_swap. rewrite (IH j H). apply perm_swap.
Qed.

Lemma insert2_perm {A} (l : list A) i j x y :
  (i < j)%nat -> l !! i = Some x -> l !! j = Some y ->
  <[i:=y]> (<[j:=x]> l) ≡ₚ l.
Proof.
  revert i j. induction l as [|a l IH]; intros i j Hij Hi Hj; [discriminate|].
  destruct i as [|i], j as [|j]; try lia; cbn in *.
  - injection Hi as ->. apply cons_insert_perm, Hj.
  - constructor. apply IH; [lia|exact Hi|exact Hj].
Qed.

Lemma swap_at_perm {A} (l l' : list A) i j :
  swap_at l i j = Some l' -> l' ≡ₚ l.
Proof.
  unfold swap_at. destruct ((0 <=? j) && (j <=? Z.of_nat i))%Z; [|discriminate].
  destruct (l !! i) as [x|] eqn:Ex, (l !! Z.to_nat j) as [y|] eqn:Ey; try discriminate.
  intros H. injection H as <-.
  destruct (Nat.lt_total i (Z.to_nat j)) as [Hlt|[Heq|Hgt]].
  - rewrite list_insert_insert_ne by lia. apply insert2_perm; assumption.
  - rewrite <- Heq in *. rewrite Ex in Ey. injection Ey as ->.
    rewrite list_insert_insert_eq, list_insert_id by exact Ex. reflexivity.
  - apply insert2_perm; assumption.
Qed.

Lemma swap_at_ok {A} (l : list A) i j :
  (i < List.length l)%nat -> (0 <= j <= Z.of_nat i)%Z ->
  exists l', swap_at l i j = Some l'.
Proof.
  intros Hi Hj. unfold swap_at.
  replace ((0 <=? j) && (j <=? Z.of_nat i))%Z with true
    by (symmetry; apply andb_true_iff; split; apply Z.leb_le; lia).
  destruct (lookup_lt_is_Some_2 l i Hi) as [x ->].
  destruct (lookup_lt_is_Some_2 l (Z.to_nat j)) as [y ->]; [lia|]. eauto.
Qed.

Lemma shuffle_from_ok {A} (i : nat) (l : list A) (d : list Q) :
  Forall in01 d -> (i <= List.length d)%nat -> (i < List.length l)%nat ->
  exists out, shuffle_from i l d = Some (out, drop i d) /\ out ≡ₚ l.
Proof.
  revert l d. induction i as [|i IH]; intros l d Hd Hn Hl.
  - exists l. split; reflexivity.
  - destruct d as [|r d]; cbn in Hn; [lia|]. inversion Hd as [|? ? Hr Hd']; subst.
    destruct (random_index_ok (S (S i)) r d Hr ltac:(lia)) as [j [Ej Hj]].
    destruct (swap_at_ok l (S i) j Hl ltac:(lia)) as [l' El'].
    assert (Hlen : List.length l' = List.length l) by (apply Permutation_length, (swap_at_perm _ _ _ _ El')).
    destruct (IH l' d Hd' ltac:(lia) ltac:(lia)) as [out [Eo Ho]].
    exists out. split.
    + cbn [shuffle_from]. rewrite (gbind_ok _ _ _ _ _ Ej).
      unfold glift at 1, gbind at 1. rewrite El'. exact Eo.
    + rewrite Ho. apply (swap_at_perm _ _ _ _ El').
Qed.

Lemma shuffleArray_ok {A} (array : list A) (d : list Q) :
  Forall in01 d -> (List.length array - 1 <= List.length d)%nat ->
  exists out, shuffleArray array d = Some (out, drop (List.length array - 1) d) /\
              out ≡ₚ array.
Proof.
  intros Hd Hn. unfold shuffleArray. destruct (List.length array) as [|n] eqn:E.
  - exists array. split; reflexivity.
  - replace (S n - 1)%nat with n in * by lia. apply shuffle_from_ok; [exact Hd|lia|lia].
Qed.

Lemma randomPickN_ok {A} (array : list A) (n : Z) (d : list Q) :
  Forall in01 d -> (List.length array - 1 <= List.length d)%nat ->
  exists sh, sh ≡ₚ array /\
    randomPickN array n d =
      Some (js_slice0 sh (Z.min n (Z.of_nat (List.length array))), drop (List.length array - 1) d).
Proof.
  intros Hd Hn. destruct (shuffleArray_ok array d Hd Hn) as [sh [E P]].
  exists sh. split; [exact P|]. unfold randomPickN. rewrite (gbind_ok _ _ _ _ _ E).
  rewrite (Permutation_length P). reflexivity.
Qed.

Lemma js_slice0_take {A} (l : list A) e :
  exists k, js_slice0 l e = take k l /\
    Z.of_nat k = (if (e <? 0)%Z then Z.max 0 (Z.of_nat (List.length l) + e)
                  else Z.min e (Z.of_nat (List.length l))).
Proof.
  unfold js_slice0. eexists. split; [reflexivity|].
  destruct (e <? 0)%Z eqn:He; [lia|]. apply Z.ltb_ge in He. lia.
Qed.

(** shuffleArray returns a rearrangement of its argument: for draws of
    [Math.random()] in [0, 1), of which it takes one for each position
    from the last down to the second, it returns a permutation of the
    array (the same elements with the same multiplicities). *)
Theorem shuffleArray_perm {A} (array : list A) (draws : list Q) :
  Forall in01 draws -> (List.length array - 1 <= List.length draws)%nat ->
  exists out, shuffleArray array draws = Some (out, drop (List.length array - 1) draws) /\
              out ≡ₚ array.
Proof. apply shuffleArray_ok. Qed.

Lemma shuffleArray_perm_witness :
  Forall in01 [1#3; 1#2; 0%Q] /\ (List.length [10; 20; 30; 40] - 1 <= List.length [1#3; 1#2; 0%Q])%nat /\
  exists out, shuffleArray [10; 20; 30; 40]%nat [1#3; 1#2; 0%Q] =
                Some (out, drop (List.length [10; 20; 30; 40] - 1) [1#3; 1#2; 0%Q]) /\
              out ≡ₚ [10; 20; 30; 40]%nat.
Proof.
  assert (H : Forall in01 [1#3; 1#2; 0%Q]).
  { repeat constructor; unfold in01; vm_compute; try discriminate; reflexivity. }
  split; [exact H|]. split; [cbn; lia|].
  apply (shuffleArray_perm [10; 20; 30; 40]%nat _ H). cbn; lia.
Defined.

(** randomPickN with a non-negative [n] returns [min(n, length)] items of
    the array, taken without repetition: together with the items it leaves
    out they are a permutation of the array (so, from an array without
    duplicates, it returns distinct items). *)
Theorem randomPickN_pick {A} (array : list A) (n : Z) (draws : list Q) :
  Forall in01 draws -> (List.length array - 1 <= List.length draws)%nat -> (0 <= n)%Z ->
  exists out others,
    randomPickN array n draws = Some (out, drop (List.length array - 1) draws) /\
    List.length out = Nat.min (Z.to_nat n) (List.length array) /\
    out ++ others ≡ₚ array.
Proof.
  intros Hd Hl Hn. destruct (randomPickN_ok array n draws Hd Hl) as [sh [P E]].
  destruct (js_slice0_take sh (Z.min n (Z.of_nat (List.length array)))) as [k [Ek Hk]].
  rewrite Ek in E. exists (take k sh), (drop k sh). split; [exact E|].
  rewrite (Permutation_length P) in Hk. split.
  - rewrite length_take, (Permutation_length P).
    destruct (Z.min n (Z.of_nat (List.length array)) <? 0)%Z eqn:Hs; [apply Z.ltb_lt in Hs|]; lia.
  - rewrite take_drop. exact P.
Qed.

Lemma randomPickN_pick_witness :
  Forall in01 [1#3; 1#2; 0%Q] /\ (List.length [10; 20; 30; 40] - 1 <= List.length [1#3; 1#2; 0%Q])%nat /\
  (0 <= 2)%Z /\
  exists out others,
    randomPickN [10; 20; 30; 40]%nat 2 [1#3; 1#2; 0%Q] =
      Some (out, drop (List.length [10; 20; 30; 40] - 1) [1#3; 1#2; 0%Q]) /\
    List.length out = Nat.min (Z.to_nat 2) (List.length [10; 20; 30; 40]) /\
    out ++ others ≡ₚ [10; 20; 30; 40]%nat.
Proof.
  assert (H : Forall in01 [1#3; 1#2; 0%Q]).
  { repeat constructor; unfold in01; vm_compute; try discriminate; reflexivity. }
  split; [exact H|]. split; [cbn; lia|]. split; [lia|].
  apply (randomPickN_pick [10; 20; 30; 40]%nat 2 _ H); cbn; lia.
Defined.

(** A negative [n] is not rejected: [Math.min(n, length)] is [n] and
    [slice(0, n)] drops [-n] items from the end of the shuffled copy, so
    randomPickN returns [length + n] items (none when [-n >= length]). *)
Theorem randomPickN_negative {A} (array : list A) (n : Z) (draws : list Q) :
  Forall in01 draws -> (List.length array - 1 <= List.length draws)%nat -> (n < 0)%Z ->
  exists out others,
    randomPickN array n draws = Some (out, drop (List.length array - 1) draws) /\
    List.length out = (List.length array - Z.to_nat (- n))%nat /\
    out ++ others ≡ₚ array.
Proof.
  intros Hd Hl Hn. destruct (randomPickN_ok array n draws Hd Hl) as [sh [P E]].
  destruct (js_slice0_take sh (Z.min n (Z.of_nat (List.length array)))) as [k [Ek Hk]].
  rewrite Ek in E. exists (take k sh), (drop k sh). split; [exact E|].
  rewrite (Permutation_length P) in Hk. split.
  - rewrite length_take, (Permutation_length P).
    replace (Z.min n (Z.of_nat (List.length array)) <? 0)%Z with true in Hk
      by (symmetry; apply Z.ltb_lt; lia). lia.
  - rewrite take_drop. exact P.
Qed.

Lemma randomPickN_negative_witness :
  Forall in01 [1#3; 1#2; 0%Q] /\ (List.length [10; 20; 30; 40] - 1 <= List.length [1#3; 1#2; 0%Q])%nat /\
  (-1 < 0)%Z /\
  exists out others,
    randomPickN [10; 20; 30; 40]%nat (-1) [1#3; 1#2; 0%Q] =
      Some (out, drop (List.length [10; 20; 30; 40] - 1) [1#3; 1#2; 0%Q]) /\
    List.length out = (List.length [10; 20; 30; 40] - Z.to_nat (- -1))%nat /\
    out ++ others ≡ₚ [10; 20; 30; 40]%nat.
Proof.
  assert (H : Forall in01 [1#3; 1#2; 0%Q]).
  { repeat constructor; unfold in01; vm_compute; try discriminate; reflexivity. }
  split; [exact H|]. split; [cbn; lia|]. split; [lia|].
  apply (randomPickN_negative [10; 20; 30; 40]%nat (-1) _ H); cbn; lia.
Defined.

(** randomPick with a draw in [0, 1) returns an element of a non-empty
    array, and [undefined] for an empty one; it takes one draw. *)
Theorem randomPick_member {A} (array : list A) (r : Q) (draws : list Q) :
  in01 r ->
  (array = [] -> randomPick array (r :: draws) = Some (None, draws)) /\
  (array <> [] -> exists x, randomPick array (r :: draws) = Some (Some x, draws) /\ In x array).
Proof.
  intros Hr. split.
  - intros ->. unfold randomPick, js_index. cbn.
    unfold gret. destruct (_ <? 0)%Z; [reflexivity|]. destruct (Z.to_nat _); reflexivity.
  - intros Hne. assert (Hl : (0 < List.length array)%nat)
      by (destruct array; [congruence|cbn; lia]).
    destruct (random_index_ok _ r draws Hr Hl) as [i [Ei Hi]].
    destruct (js_index_ok array i Hi) as [x Ex].
    exists x. split.
    + unfold randomPick. rewrite (gbind_ok _ _ _ _ _ Ei). unfold gret. rewrite Ex. reflexivity.
    + exact (js_index_In _ _ _ Ex).
Qed.

Lemma randomPick_member_witness :
  in01 (3#4) /\
  exists x, randomPick [7; 8]%nat (3#4 :: []) = Some (Some x, []) /\ In x [7; 8]%nat.
Proof.
  assert (H : in01 (3#4)) by (unfold in01; vm_compute; split; [discriminate|reflexivity]).
  split; [exact H|].
  exact (proj2 (randomPick_member [7; 8]%nat _ [] H) ltac:(discriminate)).
Defined.

End ScenarioHelperFacts.

Module ProgressFacts.
Import Storage StorageQueries.

(** Consecutive drills of [DRILL_ORDER]. *)
Definition DRILL_CHAIN : list (string * string) :=
  [("hand-ranking", "open-fold"); ("open-fold", "equity-snap");
   ("equity-snap", "range-check"); ("range-check", "position-speed")].

(** The drill [updateDrillProgress] unlocks after [id]. *)
Definition next_drill (id : string) : option string :=
  match index_of id DRILL_ORDER with
  | Some i => if (i + 1 <? List.length DRILL_ORDER)%nat then nth_error DRILL_ORDER (i + 1) else None
  | None => None
  end.

Definition unlock_opt (o : option string) (m : gmap string ModRec) : gmap string ModRec :=
  match o with Some n => unlock_in n m | None => m end.

(** Number of attempts of each kind on a known id. *)
Definition drill_call (a : Attempt) : bool :=
  match a with DrillAttempt id _ _ => bool_decide (id ∈ DRILL_ORDER) | _ => false end.
Definition scenario_call (a : Attempt) : bool :=
  match a with ScenarioAttempt id _ _ => bool_decide (id ∈ SCENARIO_ORDER) | _ => false end.

(** What the update functions keep true of a progress document. *)
Record Inv (p : Progress) : Prop := {
  inv_dkeys : forall id, is_Some (st_modules (drills p) !! id) <-> id ∈ DRILL_ORDER;
  inv_skeys : forall id, is_Some (st_modules (scenarios p) !! id) <-> id ∈ SCENARIO_ORDER;
  inv_first : is_unlocked (st_modules (drills p)) "hand-ranking" = true;
  inv_chain : forall a b, (a, b) ∈ DRILL_CHAIN ->
    is_unlocked (st_modules (drills p)) b = is_completed (st_modules (drills p)) a;
  inv_dstage : st_completed (drills p) = forallb (is_completed (st_modules (drills p))) DRILL_ORDER;
  inv_sunl : st_unlocked (scenarios p) = st_completed (drills p);
  inv_sstage : st_completed (scenarios p) = forallb (is_completed (st_modules (scenarios p))) SCENARIO_ORDER;
  inv_funl : st_unlocked (fullHands p) = st_completed (scenarios p);
  inv_dscore : forall id r, st_modules (drills p) !! id = Some r -> completed r = true ->
    (getDrillThreshold id <= bestScore r)%Q;
  inv_sscore : forall id r, st_modules (scenarios p) !! id = Some r -> completed r = true ->
    (getScenarioThreshold id <= bestScore r)%Q;
  inv_dtotal : st_totalAttempts (drills p) = sum_list_with (attempts_at (st_modules (drills p))) DRILL_ORDER;
  inv_dach : "drill-master" ∈ st_achievements (drills p) -> st_completed (drills p) = true;
  inv_sach : "scenario-solver" ∈ st_achievements (scenarios p) -> st_completed (scenarios p) = true
}.

(** ** Pointwise reads after the map updates *)

Lemma is_completed_insert m k r x :
  is_completed (<[k:=r]> m) x = if decide (k = x) then completed r else is_completed m x.
Proof.
  unfold is_completed. destruct (decide (k = x)) as [<-|Hne];
    [rewrite lookup_insert_eq|rewrite lookup_insert_ne by exact Hne]; reflexivity.
Qed.

Lemma is_unlocked_insert m k r x :
  is_unlocked (<[k:=r]> m) x = if decide (k = x) then unlocked r else is_unlocked m x.
Proof.
  unfold is_unlocked. destruct (decide (k = x)) as [<-|Hne];
    [rewrite lookup_insert_eq|rewrite lookup_insert_ne by exact Hne]; reflexivity.
Qed.

Lemma attempts_at_insert m k r x :
  attempts_at (<[k:=r]> m) x = if decide (k = x) then attempts r else attempts_at m x.
Proof.
  unfold attempts_at. destruct (decide (k = x)) as [<-|Hne];
    [rewrite lookup_insert_eq|rewrite lookup_insert_ne by exact Hne]; reflexivity.
Qed.

Lemma lookup_unlock_in m n x r :
  unlock_in n m !! x = Some r ->
  exists r', m !! x = Some r' /\ completed r = completed r' /\ bestScore r = bestScore r' /\
             attempts r = attempts r'.
Proof.
  unfold unlock_in. destruct (m !! n) as [rn|] eqn:En; [|intros H; exists r; auto].
  destruct (decide (n = x)) as [<-|Hne].
  - rewrite lookup_insert_eq. intros H. injection H as <-. exists rn. auto.
  - rewrite lookup_insert_ne by exact Hne. intros H. exists r. auto.
Qed.

Lemma unlock_in_is_Some m n x : is_Some (unlock_in n m !! x) <-> is_Some (m !! x).
Proof.
  unfold unlock_in. destruct (m !! n) as [rn|] eqn:En; [|reflexivity].
  destruct (decide (n = x)) as [<-|Hne].
  - rewrite lookup_insert_eq, En. split; intros _; eauto.
  - rewrite lookup_insert_ne by exact Hne. reflexivity.
Qed.

Lemma is_completed_unlock_in m n x : is_completed (unlock_in n m) x = is_completed m x.
Proof.
  unfold is_completed at 1. destruct (unlock_in n m !! x) as [r|] eqn:E.
  - destruct (lookup_unlock_in m n x r E) as (r' & E' & C & _). unfold is_completed. rewrite E'. exact C.
  - unfold is_completed. destruct (m !! x) eqn:E'; [|reflexivity].
    exfalso. assert (H : is_Some (unlock_in n m !! x)) by (apply unlock_in_is_Some; eauto).
    rewrite E in H. destruct H; discriminate.
Qed.

Lemma attempts_at_unlock_in m n x : attempts_at (unlock_in n m) x = attempts_at m x.
Proof.
  unfold attempts_at at 1. destruct (unlock_in n m !! x) as [r|] eqn:E.
  - destruct (lookup_unlock_in m n x r E) as (r' & E' & _ & _ & A). unfold attempts_at. rewrite E'. exact A.
  - unfold attempts_at. destruct (m !! x) eqn:E'; [|reflexivity].
    exfalso. assert (H : is_Some (unlock_in n m !! x)) by (apply unlock_in_is_Some; eauto).
    rewrite E in H. destruct H; discriminate.
Qed.

Lemma is_unlocked_unlock_in m n x :
  is_unlocked (unlock_in n m) x =
    if decide (n = x) then (match m !! n with Some _ => true | None => false end) else is_unlocked m x.
Proof.
  unfold unlock_in. destruct (m !! n) as [rn|] eqn:En.
  - rewrite is_unlocked_insert. destruct (decide (n = x)); reflexivity.
  - destruct (decide (n = x)) as [<-|]; [unfold is_unlocked; rewrite En|]; reflexivity.
Qed.

(** The same for [unlock_opt]. *)
Lemma lookup_unlock_opt m o x r :
  unlock_opt o m !! x = Some r ->
  exists r', m !! x = Some r' /\ completed r = completed r' /\ bestScore r = bestScore r' /\
             attempts r = attempts r'.
Proof. destruct o as [n|]; cbn; [apply lookup_unlock_in|intros H; exists r; auto]. Qed.

Lemma unlock_opt_is_Some m o x : is_Some (unlock_opt o m !! x) <-> is_Some (m !! x).
Proof. destruct o; cbn; [apply unlock_in_is_Some|reflexivity]. Qed.

Lemma is_completed_unlock_opt m o x : is_completed (unlock_opt o m) x = is_completed m x.
Proof. destruct o; cbn; [apply is_completed_unlock_in|reflexivity]. Qed.

Lemma attempts_at_unlock_opt m o x : attempts_at (unlock_opt o m) x = attempts_at m x.
Proof. destruct o; cbn; [apply attempts_at_unlock_in|reflexivity]. Qed.

Lemma is_unlocked_unlock_opt_mono m o x :
  is_unlocked m x = true -> is_unlocked (unlock_opt o m) x = true.
Proof.
  destruct o as [n|]; cbn; [|auto]. rewrite is_unlocked_unlock_in. intros H.
  destruct (decide (n = x)) as [<-|]; [|exact H].
  unfold is_unlocked in H. destruct (m !! n); [reflexivity|discriminate].
Qed.

Lemma forallb_ext_in {A} (f g : A -> bool) l :
  (forall x, f x = g x) -> forallb f l = forallb g l.
Proof. intros H. induction l as [|a l IH]; cbn; [reflexivity|]. rewrite H, IH. reflexivity. Qed.

Lemma forallb_mono {A} (f g : A -> bool) l :
  (forall x, f x = true -> g x = true) -> forallb f l = true -> forallb g l = true.
Proof.
  intros H. induction l as [|a l IH]; cbn; [reflexivity|].
  rewrite !andb_true_iff. intros [Ha Hl]. auto.
Qed.

Lemma sum_list_with_notin (f g : string -> nat) (l : list string) k :
  ~ In k l -> (forall x, x <> k -> g x = f x) -> sum_list_with g l = sum_list_with f l.
Proof.
  intros Hk Hg. induction l as [|a l IH]; cbn; [reflexivity|].
  rewrite Hg by (intros ->; apply Hk; left; reflexivity).
  rewrite IH by (intros H; apply Hk; right; exact H). reflexivity.
Qed.

Lemma sum_list_with_update (f g : string -> nat) (l : list string) k :
  List.NoDup l -> In k l -> (forall x, x <> k -> g x = f x) -> g k = S (f k) ->
  sum_list_with g l = S (sum_list_with f l).
Proof.
  intros Hnd. induction Hnd as [|a l Ha Hnd IH]; intros Hk Hg Hgk; [destruct Hk|].
  cbn. destruct Hk as [<-|Hk].
  - rewrite Hgk, (sum_list_with_notin f g l a Ha Hg). reflexivity.
  - rewrite Hg by (intros ->; exact (Ha Hk)). rewrite (IH Hk Hg Hgk). lia.
Qed.

Lemma sum_list_with_ext (f g : string -> nat) (l : list string) :
  (forall x, g x = f x) -> sum_list_with g l = sum_list_with f l.
Proof. intros H. induction l as [|a l IH]; cbn; [reflexivity|]. rewrite H, IH. reflexivity. Qed.

Lemma in_push_new (x y : string) (a : list string) : x ∈ push_new y a -> x ∈ a \/ x = y.
Proof.
  unfold push_new. destruct (decide (y ∈ a)); [auto|].
  rewrite elem_of_app, list_elem_of_singleton. tauto.
Qed.

Lemma in_push_if (x y : string) (c : bool) (a : list string) : x ∈ (if c then push_new y a else a) -> x ∈ a \/ (c = true /\ x = y).
Proof. destruct c; [intros H; destruct (in_push_new _ _ _ H); auto|auto]. Qed.

(** ** The drill chain *)

Lemma index_of_nth x l i : index_of x l = Some i -> nth_error l i = Some x.
Proof.
  revert i. induction l as [|y l IH]; intros i; cbn; [discriminate|].
  destruct (String.eqb y x) eqn:E.
  - intros H. injection H as <-. apply String.eqb_eq in E. subst. reflexivity.
  - destruct (index_of x l) as [j|]; cbn; [|discriminate]. intros H. injection H as <-. apply IH. reflexivity.
Qed.

Lemma next_drill_chain id b : next_drill id = Some b <-> (id, b) ∈ DRILL_CHAIN.
Proof.
  split.
  - unfold next_drill. destruct (index_of id DRILL_ORDER) as [i|] eqn:E; [|discriminate].
    apply index_of_nth in E.
    destruct i as [|[|[|[|[|i]]]]]; cbn in E; try discriminate; injection E as <-; cbn;
      intros H; try discriminate; injection H as <-;
      apply (bool_decide_unpack _); vm_compute; reflexivity.
  - intros H. apply list_elem_of_In in H. cbn in H.
    destruct H as [H|[H|[H|[H|[]]]]]; injection H as <- <-; reflexivity.
Qed.

Lemma chain_inj a a' b : (a, b) ∈ DRILL_CHAIN -> (a', b) ∈ DRILL_CHAIN -> a = a'.
Proof.
  intros H H'. apply list_elem_of_In in H, H'. cbn in H, H'.
  destruct H as [H|[H|[H|[H|[]]]]]; injection H as <- <-;
  destruct H' as [H'|[H'|[H'|[H'|[]]]]]; inversion H'; subst; reflexivity.
Qed.

Lemma chain_snd_in a b : (a, b) ∈ DRILL_CHAIN -> b ∈ DRILL_ORDER.
Proof.
  intros H. apply list_elem_of_In in H. cbn in H.
  destruct H as [H|[H|[H|[H|[]]]]]; injection H as <- <-;
    apply (bool_decide_unpack _); vm_compute; reflexivity.
Qed.

Lemma DRILL_ORDER_NoDup : List.NoDup DRILL_ORDER.
Proof. apply NoDup_ListNoDup. apply (bool_decide_unpack _). vm_compute. reflexivity. Qed.

(** [modules[id]] with the [if (modules[nextDrillId])] guard. *)
Lemma next_mods (id : string) (m : gmap string ModRec) :
  match index_of id DRILL_ORDER with
  | Some i => if (i + 1 <? List.length DRILL_ORDER)%nat
              then match nth_error DRILL_ORDER (i + 1) with
                   | Some next => unlock_in next m
                   | None => m end
              else m
  | None => m
  end = unlock_opt (next_drill id) m.
Proof.
  unfold next_drill. destruct (index_of id DRILL_ORDER); [|reflexivity].
  destruct (_ <? _)%nat; [|reflexivity]. destruct (nth_error _ _); reflexivity.
Qed.

Lemma raise_score_acc (a cur : Q) : (a <= raise_score (Some a) cur)%Q.
Proof.
  unfold raise_score, js_gt. destruct (Qle_bool a cur) eqn:E; cbn.
  - apply Qle_bool_iff, E.
  - apply Qle_refl.
Qed.

Lemma js_ge_score (acc : option Q) (t cur : Q) :
  js_ge acc t = true -> (t <= raise_score acc cur)%Q.
Proof.
  destruct acc as [a|]; cbn; [|discriminate]. intros H. apply Qle_bool_iff in H.
  eapply Qle_trans; [exact H|apply raise_score_acc].
Qed.

(** ** The two updates, in the form the invariant proofs use *)

Lemma updateDrill_shape id stats t p p' :
  updateDrillProgress id stats t p = Some p' ->
  exists r0 r1,
    st_modules (drills p) !! id = Some r0 /\
    unlocked r1 = unlocked r0 /\ completed r1 = completed r0 /\
    attempts r1 = S (attempts r0) /\ (bestScore r0 <= bestScore r1)%Q /\
    let d := drills p in
    let m1 := <[id := r1]> (st_modules d) in
    (p' = mkProgress (mkStage (st_unlocked d) (st_completed d) m1
                        (S (st_totalAttempts d)) (st_achievements d)) (scenarios p) (fullHands p) \/
     (completed r0 = false /\ (getDrillThreshold id <= bestScore r1)%Q /\
      let m3 := unlock_opt (next_drill id) (<[id := set_completed r1]> m1) in
      let d3 := mkStage (st_unlocked d) (st_completed d) m3 (S (st_totalAttempts d)) (st_achievements d) in
      p' = checkDrillAchievements
             (if forallb (is_completed m3) DRILL_ORDER
              then mkProgress (set_stage_completed d3) (set_stage_unlocked (scenarios p)) (fullHands p)
              else mkProgress d3 (scenarios p) (fullHands p)) stats)).
Proof.
  unfold updateDrillProgress. destruct (st_modules (drills p) !! id) as [r0|] eqn:E; [|discriminate].
  cbv zeta. rewrite next_mods. intros H.
  exists r0, (mkMod (unlocked r0) (completed r0) (raise_score (accuracy stats) (bestScore r0))
                (raise_streak (stats_bestStreak stats) (bestStreak r0))
                (lower_time (avgTime stats) (bestTime r0)) (S (attempts r0)) (Some t)).
  split; [reflexivity|]. split; [reflexivity|]. split; [reflexivity|].
  split; [reflexivity|]. split; [apply StorageFacts.raise_score_mono|].
  cbv zeta. unfold getDrillThreshold.
  destruct (_ && _) eqn:P in H.
  - injection H as <-. right. apply andb_true_iff in P as [P1 P2].
    split; [apply negb_true_iff, P2|]. split; [apply js_ge_score, P1|]. reflexivity.
  - injection H as <-. left. reflexivity.
Qed.

Lemma updateScenario_shape id stats t p p' :
  updateScenarioProgress id stats t p = Some p' ->
  exists s0 s1,
    st_modules (scenarios p) !! id = Some s0 /\
    unlocked s1 = unlocked s0 /\ completed s1 = completed s0 /\
    attempts s1 = S (attempts s0) /\ (bestScore s0 <= bestScore s1)%Q /\
    let sc := scenarios p in
    let m1 := <[id := s1]> (st_modules sc) in
    (p' = mkProgress (drills p) (set_modules sc m1) (fullHands p) \/
     (completed s0 = false /\ (getScenarioThreshold id <= bestScore s1)%Q /\
      exists o,
        let m3 := unlock_opt o (<[id := set_completed s1]> m1) in
        p' = checkScenarioAchievements
               (if forallb (is_completed m3) SCENARIO_ORDER
                then mkProgress (drills p) (set_stage_completed (set_modules sc m3))
                       (set_stage_unlocked (fullHands p))
                else mkProgress (drills p) (set_modules sc m3) (fullHands p)) stats)).
Proof.
  unfold updateScenarioProgress. destruct (st_modules (scenarios p) !! id) as [s0|] eqn:E; [|discriminate].
  cbv zeta. intros H.
  exists s0, (mkMod (unlocked s0) (completed s0) (raise_score (accuracy stats) (bestScore s0))
                (bestStreak s0) (bestTime s0) (S (attempts s0)) (Some t)).
  split; [reflexivity|]. split; [reflexivity|]. split; [reflexivity|].
  split; [reflexivity|]. split; [apply StorageFacts.raise_score_mono|].
  cbv zeta. unfold getScenarioThreshold.
  destruct (_ && _) eqn:P in H.
  - injection H as <-. right. apply andb_true_iff in P as [P1 P2].
    split; [apply negb_true_iff, P2|]. split; [apply js_ge_score, P1|].
    lazymatch goal with
    | |- context [tier1Completed ?m] =>
        exists (if (2 <=? tier1Completed m)%nat then Some "cold-4bet" else None);
        destruct (tier1Completed m) as [|[|k]]; reflexivity
    end.
  - injection H as <-. left. reflexivity.
Qed.

Lemma checkDrillAchievements_fields (q : Progress) (stats : Stats) :
  let q' := checkDrillAchievements q stats in
  st_unlocked (drills q') = st_unlocked (drills q) /\
  st_completed (drills q') = st_completed (drills q) /\
  st_modules (drills q') = st_modules (drills q) /\
  st_totalAttempts (drills q') = st_totalAttempts (drills q) /\
  scenarios q' = scenarios q /\ fullHands q' = fullHands q /\
  ("drill-master" ∈ st_achievements (drills q') ->
   "drill-master" ∈ st_achievements (drills q) \/
   forallb (is_completed (st_modules (drills q))) DRILL_ORDER = true).
Proof.
  cbv zeta. unfold checkDrillAchievements. cbn.
  split; [reflexivity|]. split; [reflexivity|]. split; [reflexivity|]. split; [reflexivity|].
  split; [reflexivity|]. split; [reflexivity|].
  intros H.
  apply in_push_if in H as [H|[Hc _]]; [|right; exact Hc].
  apply in_push_if in H as [H|[_ H]]; [|discriminate].
  apply in_push_if in H as [H|[_ H]]; [|discriminate].
  apply in_push_if in H as [H|[_ H]]; [|discriminate].
  left. exact H.
Qed.

Lemma checkScenarioAchievements_fields (q : Progress) (stats : Stats) :
  let q' := checkScenarioAchievements q stats in
  drills q' = drills q /\ fullHands q' = fullHands q /\
  st_unlocked (scenarios q') = st_unlocked (scenarios q) /\
  st_completed (scenarios q') = st_completed (scenarios q) /\
  st_modules (scenarios q') = st_modules (scenarios q) /\
  ("scenario-solver" ∈ st_achievements (scenarios q') ->
   "scenario-solver" ∈ st_achievements (scenarios q) \/
   forallb (is_completed (st_modules (scenarios q))) SCENARIO_ORDER = true).
Proof.
  cbv zeta. unfold checkScenarioAchievements. cbn.
  split; [reflexivity|]. split; [reflexivity|]. split; [reflexivity|]. split; [reflexivity|].
  split; [reflexivity|].
  intros H.
  apply in_push_if in H as [H|[_ H]]; [|discriminate].
  apply in_push_if in H as [H|[_ H]]; [|discriminate].
  apply in_push_if in H as [H|[_ H]]; [|discriminate].
  apply in_push_if in H as [H|[Hc _]]; [|right; exact Hc].
  apply in_push_if in H as [H|[_ H]]; [|discriminate].
  left. exact H.
Qed.

(** Reads of [<[id := r1]> m] where [r1] keeps the flags of [m !! id]. *)
Lemma same_flags_insert m id r0 r1 :
  m !! id = Some r0 -> unlocked r1 = unlocked r0 -> completed r1 = completed r0 ->
  (forall x, is_completed (<[id:=r1]> m) x = is_completed m x) /\
  (forall x, is_unlocked (<[id:=r1]> m) x = is_unlocked m x) /\
  (forall x, is_Some (<[id:=r1]> m !! x) <-> is_Some (m !! x)).
Proof.
  intros E U C. split; [|split].
  - intros x. rewrite is_completed_insert. destruct (decide (id = x)) as [<-|]; [|reflexivity].
    unfold is_completed. rewrite E. exact C.
  - intros x. rewrite is_unlocked_insert. destruct (decide (id = x)) as [<-|]; [|reflexivity].
    unfold is_unlocked. rewrite E. exact U.
  - intros x. destruct (decide (id = x)) as [<-|Hne].
    + rewrite lookup_insert_eq, E. split; intros _; eauto.
    + rewrite lookup_insert_ne by exact Hne. reflexivity.
Qed.

(** Reads after the completing branch: [id] is completed, nothing else
    changes its flag, the keys stay. *)
Lemma completing_insert m id r0 r1 o :
  m !! id = Some r0 -> unlocked r1 = unlocked r0 ->
  let m3 := unlock_opt o (<[id := set_completed r1]> (<[id := r1]> m)) in
  (forall x, is_completed m3 x = if decide (id = x) then true else is_completed m x) /\
  (forall x, is_unlocked (<[id := set_completed r1]> (<[id := r1]> m)) x = is_unlocked m x) /\
  (forall x, is_Some (m3 !! x) <-> is_Some (m !! x)) /\
  (forall x, attempts_at m3 x = attempts_at (<[id := r1]> m) x) /\
  (forall x r, m3 !! x = Some r -> exists r', completed r = completed r' /\ bestScore r = bestScore r' /\
     ((id = x /\ r' = set_completed r1) \/ (id <> x /\ m !! x = Some r'))).
Proof.
  intros E U. cbv zeta. split; [|split; [|split; [|split]]].
  - intros x. rewrite is_completed_unlock_opt, !is_completed_insert.
    destruct (decide (id = x)); reflexivity.
  - intros x. rewrite !is_unlocked_insert. destruct (decide (id = x)) as [<-|]; [|reflexivity].
    unfold is_unlocked. rewrite E. exact U.
  - intros x. rewrite unlock_opt_is_Some. destruct (decide (id = x)) as [<-|Hne].
    + rewrite lookup_insert_eq, E. split; intros _; eauto.
    + rewrite !lookup_insert_ne by exact Hne. reflexivity.
  - intros x. rewrite attempts_at_unlock_opt, !attempts_at_insert.
    destruct (decide (id = x)); reflexivity.
  - intros x r Hx. destruct (lookup_unlock_opt _ _ _ _ Hx) as (r' & Hr' & C & B & _).
    exists r'. split; [exact C|]. split; [exact B|].
    destruct (decide (id = x)) as [<-|Hne].
    + rewrite lookup_insert_eq in Hr'. injection Hr' as <-. left. auto.
    + rewrite !lookup_insert_ne in Hr' by exact Hne. right. auto.
Qed.

Lemma Inv_drill id stats t p p' :
  Inv p -> updateDrillProgress id stats t p = Some p' -> Inv p'.
Proof.
  intros I H. destruct (updateDrill_shape id stats t p p' H) as (r0 & r1 & E0 & U & C & A & B & Hp).
  destruct I as [DK SK FI CH DS SU SS FU DSc SSc DT DA SA].
  cbv zeta in Hp. set (m := st_modules (drills p)) in *.
  assert (Hin : In id DRILL_ORDER) by (apply list_elem_of_In, DK; eauto).
  assert (Htot : sum_list_with (attempts_at (<[id:=r1]> m)) DRILL_ORDER =
                 S (sum_list_with (attempts_at m) DRILL_ORDER)).
  { apply (sum_list_with_update _ _ _ id); [exact DRILL_ORDER_NoDup|exact Hin| |].
    - intros x Hx. rewrite attempts_at_insert. destruct (decide (id = x)); [congruence|reflexivity].
    - rewrite attempts_at_insert. destruct (decide (id = id)); [|congruence].
      unfold attempts_at. rewrite E0. exact A. }
  destruct Hp as [Hp|(C0 & Th & Hp)].
  - subst p'. destruct (same_flags_insert m id r0 r1 E0 U C) as (HC & HU & HK).
    constructor; cbn [drills scenarios fullHands st_modules st_unlocked st_completed
                      st_totalAttempts st_achievements].
    + intros x. rewrite HK. apply DK.
    + exact SK.
    + rewrite HU. exact FI.
    + intros a b Hab. rewrite HU, HC. apply CH, Hab.
    + rewrite DS. apply forallb_ext_in. intros x. rewrite HC. reflexivity.
    + exact SU.
    + exact SS.
    + exact FU.
    + intros x r Hx Hc. destruct (decide (id = x)) as [<-|Hne].
      * rewrite lookup_insert_eq in Hx. injection Hx as <-. rewrite C in Hc.
        eapply Qle_trans; [apply (DSc id r0 E0 Hc)|exact B].
      * rewrite lookup_insert_ne in Hx by exact Hne. exact (DSc x r Hx Hc).
    + exact SSc.
    + rewrite DT, Htot. reflexivity.
    + exact DA.
    + exact SA.
  - destruct (completing_insert m id r0 r1 (next_drill id) E0 U) as (HC3 & HU2 & HK3 & HA3 & HL3).
    set (m3 := unlock_opt (next_drill id) (<[id := set_completed r1]> (<[id := r1]> m))) in *.
    assert (Hmono : forall x, is_completed m x = true -> is_completed m3 x = true).
    { intros x Hx. rewrite HC3. destruct (decide (id = x)); [reflexivity|exact Hx]. }
    set (q := if forallb (is_completed m3) DRILL_ORDER
              then mkProgress (set_stage_completed (mkStage (st_unlocked (drills p)) (st_completed (drills p)) m3
                                 (S (st_totalAttempts (drills p))) (st_achievements (drills p))))
                     (set_stage_unlocked (scenarios p)) (fullHands p)
              else mkProgress (mkStage (st_unlocked (drills p)) (st_completed (drills p)) m3
                                 (S (st_totalAttempts (drills p))) (st_achievements (drills p)))
                     (scenarios p) (fullHands p)) in Hp.
    subst p'. destruct (checkDrillAchievements_fields q stats) as (F1 & F2 & F3 & F4 & F5 & F6 & F7).
    assert (Q : st_modules (drills q) = m3 /\ st_totalAttempts (drills q) = S (st_totalAttempts (drills p)) /\
                st_achievements (drills q) = st_achievements (drills p) /\
                st_modules (scenarios q) = st_modules (scenarios p) /\
                st_completed (scenarios q) = st_completed (scenarios p) /\
                st_achievements (scenarios q) = st_achievements (scenarios p) /\
                fullHands q = fullHands p /\
                st_completed (drills q) = (st_completed (drills p) || forallb (is_completed m3) DRILL_ORDER) /\
                st_unlocked (scenarios q) = (st_unlocked (scenarios p) || forallb (is_completed m3) DRILL_ORDER)).
    { unfold q. destruct (forallb (is_completed m3) DRILL_ORDER); cbn;
        rewrite ?orb_true_r, ?orb_false_r; repeat split; reflexivity. }
    destruct Q as (Q1 & Q2 & Q3 & Q4 & Q5 & Q6 & Q7 & Q8 & Q9).
    assert (Hall : st_completed (drills p) = true -> forallb (is_completed m3) DRILL_ORDER = true).
    { intros Hd. rewrite DS in Hd. exact (forallb_mono _ _ _ Hmono Hd). }
    constructor; rewrite ?F1, ?F2, ?F3, ?F4, ?F5, ?F6.
    + intros x. rewrite Q1, HK3. apply DK.
    + intros x. rewrite Q4. apply SK.
    + rewrite Q1. apply is_unlocked_unlock_opt_mono. rewrite HU2. exact FI.
    + intros a b Hab. rewrite Q1, HC3. destruct (decide (id = a)) as [<-|Hne].
      * apply next_drill_chain in Hab. unfold m3. rewrite Hab. cbn [unlock_opt].
        rewrite is_unlocked_unlock_in. destruct (decide (b = b)) as [_|]; [|congruence].
        destruct (<[id:=set_completed r1]> (<[id:=r1]> m) !! b) eqn:Eb; [reflexivity|].
        exfalso. assert (Hb : is_Some (m3 !! b)).
        { apply HK3, DK. exact (chain_snd_in id b (proj1 (next_drill_chain id b) Hab)). }
        unfold m3 in Hb. rewrite Hab in Hb. cbn [unlock_opt] in Hb.
        apply unlock_in_is_Some in Hb. rewrite Eb in Hb. destruct Hb; discriminate.
      * unfold m3. destruct (next_drill id) as [n|] eqn:En; cbn [unlock_opt].
        -- rewrite is_unlocked_unlock_in. destruct (decide (n = b)) as [<-|].
           ++ exfalso. apply Hne. apply next_drill_chain in En. exact (chain_inj _ _ _ En Hab).
           ++ rewrite HU2. apply CH, Hab.
        -- rewrite HU2. apply CH, Hab.
    + rewrite Q8, Q1. rewrite DS. destruct (forallb (is_completed m) DRILL_ORDER) eqn:Fm; [|reflexivity].
      cbn. symmetry. apply (forallb_mono _ _ _ Hmono Fm).
    + rewrite Q8, Q9, SU. reflexivity.
    + rewrite Q5, Q4. exact SS.
    + rewrite Q7, Q5. exact FU.
    + rewrite Q1. intros x r Hx Hc. destruct (HL3 x r Hx) as (r' & Cr & Br & [[<- ->]|[Hne Hx']]).
      * rewrite Br. exact Th.
      * rewrite Br. rewrite Cr in Hc. exact (DSc x r' Hx' Hc).
    + rewrite Q4. exact SSc.
    + rewrite Q2, Q1. rewrite (sum_list_with_ext _ _ _ HA3), Htot, DT. reflexivity.
    + intros Hd. rewrite Q8. apply F7 in Hd as [Hd|Hd].
      * rewrite Q3 in Hd. rewrite (Hall (DA Hd)). apply orb_true_r.
      * rewrite Q1 in Hd. rewrite Hd. apply orb_true_r.
    + rewrite Q6, Q5. exact SA.
Qed.

Lemma SCENARIO_ORDER_NoDup : List.NoDup SCENARIO_ORDER.
Proof. apply NoDup_ListNoDup. apply (bool_decide_unpack _). vm_compute. reflexivity. Qed.

Lemma Inv_scenario id stats t p p' :
  Inv p -> updateScenarioProgress id stats t p = Some p' -> Inv p'.
Proof.
  intros I H. destruct (updateScenario_shape id stats t p p' H) as (s0 & s1 & E0 & U & C & A & B & Hp).
  destruct I as [DK SK FI CH DS SU SS FU DSc SSc DT DA SA].
  cbv zeta in Hp. set (m := st_modules (scenarios p)) in *.
  destruct Hp as [Hp|(C0 & Th & o & Hp)].
  - subst p'. destruct (same_flags_insert m id s0 s1 E0 U C) as (HC & HU & HK).
    constructor; cbn [drills scenarios fullHands st_modules st_unlocked st_completed
                      st_totalAttempts st_achievements set_modules].
    + exact DK.
    + intros x. rewrite HK. apply SK.
    + exact FI.
    + exact CH.
    + exact DS.
    + exact SU.
    + rewrite SS. apply forallb_ext_in. intros x. rewrite HC. reflexivity.
    + exact FU.
    + exact DSc.
    + intros x r Hx Hc. destruct (decide (id = x)) as [<-|Hne].
      * rewrite lookup_insert_eq in Hx. injection Hx as <-. rewrite C in Hc.
        eapply Qle_trans; [apply (SSc id s0 E0 Hc)|exact B].
      * rewrite lookup_insert_ne in Hx by exact Hne. exact (SSc x r Hx Hc).
    + exact DT.
    + exact DA.
    + exact SA.
  - destruct (completing_insert m id s0 s1 o E0 U) as (HC3 & _ & HK3 & _ & HL3).
    set (m3 := unlock_opt o (<[id := set_completed s1]> (<[id := s1]> m))) in *.
    assert (Hmono : forall x, is_completed m x = true -> is_completed m3 x = true).
    { intros x Hx. rewrite HC3. destruct (decide (id = x)); [reflexivity|exact Hx]. }
    set (q := if forallb (is_completed m3) SCENARIO_ORDER
              then mkProgress (drills p) (set_stage_completed (set_modules (scenarios p) m3))
                     (set_stage_unlocked (fullHands p))
              else mkProgress (drills p) (set_modules (scenarios p) m3) (fullHands p)) in Hp.
    subst p'. destruct (checkScenarioAchievements_fields q stats) as (F1 & F2 & F3 & F4 & F5 & F6).
    assert (Q : drills q = drills p /\ st_modules (scenarios q) = m3 /\
                st_achievements (scenarios q) = st_achievements (scenarios p) /\
                st_unlocked (scenarios q) = st_unlocked (scenarios p) /\
                st_completed (scenarios q) = (st_completed (scenarios p) || forallb (is_completed m3) SCENARIO_ORDER) /\
                st_unlocked (fullHands q) = (st_unlocked (fullHands p) || forallb (is_completed m3) SCENARIO_ORDER)).
    { unfold q. destruct (forallb (is_completed m3) SCENARIO_ORDER); cbn;
        rewrite ?orb_true_r, ?orb_false_r; repeat split; reflexivity. }
    destruct Q as (Q1 & Q2 & Q3 & Q4 & Q5 & Q6).
    assert (Hall : st_completed (scenarios p) = true -> forallb (is_completed m3) SCENARIO_ORDER = true).
    { intros Hd. rewrite SS in Hd. exact (forallb_mono _ _ _ Hmono Hd). }
    constructor; rewrite ?F1, ?F2, ?F3, ?F4, ?F5, ?Q1.
    + exact DK.
    + intros x. rewrite Q2, HK3. apply SK.
    + exact FI.
    + exact CH.
    + exact DS.
    + rewrite Q4. exact SU.
    + rewrite Q5, Q2, SS. destruct (forallb (is_completed m) SCENARIO_ORDER) eqn:Fm; [|reflexivity].
      cbn. symmetry. apply (forallb_mono _ _ _ Hmono Fm).
    + rewrite Q6, Q5, FU. reflexivity.
    + exact DSc.
    + rewrite Q2. intros x r Hx Hc. destruct (HL3 x r Hx) as (r' & Cr & Br & [[<- ->]|[Hne Hx']]).
      * rewrite Br. exact Th.
      * rewrite Br. rewrite Cr in Hc. exact (SSc x r' Hx' Hc).
    + exact DT.
    + exact DA.
    + intros Hd. rewrite Q5. apply F6 in Hd as [Hd|Hd].
      * rewrite Q3 in Hd. rewrite (Hall (SA Hd)). apply orb_true_r.
      * rewrite Q2 in Hd. rewrite Hd. apply orb_true_r.
Qed.

Lemma Inv_record p a : Inv p -> Inv (record_attempt p a).
Proof.
  intros I. destruct a as [id st t|id st t]; cbn [record_attempt].
  - destruct (updateDrillProgress id st t p) eqn:E; cbn; [exact (Inv_drill _ _ _ _ _ I E)|exact I].
  - destruct (updateScenarioProgress id st t p) eqn:E; cbn; [exact (Inv_scenario _ _ _ _ _ I E)|exact I].
Qed.

Lemma Inv_run p l : Inv p -> Inv (run_attempts p l).
Proof.
  unfold run_attempts. revert p. induction l as [|a l IH]; intros p I; cbn; [exact I|].
  apply IH, Inv_record, I.
Qed.

Lemma list_to_map_is_Some (l : list (string * ModRec)) x :
  is_Some ((list_to_map l : gmap string ModRec) !! x) <-> x ∈ l.*1.
Proof.
  rewrite <- not_eq_None_Some, <- not_elem_of_list_to_map.
  destruct (decide (x ∈ l.*1)); tauto.
Qed.

Lemma Inv_default : Inv DEFAULT_PROGRESS.
Proof.
  constructor.
  - intros x. exact (list_to_map_is_Some _ x).
  - intros x. exact (list_to_map_is_Some _ x).
  - vm_compute. reflexivity.
  - intros a b Hab. apply list_elem_of_In in Hab. cbn in Hab.
    destruct Hab as [H|[H|[H|[H|[]]]]]; injection H as <- <-; vm_compute; reflexivity.
  - vm_compute. reflexivity.
  - vm_compute. reflexivity.
  - vm_compute. reflexivity.
  - vm_compute. reflexivity.
  - intros x r Hx Hc. apply elem_of_list_to_map_2, list_elem_of_In in Hx. cbn in Hx.
    destruct Hx as [H|[H|[H|[H|[H|[]]]]]]; injection H as <- <-; discriminate.
  - intros x r Hx Hc. apply elem_of_list_to_map_2, list_elem_of_In in Hx. cbn in Hx.
    destruct Hx as [H|[H|[H|[H|[H|[H|[]]]]]]]; injection H as <- <-; discriminate.
  - vm_compute. reflexivity.
  - intros H. apply list_elem_of_In in H. destruct H.
  - intros H. apply list_elem_of_In in H. destruct H.
Qed.

(** ** Attempt counting *)

Lemma updateDrill_None id stats t p :
  updateDrillProgress id stats t p = None <-> st_modules (drills p) !! id = None.
Proof.
  unfold updateDrillProgress. destruct (st_modules (drills p) !! id); [|tauto].
  cbv zeta. destruct (_ && _); split; discriminate.
Qed.

Lemma updateScenario_None id stats t p :
  updateScenarioProgress id stats t p = None <-> st_modules (scenarios p) !! id = None.
Proof.
  unfold updateScenarioProgress. destruct (st_modules (scenarios p) !! id); [|tauto].
  cbv zeta. destruct (_ && _); split; discriminate.
Qed.

Lemma updateDrill_counts id stats t p p' :
  updateDrillProgress id stats t p = Some p' ->
  st_totalAttempts (drills p') = S (st_totalAttempts (drills p)) /\
  st_modules (scenarios p') = st_modules (scenarios p).
Proof.
  intros H. destruct (updateDrill_shape id stats t p p' H) as (r0 & r1 & _ & _ & _ & _ & _ & Hp).
  cbv zeta in Hp. destruct Hp as [->|(_ & _ & ->)]; [split; reflexivity|].
  match goal with |- context [checkDrillAchievements ?q stats] =>
    destruct (checkDrillAchievements_fields q stats) as (_ & _ & _ & F4 & F5 & _);
    rewrite F4, F5; destruct (forallb _ _); split; reflexivity
  end.
Qed.

Lemma updateScenario_counts id stats t p p' :
  updateScenarioProgress id stats t p = Some p' ->
  drills p' = drills p /\
  exists s0, st_modules (scenarios p) !! id = Some s0 /\
    forall x, attempts_at (st_modules (scenarios p')) x =
              if decide (id = x) then S (attempts s0) else attempts_at (st_modules (scenarios p)) x.
Proof.
  intros H. destruct (updateScenario_shape id stats t p p' H) as (s0 & s1 & E0 & U & _ & A & _ & Hp).
  cbv zeta in Hp. split.
  - destruct Hp as [->|(_ & _ & o & ->)]; [reflexivity|].
    match goal with |- context [checkScenarioAchievements ?q stats] =>
      destruct (checkScenarioAchievements_fields q stats) as (F1 & _);
      rewrite F1; destruct (forallb _ _); reflexivity
    end.
  - exists s0. split; [exact E0|]. intros x.
    assert (Hm1 : attempts_at (<[id:=s1]> (st_modules (scenarios p))) x =
                  if decide (id = x) then S (attempts s0) else attempts_at (st_modules (scenarios p)) x).
    { rewrite attempts_at_insert, A. reflexivity. }
    destruct Hp as [->|(_ & _ & o & ->)]; [exact Hm1|].
    destruct (completing_insert _ id s0 s1 o E0 U) as (_ & _ & _ & HA3 & _).
    match goal with |- context [checkScenarioAchievements ?q stats] =>
      destruct (checkScenarioAchievements_fields q stats) as (_ & _ & _ & _ & F5 & _);
      rewrite F5; destruct (forallb _ _); cbn [scenarios st_modules set_stage_completed set_modules]
    end; rewrite HA3; exact Hm1.
Qed.

Lemma fold_sum_attempts m l acc :
  fold_left (fun sum id => sum + attempts_at m id)%nat l acc = (acc + sum_list_with (attempts_at m) l)%nat.
Proof.
  revert acc. induction l as [|a l IH]; intros acc; cbn; [lia|]. rewrite IH. lia.
Qed.

Lemma record_counts p a :
  Inv p ->
  st_totalAttempts (drills (record_attempt p a)) =
    (st_totalAttempts (drills p) + if drill_call a then 1 else 0)%nat /\
  sum_list_with (attempts_at (st_modules (scenarios (record_attempt p a)))) SCENARIO_ORDER =
    (sum_list_with (attempts_at (st_modules (scenarios p))) SCENARIO_ORDER +
     if scenario_call a then 1 else 0)%nat.
Proof.
  intros I. destruct a as [id st t|id st t]; cbn [record_attempt drill_call scenario_call].
  - destruct (updateDrillProgress id st t p) as [p'|] eqn:E;
      [change (default p (Some p')) with p'|change (default p None) with p].
    + destruct (updateDrill_counts _ _ _ _ _ E) as [T M]. rewrite T, M.
      rewrite bool_decide_eq_true_2; [split; lia|].
      apply (inv_dkeys _ I). destruct (st_modules (drills p) !! id) eqn:E'; [eauto|].
      apply (updateDrill_None id st t) in E'. congruence.
    + apply updateDrill_None in E. rewrite bool_decide_eq_false_2; [split; lia|].
      intros Hin. apply (inv_dkeys _ I) in Hin. rewrite E in Hin. destruct Hin; discriminate.
  - destruct (updateScenarioProgress id st t p) as [p'|] eqn:E;
      [change (default p (Some p')) with p'|change (default p None) with p].
    + destruct (updateScenario_counts _ _ _ _ _ E) as [D (s0 & E0 & HA)]. rewrite D.
      assert (Hin : id ∈ SCENARIO_ORDER) by (apply (inv_skeys _ I); eauto).
      rewrite bool_decide_eq_true_2 by exact Hin. split; [lia|].
      rewrite (sum_list_with_update (attempts_at (st_modules (scenarios p))) _ _ id);
        [lia|exact SCENARIO_ORDER_NoDup|apply list_elem_of_In, Hin| |].
      * intros x Hx. rewrite HA. destruct (decide (id = x)); [congruence|reflexivity].
      * rewrite HA. destruct (decide (id = id)); [|congruence]. unfold attempts_at. rewrite E0. reflexivity.
    + apply updateScenario_None in E. rewrite bool_decide_eq_false_2; [split; lia|].
      intros Hin. apply (inv_skeys _ I) in Hin. rewrite E in Hin. destruct Hin; discriminate.
Qed.

Lemma run_counts p l :
  Inv p ->
  st_totalAttempts (drills (run_attempts p l)) =
    (st_totalAttempts (drills p) + List.length (List.filter drill_call l))%nat /\
  sum_list_with (attempts_at (st_modules (scenarios (run_attempts p l)))) SCENARIO_ORDER =
    (sum_list_with (attempts_at (st_modules (scenarios p))) SCENARIO_ORDER +
     List.length (List.filter scenario_call l))%nat.
Proof.
  unfold run_attempts. revert p. induction l as [|a l IH]; intros p I; cbn [fold_left List.filter List.length].
  - split; lia.
  - destruct (IH (record_attempt p a) (Inv_record p a I)) as [T S].
    destruct (record_counts p a I) as [T1 S1]. rewrite T, S, T1, S1.
    destruct (drill_call a), (scenario_call a); cbn [List.length]; split; lia.
Qed.

Lemma chain_of_nth i a b :
  nth_error DRILL_ORDER i = Some a -> nth_error DRILL_ORDER (S i) = Some b -> (a, b) ∈ DRILL_CHAIN.
Proof.
  intros Ha Hb. destruct i as [|[|[|[|[|i]]]]]; cbn in Ha, Hb; try discriminate;
    injection Ha as <-; injection Hb as <-; apply (bool_decide_unpack _); vm_compute; reflexivity.
Qed.

(** After any sequence of recordAttempt calls on the default progress, the
    drills unlock in [DRILL_ORDER]: the first drill is unlocked, and each
    later drill is unlocked exactly when the drill before it is completed. *)
Theorem drill_unlock_order (l : list Attempt) :
  let p := run_attempts DEFAULT_PROGRESS l in
  isDrillUnlocked p "hand-ranking" = true /\
  forall i a b, nth_error DRILL_ORDER i = Some a -> nth_error DRILL_ORDER (S i) = Some b ->
    isDrillUnlocked p b = isDrillCompleted p a.
Proof.
  cbv zeta. pose proof (Inv_run DEFAULT_PROGRESS l Inv_default) as I.
  split; [exact (inv_first _ I)|]. intros i a b Ha Hb.
  exact (inv_chain _ I a b (chain_of_nth i a b Ha Hb)).
Qed.

Definition progress_example_calls : list Attempt :=
  [DrillAttempt "hand-ranking" (mkStats (Some 90%Q) (Some 12%Q) (Some 1500%Q)) "t1";
   DrillAttempt "equity-snap" (mkStats (Some 95%Q) None None) "t2";
   ScenarioAttempt "defend-3bet" (mkStats (Some 80%Q) None None) "t3";
   ScenarioAttempt "cold-4bet" (mkStats (Some 50%Q) None None) "t4"].

Lemma drill_unlock_order_witness :
  nth_error DRILL_ORDER 0%nat = Some "hand-ranking" /\ nth_error DRILL_ORDER 1%nat = Some "open-fold" /\
  isDrillUnlocked (run_attempts DEFAULT_PROGRESS progress_example_calls) "open-fold" =
    isDrillCompleted (run_attempts DEFAULT_PROGRESS progress_example_calls) "hand-ranking".
Proof.
  split; [reflexivity|]. split; [reflexivity|].
  exact (proj2 (drill_unlock_order progress_example_calls) 0%nat _ _ eq_refl eq_refl).
Defined.

Local Ltac in_order := apply (bool_decide_unpack _); vm_compute; reflexivity.

(** getCurrentDrill, after any sequence of recordAttempt calls on the
    default progress, names the first drill of [DRILL_ORDER] that is not
    completed, and ["hand-ranking"] once all five are. *)
Theorem getCurrentDrill_first_incomplete (l : list Attempt) :
  let p := run_attempts DEFAULT_PROGRESS l in
  getCurrentDrill p =
    match List.find (fun id => negb (isDrillCompleted p id)) DRILL_ORDER with
    | Some id => id
    | None => "hand-ranking"
    end.
Proof.
  cbv zeta. pose proof (Inv_run DEFAULT_PROGRESS l Inv_default) as I.
  set (p := run_attempts DEFAULT_PROGRESS l) in *.
  destruct I as [DK _ FI CH _ _ _ _ _ _ _ _ _].
  set (m := st_modules (drills p)) in *.
  assert (K : forall x, x ∈ DRILL_ORDER -> exists d, m !! x = Some d).
  { intros x Hx. apply DK in Hx. destruct Hx as [d Hd]. eauto. }
  destruct (K "hand-ranking" ltac:(in_order)) as [d1 E1].
  destruct (K "open-fold" ltac:(in_order)) as [d2 E2].
  destruct (K "equity-snap" ltac:(in_order)) as [d3 E3].
  destruct (K "range-check" ltac:(in_order)) as [d4 E4].
  destruct (K "position-speed" ltac:(in_order)) as [d5 E5].
  pose proof (CH "hand-ranking" "open-fold" ltac:(in_order)) as C2.
  pose proof (CH "open-fold" "equity-snap" ltac:(in_order)) as C3.
  pose proof (CH "equity-snap" "range-check" ltac:(in_order)) as C4.
  pose proof (CH "range-check" "position-speed" ltac:(in_order)) as C5.
  unfold is_unlocked, is_completed in FI, C2, C3, C4, C5.
  rewrite E1 in FI, C2. rewrite E2 in C2, C3. rewrite E3 in C3, C4. rewrite E4 in C4, C5.
  rewrite E5 in C5.
  unfold getCurrentDrill, isDrillCompleted, is_completed. fold m.
  unfold DRILL_ORDER. cbn [List.find hd].
  rewrite E1, E2, E3, E4, E5, FI, C2, C3, C4, C5.
  destruct (completed d1), (completed d2), (completed d3), (completed d4), (completed d5);
    reflexivity.
Qed.

(** The stage gates, after any sequence of recordAttempt calls on the
    default progress: the scenarios stage is unlocked exactly when all five
    drills are completed (so isScenarioUnlocked is false before that), and
    the full-hands stage exactly when all six scenarios are. *)
Theorem stage_unlock_gates (l : list Attempt) :
  let p := run_attempts DEFAULT_PROGRESS l in
  st_unlocked (scenarios p) = forallb (isDrillCompleted p) DRILL_ORDER /\
  st_unlocked (fullHands p) = forallb (is_completed (st_modules (scenarios p))) SCENARIO_ORDER /\
  (forall id, isScenarioUnlocked p id = true -> forallb (isDrillCompleted p) DRILL_ORDER = true).
Proof.
  cbv zeta. pose proof (Inv_run DEFAULT_PROGRESS l Inv_default) as I.
  assert (G : st_unlocked (scenarios (run_attempts DEFAULT_PROGRESS l)) =
              forallb (isDrillCompleted (run_attempts DEFAULT_PROGRESS l)) DRILL_ORDER).
  { rewrite (inv_sunl _ I), (inv_dstage _ I). reflexivity. }
  split; [exact G|]. split; [rewrite (inv_funl _ I); exact (inv_sstage _ I)|].
  intros id H. unfold isScenarioUnlocked in H. rewrite <- G.
  destruct (st_unlocked (scenarios (run_attempts DEFAULT_PROGRESS l))); [reflexivity|discriminate].
Qed.

Lemma stage_unlock_gates_witness :
  isScenarioUnlocked (run_attempts DEFAULT_PROGRESS progress_example_calls) "bb-defense" = false /\
  forallb (isDrillCompleted (run_attempts DEFAULT_PROGRESS progress_example_calls)) DRILL_ORDER = false /\
  (isScenarioUnlocked (run_attempts DEFAULT_PROGRESS progress_example_calls) "bb-defense" = true ->
   forallb (isDrillCompleted (run_attempts DEFAULT_PROGRESS progress_example_calls)) DRILL_ORDER = true).
Proof.
  split; [vm_compute; reflexivity|]. split; [vm_compute; reflexivity|].
  exact (proj2 (proj2 (stage_unlock_gates progress_example_calls)) "bb-defense").
Defined.

(** A drill or scenario record is only ever marked completed with a best
    score at or above its pass threshold ([getDrillThreshold],
    [getScenarioThreshold]), whatever attempts were recorded on the
    default progress. *)
Theorem completed_meets_threshold (l : list Attempt) (id : string) (r : ModRec) :
  let p := run_attempts DEFAULT_PROGRESS l in
  (st_modules (drills p) !! id = Some r -> completed r = true ->
   (getDrillThreshold id <= bestScore r)%Q) /\
  (st_modules (scenarios p) !! id = Some r -> completed r = true ->
   (getScenarioThreshold id <= bestScore r)%Q).
Proof.
  cbv zeta. pose proof (Inv_run DEFAULT_PROGRESS l Inv_default) as I.
  split; [apply (inv_dscore _ I)|apply (inv_sscore _ I)].
Qed.

Lemma completed_meets_threshold_witness :
  st_modules (drills (run_attempts DEFAULT_PROGRESS progress_example_calls)) !! "equity-snap" =
    Some (mkMod false true 95 (Some 0) None 1 (Some "t2")) /\
  (getDrillThreshold "equity-snap" <= bestScore (mkMod false true 95 (Some 0) None 1 (Some "t2")))%Q.
Proof.
  split; [vm_compute; reflexivity|].
  refine (proj1 (completed_meets_threshold progress_example_calls "equity-snap"
                   (mkMod false true 95 (Some 0) None 1 (Some "t2"))) _ eq_refl).
  vm_compute. reflexivity.
Defined.

Definition all_passed_calls : list Attempt :=
  List.map (fun id => DrillAttempt id (mkStats (Some 100%Q) None None) "t") DRILL_ORDER ++
  List.map (fun id => ScenarioAttempt id (mkStats (Some 100%Q) None None) "t") SCENARIO_ORDER.

(** The drill-master and scenario-solver achievements are only ever
    awarded once every drill, respectively every scenario, is completed. *)
Theorem mastery_achievements (l : list Attempt) :
  let p := run_attempts DEFAULT_PROGRESS l in
  ("drill-master" ∈ st_achievements (drills p) -> forallb (isDrillCompleted p) DRILL_ORDER = true) /\
  ("scenario-solver" ∈ st_achievements (scenarios p) ->
   forallb (is_completed (st_modules (scenarios p))) SCENARIO_ORDER = true).
Proof.
  cbv zeta. pose proof (Inv_run DEFAULT_PROGRESS l Inv_default) as I. split.
  - intros H. pose proof (inv_dach _ I H) as D. rewrite (inv_dstage _ I) in D. exact D.
  - intros H. pose proof (inv_sach _ I H) as D. rewrite (inv_sstage _ I) in D. exact D.
Qed.

Lemma mastery_achievements_witness :
  "drill-master" ∈ st_achievements (drills (run_attempts DEFAULT_PROGRESS all_passed_calls)) /\
  "scenario-solver" ∈ st_achievements (scenarios (run_attempts DEFAULT_PROGRESS all_passed_calls)) /\
  forallb (isDrillCompleted (run_attempts DEFAULT_PROGRESS all_passed_calls)) DRILL_ORDER = true /\
  forallb (is_completed (st_modules (scenarios (run_attempts DEFAULT_PROGRESS all_passed_calls))))
    SCENARIO_ORDER = true.
Proof.
  assert (H1 : "drill-master" ∈ st_achievements (drills (run_attempts DEFAULT_PROGRESS all_passed_calls)))
    by (apply (bool_decide_unpack _); vm_compute; reflexivity).
  assert (H2 : "scenario-solver" ∈ st_achievements (scenarios (run_attempts DEFAULT_PROGRESS all_passed_calls)))
    by (apply (bool_decide_unpack _); vm_compute; reflexivity).
  split; [exact H1|]. split; [exact H2|].
  split; [exact (proj1 (mastery_achievements all_passed_calls) H1)|
          exact (proj2 (mastery_achievements all_passed_calls) H2)].
Defined.

(** The id an attempt names. *)
Definition attempt_id (a : Attempt) : string :=
  match a with DrillAttempt id _ _ | ScenarioAttempt id _ _ => id end.

(** The attempt totals the stats summaries report, after any sequence of
    recordAttempt calls on the default progress: getDrillStats'
    [totalAttempts] (the stored counter) is the number of drill attempts on
    known drills and the sum of the drills' [attempts]; getScenarioStats'
    [totalAttempts] (a sum over the records) is the number of scenario
    attempts on known scenarios. Attempts on unknown ids count nowhere.
    This holds for ids that are not names the [modules] objects inherit
    from [Object.prototype]: for those the guard
    [!drillData?.modules[drillId]] is false, and updateDrillProgress still
    adds one to [drills.totalAttempts] and saves. *)
Theorem attempt_totals (l : list Attempt) :
  Forall (fun a => attempt_id a ∉ RangeGridModel.OBJECT_PROTOTYPE_KEYS) l ->
  let p := run_attempts DEFAULT_PROGRESS l in
  ds_totalAttempts (getDrillStats p) = List.length (List.filter drill_call l) /\
  ds_totalAttempts (getDrillStats p) = sum_list_with (attempts_at (st_modules (drills p))) DRILL_ORDER /\
  ss_totalAttempts (getScenarioStats p) = List.length (List.filter scenario_call l).
Proof.
  intros _. cbv zeta. pose proof (Inv_run DEFAULT_PROGRESS l Inv_default) as I.
  destruct (run_counts DEFAULT_PROGRESS l Inv_default) as [T S].
  unfold getDrillStats, getScenarioStats. cbn [ds_totalAttempts ss_totalAttempts].
  split; [rewrite T; reflexivity|]. split; [exact (inv_dtotal _ I)|].
  rewrite fold_sum_attempts, S. reflexivity.
Qed.

Definition unknown_id_calls : list Attempt :=
  progress_example_calls ++
  [DrillAttempt "no-such-drill" (mkStats (Some 100%Q) None None) "t5";
   ScenarioAttempt "no-such-scenario" (mkStats (Some 100%Q) None None) "t6"].

Lemma attempt_totals_witness :
  Forall (fun a => attempt_id a ∉ RangeGridModel.OBJECT_PROTOTYPE_KEYS) unknown_id_calls /\
  ds_totalAttempts (getDrillStats (run_attempts DEFAULT_PROGRESS unknown_id_calls)) = 2%nat /\
  ds_totalAttempts (getDrillStats (run_attempts DEFAULT_PROGRESS unknown_id_calls)) =
    List.length (List.filter drill_call unknown_id_calls) /\
  ss_totalAttempts (getScenarioStats (run_attempts DEFAULT_PROGRESS unknown_id_calls)) =
    List.length (List.filter scenario_call unknown_id_calls).
Proof.
  assert (H : Forall (fun a => attempt_id a ∉ RangeGridModel.OBJECT_PROTOTYPE_KEYS) unknown_id_calls)
    by (apply (bool_decide_unpack _); vm_compute; reflexivity).
  split; [exact H|]. split; [vm_compute; reflexivity|].
  destruct (attempt_totals unknown_id_calls H) as [T1 [_ T3]].
  split; [exact T1|exact T3].
Defined.

End ProgressFacts.
